(** * Trend intelligence pipeline: a shallow embedding

    The Python sources [scripts/hourly_update.py], [scripts/ai_analyzer.py]
    and [scripts/tiktok_scraper.py] are embedded as Rocq functions and the
    properties of the analysis stages are stated over them.

    Conventions of the embedding:
    - a Python [str] is a [string] holding ASCII text: [lower]/[upper]
      act on the ASCII letters, [split()] on the ASCII white space,
      the regular-expression class of digits is [0-9];
    - a record delivered as a [dict] is a Rocq record whose optional keys
      (the ones the code reads with [.get]) are [option] fields, while the
      keys read with [h["..."]] are plain fields;
    - a [dict] used for counting keeps its insertion order and is an
      association list; a [set] of strings is a [gset string]; the lookup
      table built by a dict comprehension is a [gmap];
    - a Python [float] is the rational the double is; the arithmetic of
      the category shares and of the post-count parser rounds every
      result to the nearest double ([binary64]), the value [round(x, 1)]
      returns is written as the decimal it prints as;
    - [list.sort]/[sorted] are stable, also with [reverse=True]. *)

From Stdlib Require Import ZArith QArith Qabs Qpower Qround Lqa Ascii String List
  Permutation Sorted Lia.
From stdpp Require Import base decidable option list gmap sets strings pretty.

Local Open Scope string_scope.
Local Open Scope Z_scope.

(** ** Python string primitives *)

Module PyStr.

Definition is_upper (c : ascii) : bool :=
  let n := nat_of_ascii c in ((65 <=? n) && (n <=? 90))%nat.

Definition is_lower (c : ascii) : bool :=
  let n := nat_of_ascii c in ((97 <=? n) && (n <=? 122))%nat.

Definition is_digit (c : ascii) : bool :=
  let n := nat_of_ascii c in ((48 <=? n) && (n <=? 57))%nat.

(** [str.isspace] on the ASCII range: TAB..CR, FS..US and the blank. *)
Definition is_space (c : ascii) : bool :=
  let n := nat_of_ascii c in
  (((9 <=? n) && (n <=? 13)) || ((28 <=? n) && (n <=? 31)) || (n =? 32))%nat.

Definition lower_char (c : ascii) : ascii :=
  if is_upper c then ascii_of_nat (nat_of_ascii c + 32) else c.

Definition upper_char (c : ascii) : ascii :=
  if is_lower c then ascii_of_nat (nat_of_ascii c - 32) else c.

Fixpoint map_chars (f : ascii -> ascii) (s : string) : string :=
  match s with
  | EmptyString => EmptyString
  | String c s' => String (f c) (map_chars f s')
  end.

(** [s.lower()] and [s.upper()] *)
Definition lower : string -> string := map_chars lower_char.
Definition upper : string -> string := map_chars upper_char.

(** [s.capitalize()] *)
Definition capitalize (s : string) : string :=
  match s with
  | EmptyString => EmptyString
  | String c s' => String (upper_char c) (lower s')
  end.

(** [s.replace(c, empty)] for a one-character pattern [c] *)
Fixpoint remove_char (c : ascii) (s : string) : string :=
  match s with
  | EmptyString => EmptyString
  | String d s' =>
      if Ascii.eqb c d then remove_char c s' else String d (remove_char c s')
  end.

(** [s.replace(c, d)] for one-character pattern and replacement *)
Definition replace_char (c d : ascii) : string -> string :=
  map_chars (fun x => if Ascii.eqb c x then d else x).

(** [c in s] for a one-character [c] *)
Fixpoint has_char (c : ascii) (s : string) : bool :=
  match s with
  | EmptyString => false
  | String d s' => Ascii.eqb c d || has_char c s'
  end.

(** Some character of [s] satisfies [p]. *)
Fixpoint any_char (p : ascii -> bool) (s : string) : bool :=
  match s with
  | EmptyString => false
  | String c s' => p c || any_char p s'
  end.

(** [s.startswith(p)] *)
Fixpoint starts_with (p s : string) : bool :=
  match p, s with
  | EmptyString, _ => true
  | String _ _, EmptyString => false
  | String a p', String b s' => Ascii.eqb a b && starts_with p' s'
  end.

(** [p in s]: [p] occurs in [s] as a contiguous substring *)
Fixpoint contains (p s : string) : bool :=
  starts_with p s ||
  match s with
  | EmptyString => false
  | String _ s' => contains p s'
  end.

(** [s.split()]: the maximal runs of non-space characters.  [cur] is
    the word being read, in reverse. *)
Fixpoint rev_string (acc s : string) : string :=
  match s with
  | EmptyString => acc
  | String c s' => rev_string (String c acc) s'
  end.

Definition flush (cur : string) (k : list string) : list string :=
  match cur with
  | EmptyString => k
  | _ => rev_string EmptyString cur :: k
  end.

Fixpoint split_from (cur : string) (s : string) : list string :=
  match s with
  | EmptyString => flush cur []
  | String c s' =>
      if is_space c then flush cur (split_from EmptyString s')
      else split_from (String c cur) s'
  end.

Definition split : string -> list string := split_from EmptyString.

End PyStr.

(** ** Python values and records *)

(** A number as the code holds it: an [int] or a [float]. *)
Inductive PyNum : Type :=
| NInt (n : Z)
| NFloat (q : Q).

Definition num_val (v : PyNum) : Q :=
  match v with
  | NInt n => inject_Z n
  | NFloat q => q
  end.

(** [a == b] on numbers *)
Definition num_eqb (a b : PyNum) : bool := Qeq_bool (num_val a) (num_val b).

(** [a > b] on numbers *)
Definition num_gtb (a b : PyNum) : bool :=
  negb (Qle_bool (num_val a) (num_val b)).

(** A value read from the scraped page: [None], a string or a number. *)
Inductive PyVal : Type :=
| VNone
| VStr (s : string)
| VNum (n : PyNum).

(** A hashtag record.  The keys ["hashtag"] and ["rank"] are read with
    [h[...]] everywhere; every other key is read with [h.get(...)]. *)
Record Hashtag : Type := {
  hashtag : string;
  rank : Z;
  post_count : option PyVal;
  numeric_post_count : option PyNum;
  ranking_direction : option string;
  ranking_change : option Z;
  categories : option (list string);
  lifecycle_stage : option string;
  period_momentum : option string
}.

(** The record as the collection stage delivers it. *)
Definition raw_hashtag (text : string) (r : Z) (dir : string) (chg : Z) : Hashtag :=
  {| hashtag := text; rank := r; post_count := None;
     numeric_post_count := None;
     ranking_direction := Some dir; ranking_change := Some chg;
     categories := None; lifecycle_stage := None; period_momentum := None |}.

(** [d.get(k) == s] *)
Definition get_is (field : option string) (s : string) : bool :=
  match field with
  | Some v => String.eqb v s
  | None => false
  end.

(** [d.get(k, dflt)] *)
Definition get_or {A : Type} (field : option A) (dflt : A) : A :=
  match field with
  | Some v => v
  | None => dflt
  end.

(** ** Sorting and counting *)

(** [list.sort(key=...)]: a stable insertion sort.  [before y x] tells
    that [y] has to stay in front of the later-inserted, earlier-placed
    [x]; an element passes only the ones that are strictly before it. *)
Fixpoint insert_by {A : Type} (before : A -> A -> bool) (x : A) (l : list A) : list A :=
  match l with
  | [] => [x]
  | y :: l' => if before y x then y :: insert_by before x l' else x :: l
  end.

Definition sort_by {A : Type} (before : A -> A -> bool) (l : list A) : list A :=
  foldr (insert_by before) [] l.

(** [l.sort(key=k)] *)
Definition sort_asc {A : Type} (key : A -> Z) : list A -> list A :=
  sort_by (fun y x => key y <? key x).

(** [l.sort(key=k, reverse=True)] *)
Definition sort_desc {A : Type} (key : A -> Z) : list A -> list A :=
  sort_by (fun y x => key x <? key y).

(** [d[k] = d.get(k, 0) + 1] on an insertion-ordered dict *)
Fixpoint incr (k : string) (d : list (string * Z)) : list (string * Z) :=
  match d with
  | [] => [(k, 1)]
  | (k', n) :: d' =>
      if String.eqb k k' then (k', n + 1) :: d' else (k', n) :: incr k d'
  end.

Definition count_all (keys : list string) : list (string * Z) :=
  foldl (fun d k => incr k d) [] keys.

(** ** Similarity clusterer ([hourly_update.py]) *)

Module Cluster.
Record t : Type := {
  id : string;
  items : list (string * Z);
  size : nat;
  categories : list string;
  trend_strength : nat
}.
End Cluster.

(** [TrendAnalyzer.are_hashtags_similar].  The quotient
    [len(common) / max(...) > 0.5] of two small integers is compared
    exactly: it holds iff [2 * len(common) > max(...)]. *)
Definition are_hashtags_similar (hashtag1 hashtag2 : Hashtag) : bool :=
  let text1 := PyStr.remove_char "#" (PyStr.lower (hashtag hashtag1)) in
  let text2 := PyStr.remove_char "#" (PyStr.lower (hashtag hashtag2)) in
  if PyStr.contains text1 text2 || PyStr.contains text2 text1 then true
  else
    let words1 : gset string := list_to_set (PyStr.split text1) in
    let words2 : gset string := list_to_set (PyStr.split text2) in
    let common_words := words1 ∩ words2 in
    if negb (bool_decide (common_words = ∅)) &&
       (Nat.max (size words1) (size words2) <? 2 * size common_words)%nat
    then true else false.

Definition in_rising_or_growing (item : Hashtag) : bool :=
  get_is (lifecycle_stage item) "rising" || get_is (lifecycle_stage item) "growing".

(** The cluster object built from [cluster_items] when [n] clusters exist. *)
Definition make_cluster (n : nat) (cluster_items : list Hashtag) : Cluster.t :=
  let all_categories := concat (map (fun item => get_or (categories item) []) cluster_items) in
  let category_counts := count_all all_categories in
  let top_categories := take 2 (map fst (sort_desc snd category_counts)) in
  {| Cluster.id := "cluster_" +:+ pretty n;
     Cluster.items := map (fun item => (hashtag item, rank item)) cluster_items;
     Cluster.size := length cluster_items;
     Cluster.categories := top_categories;
     Cluster.trend_strength := length (filter (fun item => in_rising_or_growing item = true) cluster_items) |}.

(** The body of the outer loop of [cluster_hashtags]: [rest] is
    [hashtags[i+1:]], the state is [(clusters, processed)]. *)
Definition cluster_step (hashtag1 : Hashtag) (rest : list Hashtag)
    (st : list Cluster.t * gset string) : list Cluster.t * gset string :=
  let '(clusters, processed) := st in
  if bool_decide (hashtag hashtag1 ∈ processed) then st
  else
    let similar := filter (fun hashtag2 => are_hashtags_similar hashtag1 hashtag2 = true) rest in
    let cluster_items := hashtag1 :: similar in
    let processed' :=
      foldl (fun p hashtag2 => {[hashtag hashtag2]} ∪ p)
            ({[hashtag hashtag1]} ∪ processed) similar in
    if (2 <=? length cluster_items)%nat
    then ((clusters ++ [make_cluster (length clusters) cluster_items])%list, processed')
    else (clusters, processed').

Fixpoint cluster_loop (hashtags : list Hashtag)
    (st : list Cluster.t * gset string) : list Cluster.t * gset string :=
  match hashtags with
  | [] => st
  | hashtag1 :: rest => cluster_loop rest (cluster_step hashtag1 rest st)
  end.

(** [TrendAnalyzer.cluster_hashtags] *)
Definition cluster_hashtags (hashtags : list Hashtag) : list Cluster.t :=
  fst (cluster_loop hashtags ([], ∅)).

(** ** Enrichment ([TrendAnalyzer.analyze_trends], hashtag part) *)

Definition category_keywords : list (string * list string) :=
  [ ("entertainment", ["dance"; "challenge"; "meme"; "funny"; "comedy"; "viral"; "trend"]);
    ("lifestyle", ["fashion"; "beauty"; "outfit"; "style"; "aesthetic"]);
    ("food", ["food"; "recipe"; "cooking"; "meal"; "baking"; "chef"]);
    ("family", ["mother"; "mom"; "family"; "dad"; "father"; "kid"; "parent"; "child"]);
    ("travel", ["travel"; "vacation"; "trip"; "destination"; "journey"]);
    ("fitness", ["workout"; "fitness"; "gym"; "exercise"; "health"]) ].

(** [TrendAnalyzer.categorize_hashtag] *)
Definition categorize_hashtag (hashtag_text : string) : list string :=
  let text := PyStr.replace_char "-" " "
                (PyStr.replace_char "_" " "
                   (PyStr.remove_char "#" (PyStr.lower hashtag_text))) in
  let categories :=
    map fst (filter (fun ck => existsb (fun keyword => PyStr.contains keyword text) (snd ck) = true)
                    category_keywords) in
  match categories with
  | [] => ["other"]
  | _ => categories
  end.

(** The lifecycle stage chosen in the hashtag loop of [analyze_trends]. *)
Definition hashtag_lifecycle_stage (h : Hashtag) : string :=
  if get_is (ranking_direction h) "up" && (10 <? get_or (ranking_change h) 0) then "rising"
  else if get_is (ranking_direction h) "up" && (5 <? get_or (ranking_change h) 0) then "growing"
  else if get_is (ranking_direction h) "down" && (10 <? get_or (ranking_change h) 0) then "declining"
  else "stable".

(** One iteration of the hashtag loop of [analyze_trends]: the two keys
    are overwritten, the others are kept. *)
Definition enrich_hashtag (h : Hashtag) : Hashtag :=
  {| hashtag := hashtag h; rank := rank h; post_count := post_count h;
     numeric_post_count := numeric_post_count h;
     ranking_direction := ranking_direction h;
     ranking_change := ranking_change h;
     categories := Some (categorize_hashtag (hashtag h));
     lifecycle_stage := Some (hashtag_lifecycle_stage h);
     period_momentum := period_momentum h |}.

(** ** Trend predictor ([AITrendAnalyzer.predict_trend_future]) *)

Module Prediction.
Record t : Type := {
  hashtag : string;
  current_rank : Z;
  current_stage : string;
  score : Z;
  status : string;
  longevity : string
}.
End Prediction.

(** [{h["hashtag"]: h for h in hashtags_30d}]: a later record replaces an
    earlier one with the same text. *)
Definition hashtags_map (hashtags_30d : list Hashtag) : gmap string Hashtag :=
  foldl (fun m h => <[hashtag h := h]> m) ∅ hashtags_30d.

(** Factor 1: ranking direction and magnitude *)
Definition direction_factor (h : Hashtag) : Z :=
  if get_is (ranking_direction h) "up" then Z.min (get_or (ranking_change h) 0 * 2) 20
  else if get_is (ranking_direction h) "down" then - Z.min (get_or (ranking_change h) 0 * 2) 20
  else 0.

(** Factor 2: lifecycle stage *)
Definition stage_factor (h : Hashtag) : Z :=
  if get_is (lifecycle_stage h) "rising" then 15
  else if get_is (lifecycle_stage h) "growing" then 10
  else if get_is (lifecycle_stage h) "declining" then -15
  else 0.

(** Factor 3: momentum against the 30-day data *)
Definition momentum_factor (h : Hashtag) (hashtags_30d_map : gmap string Hashtag) : Z :=
  match hashtags_30d_map !! hashtag h with
  | Some h30 =>
      (if rank h <? rank h30 then 10 else if rank h30 <? rank h then -5 else 0)
      + (if get_is (period_momentum h) "accelerating" then 15
         else if get_is (period_momentum h) "decelerating" then -10 else 0)
  | None => 5
  end.

(** Factor 4: post count *)
Definition volume_factor (h : Hashtag) : Z :=
  let post_count := get_or (numeric_post_count h) (NInt 0) in
  if num_gtb post_count (NInt 1000000) then 5
  else if num_gtb post_count (NInt 100000) then 3
  else 0.

(** The value of [score] when the status is determined (not yet capped). *)
Definition raw_score (h : Hashtag) (hashtags_30d_map : gmap string Hashtag) : Z :=
  50 + direction_factor h + stage_factor h + momentum_factor h hashtags_30d_map
     + volume_factor h.

(** The [if]/[elif] chain, as the code runs it on the uncapped score. *)
Definition prediction_status (score : Z) : string :=
  if 70 <=? score then "strongly_rising"
  else if 60 <=? score then "rising"
  else if score <=? 30 then "strongly_declining"
  else if score <=? 40 then "declining"
  else "stable".

(** [AITrendAnalyzer._estimate_trend_longevity] *)
Definition _estimate_trend_longevity (status : string) : string :=
  if String.eqb status "strongly_rising" then "2-3 weeks"
  else if String.eqb status "rising" then "1-2 weeks"
  else if String.eqb status "stable" then "5-7 days"
  else if String.eqb status "declining" then "2-4 days"
  else "1-2 days".

(** [min(max(score, 5), 95)] *)
Definition cap_score (score : Z) : Z := Z.min (Z.max score 5) 95.

Definition predict_one (hashtags_30d_map : gmap string Hashtag) (h : Hashtag) : Prediction.t :=
  let score := raw_score h hashtags_30d_map in
  let prediction_status := prediction_status score in
  {| Prediction.hashtag := hashtag h;
     Prediction.current_rank := rank h;
     Prediction.current_stage := get_or (lifecycle_stage h) "stable";
     Prediction.score := cap_score score;
     Prediction.status := prediction_status;
     Prediction.longevity := _estimate_trend_longevity prediction_status |}.

Definition predict_trend_future (hashtags_7d hashtags_30d : list Hashtag) : list Prediction.t :=
  let hashtags_30d_map := hashtags_map hashtags_30d in
  sort_desc Prediction.score (map (predict_one hashtags_30d_map) hashtags_7d).

(** The status table as the specification words it, on the capped score. *)
Inductive spec_status : Z -> string -> Prop :=
| spec_strongly_rising s : 70 <= s -> spec_status s "strongly_rising"
| spec_rising s : 60 <= s < 70 -> spec_status s "rising"
| spec_strongly_declining s : s <= 30 -> spec_status s "strongly_declining"
| spec_declining s : 30 < s <= 40 -> spec_status s "declining"
| spec_stable s : 40 < s < 60 -> spec_status s "stable".

(** The longevity table as the specification words it. *)
Definition spec_longevity : list (string * string) :=
  [ ("strongly_rising", "2-3 weeks"); ("rising", "1-2 weeks"); ("stable", "5-7 days");
    ("declining", "2-4 days"); ("strongly_declining", "1-2 days") ].

(** ** Emerging-trend detector ([TrendAnalyzer.identify_emerging_trends]) *)

Module Song.
Record t : Type := {
  song_name : string;
  artist : option string;
  post_count : option PyVal;
  ranking_direction : option string;
  ranking_change : option Z;
  lifecycle_stage : option string
}.
End Song.

Module Emerging.
Record t : Type := {
  type : string;
  item : string;
  confidence : Z;
  categories : list string;
  post_count : PyVal
}.
End Emerging.

(** The condition under which a hashtag is appended to [emerging]. *)
Definition is_emerging (h : Hashtag) : bool :=
  (get_is (ranking_direction h) "up" && (8 <? get_or (ranking_change h) 0))
  || get_is (period_momentum h) "accelerating".

Definition emerging_of_hashtag (h : Hashtag) : Emerging.t :=
  {| Emerging.type := "hashtag";
     Emerging.item := hashtag h;
     Emerging.confidence := Z.min 95 (50 + get_or (ranking_change h) 0 * 3);
     Emerging.categories := get_or (categories h) ["other"];
     Emerging.post_count := get_or (post_count h) (VStr "N/A") |}.

(** [f"{song['song_name']} - {song.get('artist', 'Unknown')}"] *)
Definition song_label (song : Song.t) : string :=
  Song.song_name song +:+ " - " +:+ get_or (Song.artist song) "Unknown".

Definition emerging_of_song (song : Song.t) : Emerging.t :=
  {| Emerging.type := "song";
     Emerging.item := song_label song;
     Emerging.confidence := 90;
     Emerging.categories := ["entertainment"; "music"];
     Emerging.post_count := get_or (Song.post_count song) (VStr "N/A") |}.

(** The list [emerging] before the final sort. *)
Definition emerging_unsorted (hashtags_7d : list Hashtag) (breakout_songs : list Song.t)
  : list Emerging.t :=
  (map emerging_of_hashtag (filter (fun h => is_emerging h = true) hashtags_7d)
   ++ map emerging_of_song breakout_songs)%list.

Definition identify_emerging_trends (hashtags_7d : list Hashtag) (breakout_songs : list Song.t)
  : list Emerging.t :=
  sort_desc Emerging.confidence (emerging_unsorted hashtags_7d breakout_songs).

(** ** Category analyzer ([TrendAnalyzer.analyze_categories]) *)

Module CategoryStat.
Record t : Type := {
  name : string;
  count : Z;
  percentage : Q;
  top_hashtags : list (string * Z)
}.
End CategoryStat.

(** Rounding to the nearest integer, ties to even. *)
Definition round_half_even (q : Q) : Z :=
  let n := Qnum q in
  let d := Z.pos (Qden q) in
  let f := n / d in
  let r := n mod d in
  if 2 * r <? d then f
  else if d <? 2 * r then f + 1
  else if Z.even f then f else f + 1.

(** The integer part of the binary logarithm of a positive rational. *)
Definition log2_floor (q : Q) : Z :=
  let e := Z.log2 (Qnum q) - Z.log2 (Z.pos (Qden q)) in
  if Qle_bool (2 ^ e) q then e else e - 1.

(** The exponent of the last place of the double nearest to [q]: 52 binary
    places below the leading one, and never below [-1074], the last place
    of the subnormal numbers. *)
Definition float_exponent (q : Q) : Z :=
  Z.max (log2_floor (Qabs q) - 52) (-1074).

(** The result of an operation on floats whose exact value is [q]: the
    nearest double, ties to even (IEEE 754 binary64, the rounding of
    [float(s)], of [int / int] and of [*] on floats).  The exponent is not
    bounded above: where the exact value is [2^1024] or more the code holds
    [inf] and the function a number of that size. *)
Definition binary64 (q : Q) : Q :=
  let e := float_exponent q in
  (inject_Z (round_half_even (q / 2 ^ e)) * 2 ^ e)%Q.

(** [round(x, 1)]: the decimal with one place nearest to the double [x],
    ties to even.  The code holds the double nearest to this decimal, the
    one that prints as it. *)
Definition round1 (x : Q) : Q := inject_Z (round_half_even (x * 10)) / 10.

(** [category in h.get("categories", [])] *)
Definition has_category (category : string) (h : Hashtag) : bool :=
  existsb (String.eqb category) (get_or (categories h) []).

(** [category_counts]: one increment per tag of every hashtag, in order. *)
Definition category_counts (hashtags : list Hashtag) : list (string * Z) :=
  count_all (concat (map (fun h => get_or (categories h) ["other"]) hashtags)).

(** [sum(category_counts.values())] *)
Definition total_of (counts : list (string * Z)) : Z :=
  foldr Z.add 0 (map snd counts).

(** [(count / total) * 100] on two integers: the quotient is rounded to a
    double, and so is its product with 100. *)
Definition float_share (count total : Z) : Q :=
  binary64 (binary64 (inject_Z count / inject_Z total) * 100).

Definition category_stat (hashtags : list Hashtag) (total : Z) (entry : string * Z)
  : CategoryStat.t :=
  let '(category, count) := entry in
  let category_hashtags := sort_asc rank (filter (fun h => has_category category h = true) hashtags) in
  {| CategoryStat.name := category;
     CategoryStat.count := count;
     CategoryStat.percentage := round1 (float_share count total);
     CategoryStat.top_hashtags := map (fun h => (hashtag h, rank h)) (take 3 category_hashtags) |}.

Definition analyze_categories (hashtags : list Hashtag) : list CategoryStat.t :=
  match hashtags with
  | [] => []
  | _ =>
      let counts := category_counts hashtags in
      let total := total_of counts in
      sort_desc CategoryStat.count (map (category_stat hashtags total) counts)
  end.

Definition qsum (l : list Q) : Q := foldr Qplus 0%Q l.

(** The sum of the reported percentages of one run. *)
Definition sum_percentages (stats : list CategoryStat.t) : Q :=
  qsum (map CategoryStat.percentage stats).

(** The shares before rounding. *)
Definition exact_share (total : Z) (st : CategoryStat.t) : Q :=
  (inject_Z (CategoryStat.count st) / inject_Z total) * 100.

(** No hashtag carries more than one category tag. *)
Definition single_category (hashtags : list Hashtag) : Prop :=
  Forall (fun h => (length (get_or (categories h) ["other"]) <= 1)%nat) hashtags.

(** ** Recommendation generator: the fit score *)

(** [AITrendAnalyzer._calculate_combination_score].  [noise] is the value
    returned by [np.random.randint(-5, 6)], which draws from the global,
    unseeded generator of numpy. *)
Definition _calculate_combination_score (h : Hashtag) (song : Song.t) (noise : Z) : Z :=
  let base_score := 70 in
  let base_score :=
    if get_is (ranking_direction h) "up" && get_is (Song.ranking_direction song) "up"
    then base_score + 15 else base_score in
  let base_score :=
    if get_is (lifecycle_stage h) "rising" && get_is (Song.lifecycle_stage song) "rising"
    then base_score + 10 else base_score in
  let base_score := base_score + noise in
  Z.min (Z.max base_score 60) 95.

(** The score before the draw is added. *)
Definition heuristic_score (h : Hashtag) (song : Song.t) : Z :=
  70 + (if get_is (ranking_direction h) "up" && get_is (Song.ranking_direction song) "up"
        then 15 else 0)
     + (if get_is (lifecycle_stage h) "rising" && get_is (Song.lifecycle_stage song) "rising"
        then 10 else 0).

(** The values [np.random.randint(-5, 6)] can return. *)
Definition randint_range (noise : Z) : Prop := -5 <= noise <= 5.


Module Combo.
Record t : Type := {
  hashtag : string;
  song : string;
  fit_score : Z
}.
End Combo.

(** The loop over [enumerate(top_hashtags)]; [draw i] is the value the
    generator returns at the [i]-th call. *)
Fixpoint combinations_from (i : nat) (top_hashtags : list Hashtag) (top_songs : list Song.t)
    (draw : nat -> Z) : list Combo.t :=
  match top_hashtags with
  | [] => []
  | h :: rest =>
      match top_songs !! (i mod length top_songs)%nat with
      | Some song =>
          {| Combo.hashtag := hashtag h;
             Combo.song := song_label song;
             Combo.fit_score := _calculate_combination_score h song (draw i) |}
          :: combinations_from (S i) rest top_songs draw
      | None => []
      end
  end.

(** The [top_combinations] entry of [generate_content_recommendations]. *)
Definition top_combinations (hashtags : list Hashtag) (songs : list Song.t)
    (draw : nat -> Z) : list Combo.t :=
  match hashtags, songs with
  | _ :: _, _ :: _ =>
      let top_hashtags := take (Nat.min 5 (length hashtags)) hashtags in
      let top_songs := take (Nat.min 3 (length songs)) songs in
      take 3 (sort_desc Combo.fit_score (combinations_from 0 top_hashtags top_songs draw))
  | _, _ => []
  end.

(** ** Post-count parser ([TikTokTrendScraper.parse_count]) *)

Definition digit_val (c : ascii) : Z := Z.of_nat (nat_of_ascii c) - 48.

(** The integer written by a run of digits, most significant first. *)
Definition digits_val (ds : list ascii) : Z :=
  foldl (fun acc c => 10 * acc + digit_val c) 0 ds.

(** The longest prefix of digits and what follows it. *)
Fixpoint span_digits (s : string) : list ascii * string :=
  match s with
  | EmptyString => ([], EmptyString)
  | String c s' =>
      if PyStr.is_digit c
      then let '(ds, rest) := span_digits s' in (c :: ds, rest)
      else ([], s)
  end.

(** [re.search] for the pattern: one or more digits, an optional dot,
    any number of digits.  The leftmost digit starts the match; the
    digits are taken greedily, then the dot, then the digits after it.
    The result is the integer and the fractional digits of [group(1)]. *)
Fixpoint search_number (s : string) : option (list ascii * list ascii) :=
  match s with
  | EmptyString => None
  | String c s' =>
      if PyStr.is_digit c then
        let '(ds, rest) := span_digits s in
        match rest with
        | String "." rest' => Some (ds, fst (span_digits rest'))
        | _ => Some (ds, [])
        end
      else search_number s'
  end.

(** The number [group(1)] writes in decimal. *)
Definition decimal_of_match (m : list ascii * list ascii) : Q :=
  let '(ds, fs) := m in
  inject_Z (digits_val ds) + inject_Z (digits_val fs) / inject_Z (10 ^ Z.of_nat (length fs)).

(** [float(group(1))]: the double nearest to that number. *)
Definition float_of_match (m : list ascii * list ascii) : Q :=
  binary64 (decimal_of_match m).

(** The [if]/[elif] chain on the suffix letters: the multiplier and the
    string with the letter removed. *)
Definition strip_multiplier (count_str : string) : Z * string :=
  if PyStr.has_char "K" count_str then (1000, PyStr.remove_char "K" count_str)
  else if PyStr.has_char "M" count_str then (1000000, PyStr.remove_char "M" count_str)
  else if PyStr.has_char "B" count_str then (1000000000, PyStr.remove_char "B" count_str)
  else (1, count_str).

Definition parse_count_str (s : string) : PyNum :=
  let count_str := PyStr.remove_char "," (PyStr.upper s) in
  let '(multiplier, count_str) := strip_multiplier count_str in
  match search_number count_str with
  | Some m => NFloat (binary64 (float_of_match m * inject_Z multiplier))
  | None => NInt 0
  end.

(** [parse_count]; [not count_str] holds of [None], the empty string,
    [0] and [0.0]. *)
Definition parse_count (count_str : PyVal) : PyNum :=
  match count_str with
  | VNone => NInt 0
  | VStr EmptyString => NInt 0
  | VNum n => if num_eqb n (NInt 0) then NInt 0 else n
  | VStr s => parse_count_str s
  end.

(** A count as the page shows it: digits, possibly grouped by commas,
    an optional fraction, and a suffix letter. *)
Fixpoint grouped (ds : list ascii) (s : string) : Prop :=
  match s with
  | EmptyString => ds = []
  | String c s' =>
      (c = ","%char /\ grouped ds s') \/
      (exists ds', ds = c :: ds' /\ PyStr.is_digit c = true /\ grouped ds' s')
  end.

Definition string_of_chars (cs : list ascii) : string :=
  foldr String EmptyString cs.

Definition all_digits (cs : list ascii) : Prop :=
  Forall (fun c => PyStr.is_digit c = true) cs.

(** The text of a fraction: nothing, or a dot followed by digits. *)
Definition fraction_text (fs : option (list ascii)) : string :=
  match fs with
  | None => EmptyString
  | Some fs => String "." (string_of_chars fs)
  end.

Definition fraction_digits (fs : option (list ascii)) : list ascii :=
  match fs with
  | None => []
  | Some fs => fs
  end.

(** The multiplier the specification gives to a suffix letter. *)
Definition suffix_multiplier (c : ascii) : option Z :=
  if Ascii.eqb (PyStr.upper_char c) "K" then Some 1000
  else if Ascii.eqb (PyStr.upper_char c) "M" then Some 1000000
  else if Ascii.eqb (PyStr.upper_char c) "B" then Some 1000000000
  else None.

(** The number a count denotes, read off the numeral itself and not off
    the parser: the properties of the parser are stated against it. *)

(** The digit a character writes. *)
Definition digit_of (c : ascii) : Z :=
  match c with
  | "0" => 0 | "1" => 1 | "2" => 2 | "3" => 3 | "4" => 4
  | "5" => 5 | "6" => 6 | "7" => 7 | "8" => 8 | "9" => 9
  | _ => 0
  end%char.

(** The number a decimal numeral denotes, [ds] being its digits before
    the point and [fs] its digits after the point: the digit at the
    [i]-th place from the right of [ds] counts [10^i], the first digit of
    [fs] one tenth, the next one hundredth, and so on. *)
Fixpoint whole_value (ds : list ascii) : Z :=
  match ds with
  | [] => 0
  | c :: ds' => digit_of c * 10 ^ Z.of_nat (length ds') + whole_value ds'
  end.

Fixpoint fraction_value (fs : list ascii) : Q :=
  match fs with
  | [] => 0
  | c :: fs' => (inject_Z (digit_of c) + fraction_value fs') / 10
  end.

Definition numeral_value (ds fs : list ascii) : Q :=
  inject_Z (whole_value ds) + fraction_value fs.

(** ** Topic modeler ([AITrendAnalyzer.identify_hashtag_topics]) *)

(** A computation that returns a value or raises an [Exception]. *)
Inductive result (A : Type) : Type :=
| Ok (a : A)
| Raise (e : string).
Arguments Ok {A} a.
Arguments Raise {A} e.

#[global] Instance result_ret : MRet result := @Ok.

(** Sequencing: an exception of the first computation skips the rest. *)
#[global] Instance result_bind : MBind result := fun A B k c =>
  match c with
  | Ok a => k a
  | Raise e => Raise e
  end.

(** [try: body except Exception: handler] *)
Definition try_except {A : Type} (body : result A) (handler : string -> result A) : result A :=
  match body with
  | Ok a => Ok a
  | Raise e => handler e
  end.

(** [l[i]], raising [IndexError] out of range *)
Definition index {A : Type} (l : list A) (i : nat) : result A :=
  match l !! i with
  | Some a => Ok a
  | None => Raise "IndexError"
  end.

Module Topic.
Record member : Type := {
  hashtag : string;
  rank : Z;
  score : Q
}.
Record t : Type := {
  id : string;
  name : string;
  keywords : list string;
  hashtags : list member;
  strength : Q
}.
End Topic.

(** [AITrendAnalyzer._generate_default_topics] *)
Definition _generate_default_topics : list Topic.t :=
  [ {| Topic.id := "topic_1"; Topic.name := "Entertainment Content";
       Topic.keywords := ["dance"; "challenge"; "funny"; "comedy"; "trend"];
       Topic.hashtags := []; Topic.strength := 0.85 |};
    {| Topic.id := "topic_2"; Topic.name := "Lifestyle Content";
       Topic.keywords := ["lifestyle"; "routine"; "daily"; "tips"; "hacks"];
       Topic.hashtags := []; Topic.strength := 0.75 |};
    {| Topic.id := "topic_3"; Topic.name := "Food Content";
       Topic.keywords := ["food"; "recipe"; "cooking"; "meal"; "delicious"];
       Topic.hashtags := []; Topic.strength := 0.7 |} ].

Definition topic_categories : list (string * list string) :=
  [ ("dance", ["dance"; "dancing"; "choreography"; "moves"; "routine"]);
    ("fashion", ["outfit"; "fashion"; "style"; "clothes"; "wearing"; "aesthetic"]);
    ("food", ["food"; "recipe"; "cooking"; "baking"; "meal"; "delicious"; "eat"]);
    ("comedy", ["funny"; "comedy"; "joke"; "humor"; "laugh"; "meme"]);
    ("beauty", ["makeup"; "skincare"; "beauty"; "tutorial"; "routine"]);
    ("fitness", ["workout"; "fitness"; "gym"; "exercise"; "training"]);
    ("lifestyle", ["morning"; "routine"; "life"; "day"; "productive"]);
    ("travel", ["travel"; "trip"; "adventure"; "vacation"; "destination"]);
    ("education", ["learn"; "facts"; "educational"; "lesson"; "teaching"]);
    ("gaming", ["game"; "gaming"; "player"; "play"; "level"]);
    ("music", ["song"; "music"; "sound"; "audio"; "beat"; "remix"]) ].

(** [AITrendAnalyzer._generate_topic_name] *)
Definition _generate_topic_name (top_words : list string) : string :=
  let matches (ck : string * list string) : bool :=
    existsb (fun word => existsb (String.eqb word) (snd ck)) (take 3 top_words) in
  match filter (fun ck => matches ck = true) topic_categories with
  | ck :: _ => PyStr.capitalize (fst ck) +:+ " Content"
  | [] =>
      match top_words with
      | w :: _ => PyStr.capitalize w +:+ "-Based Content"
      | [] => "Misc Content"
      end
  end.

(** The text a hashtag contributes to the corpus. *)
Definition corpus_text (h : Hashtag) : string :=
  PyStr.replace_char "-" " "
    (PyStr.replace_char "_" " " (PyStr.remove_char "#" (PyStr.lower (hashtag h)))).

Definition additional_stopwords : list string :=
  ["tiktok"; "trend"; "video"; "challenge"; "viral"; "new"; "like"; "follow"; "share";
   "hashtag"; "#"].

(** [float(np.mean(scores))] *)
Definition mean (scores : list Q) : Q :=
  foldr Qplus 0%Q scores / inject_Z (Z.of_nat (length scores)).

Definition Qltb (a b : Q) : bool := negb (Qle_bool b a).

Section TopicModeler.

(** The statistical library is outside the repository.  Its entry points
    are parameters of the stage, and every one of them may raise. *)

(** [nltk.corpus.stopwords.words('english')] *)
Variable english_stopwords : list string.

(** [CountVectorizer(stop_words, min_df, max_df).fit_transform(corpus)]
    together with [get_feature_names_out()]: the document-term matrix by
    rows and the vocabulary. *)
Variable fit_transform :
  list string -> Z -> Q -> list string -> result (list (list Z) * list string).

(** [LatentDirichletAllocation(n_components, random_state).fit(dtm)]: the
    fitted [components_], one row of term weights per topic. *)
Variable lda_fit : nat -> Z -> list (list Z) -> result (list (list Q)).

(** [lda.transform(dtm)]: one row of topic weights per document. *)
Variable lda_transform : list (list Q) -> list (list Z) -> result (list (list Q)).

(** [a.argsort()] of numpy: the indices that sort [a] in ascending order. *)
Variable argsort : list Q -> list nat.

Definition stop_words : list string := (english_stopwords ++ additional_stopwords)%list.

(** [dtm.sum()] *)
Definition dtm_sum (dtm : list (list Z)) : Z :=
  foldr Z.add 0 (map (foldr Z.add 0) dtm).

(** The members of one topic: the loop over [top_doc_indices]. *)
Definition topic_members (hashtags : list Hashtag) (topic_scores : list (list Q))
    (topic_idx : nat) (top_doc_indices : list nat) : result (list Topic.member) :=
  found ← mapM (fun doc_idx =>
             row ← index topic_scores doc_idx;
             w ← index row topic_idx;
             if Qltb 0.2 w then
               h ← index hashtags doc_idx;
               Ok [ {| Topic.hashtag := hashtag h; Topic.rank := rank h; Topic.score := w |} ]
             else Ok []) top_doc_indices;
  Ok (concat found).

(** One iteration of the loop over [enumerate(lda.components_)]: the
    topic to append, if it has member hashtags. *)
Definition extract_topic (hashtags : list Hashtag) (dtm : list (list Z))
    (feature_names : list string) (components : list (list Q))
    (topic_idx : nat) (topic : list Q) : result (list Topic.t) :=
  let top_word_indices := take 10 (rev (argsort topic)) in
  top_words ← mapM (index feature_names) top_word_indices;
  let topic_name := _generate_topic_name top_words in
  topic_scores ← lda_transform components dtm;
  column ← mapM (fun row => index row topic_idx) topic_scores;
  let top_doc_indices := take 5 (rev (argsort column)) in
  topic_hashtags ← topic_members hashtags topic_scores topic_idx top_doc_indices;
  match topic_hashtags with
  | [] => Ok []
  | _ =>
      Ok [ {| Topic.id := "topic_" +:+ pretty (topic_idx + 1)%nat;
              Topic.name := topic_name;
              Topic.keywords := take 5 top_words;
              Topic.hashtags := topic_hashtags;
              Topic.strength := mean (map Topic.score topic_hashtags) |} ]
  end.

(** The body of the [try] block. *)
Definition model_topics (hashtags : list Hashtag) (num_topics : nat)
    (corpus : list string) : result (list Topic.t) :=
  let '(min_df, max_df) :=
    if (length corpus <? 10)%nat then (1, 0.95%Q) else (2, 0.9%Q) in
  '(dtm, feature_names) ← fit_transform stop_words min_df max_df corpus;
  if dtm_sum dtm =? 0 then Ok _generate_default_topics
  else
    components ← lda_fit (Nat.min num_topics (length corpus / 2 + 1)) 42 dtm;
    found ← mapM (fun it => extract_topic hashtags dtm feature_names components (fst it) (snd it))
                  (imap (fun i topic => (i, topic)) components);
    let topics := sort_by (fun y x => Qltb (Topic.strength x) (Topic.strength y)) (concat found) in
    match topics with
    | [] => Ok _generate_default_topics
    | _ => Ok topics
    end.

(** [AITrendAnalyzer.identify_hashtag_topics] *)
Definition identify_hashtag_topics (hashtags : list Hashtag) (num_topics : nat)
  : result (list Topic.t) :=
  match hashtags with
  | [] => Ok []
  | _ =>
      let corpus := map corpus_text hashtags in
      if (length corpus <? 5)%nat then Ok _generate_default_topics
      else try_except (model_topics hashtags num_topics corpus)
                      (fun e => Ok _generate_default_topics)
  end.

End TopicModeler.

(** ** Specification predicates and scenario data *)

(** What holds of every prediction record. *)
Definition prediction_ok (p : Prediction.t) : Prop :=
  5 <= Prediction.score p <= 95
  /\ Prediction.status p = prediction_status (Prediction.score p)
  /\ spec_status (Prediction.score p) (Prediction.status p)
  /\ Prediction.longevity p = _estimate_trend_longevity (Prediction.status p)
  /\ In (Prediction.status p, Prediction.longevity p) spec_longevity.

Definition dancechallenge : Hashtag := raw_hashtag "#dancechallenge" 1 "up" 12.

Definition dancechallenge_prediction : Prediction.t :=
  {| Prediction.hashtag := "#dancechallenge";
     Prediction.current_rank := 1;
     Prediction.current_stage := "rising";
     Prediction.score := 90;
     Prediction.status := "strongly_rising";
     Prediction.longevity := "2-3 weeks" |}.


Definition some_song : Song.t :=
  {| Song.song_name := "Espresso"; Song.artist := None; Song.post_count := None;
     Song.ranking_direction := Some "down"; Song.ranking_change := Some 2;
     Song.lifecycle_stage := Some "stable" |}.



(** A hashtag text is a member of a cluster. *)
Definition member (text : string) (c : Cluster.t) : Prop :=
  In text (map fst (Cluster.items c)).

(** No hashtag is a member of two clusters. *)
Definition clusters_disjoint (clusters : list Cluster.t) : Prop :=
  forall i j c1 c2 text,
    clusters !! i = Some c1 -> clusters !! j = Some c2 ->
    member text c1 -> member text c2 -> i = j.

Definition cluster_sized (c : Cluster.t) : Prop :=
  (2 <= Cluster.size c)%nat /\ Cluster.size c = length (Cluster.items c).

(** The hashtag a cluster was started from. *)
Definition seed_text (c : Cluster.t) : option string :=
  head (map fst (Cluster.items c)).

(** The seed of the later cluster is no member of the earlier one. *)
Definition seed_fresh (earlier later : Cluster.t) : Prop :=
  forall text, seed_text later = Some text -> ~ member text earlier.

(** The loop invariant of [cluster_hashtags]: seeds are fresh, and every
    member of a cluster is recorded in [processed]. *)
Definition cluster_inv (st : list Cluster.t * gset string) : Prop :=
  ForallOrdPairs seed_fresh (fst st)
  /\ Forall (fun c => forall text, member text c -> text ∈ snd st) (fst st).

(** Three hashtags, the third containing each of the first two. *)
Definition pets : list Hashtag :=
  [ raw_hashtag "#cat" 1 "up" 3; raw_hashtag "#dog" 2 "up" 1;
    raw_hashtag "#catdog" 3 "down" 2 ].

(** A library installation that cannot fit anything: every entry point
    raises. *)
Definition failing_fit_transform (stop_words : list string) (min_df : Z) (max_df : Q)
    (corpus : list string) : result (list (list Z) * list string) :=
  Raise "ValueError: empty vocabulary".

Definition failing_lda_fit (n_components : nat) (random_state : Z) (dtm : list (list Z))
  : result (list (list Q)) := Raise "ValueError".

Definition failing_lda_transform (components : list (list Q)) (dtm : list (list Z))
  : result (list (list Q)) := Raise "NotFittedError".

Definition no_argsort (a : list Q) : list nat := [].

Definition failing_topics (hashtags : list Hashtag) : result (list Topic.t) :=
  identify_hashtag_topics [] failing_fit_transform failing_lda_fit failing_lda_transform
    no_argsort hashtags 5.

(** A small stand-in for the library: two vocabulary terms, two topics,
    and an [argsort] that sorts for real. *)
Definition toy_fit_transform (stop_words : list string) (min_df : Z) (max_df : Q)
    (corpus : list string) : result (list (list Z) * list string) :=
  Ok (map (fun text => [if PyStr.contains "cat" text then 1 else 0;
                        if PyStr.contains "dog" text then 1 else 0]) corpus,
      ["cat"; "dog"]).

Definition toy_lda_fit (n_components : nat) (random_state : Z) (dtm : list (list Z))
  : result (list (list Q)) := Ok [[0.9%Q; 0.1%Q]; [0.2%Q; 0.8%Q]].

Definition toy_lda_transform (components : list (list Q)) (dtm : list (list Z))
  : result (list (list Q)) :=
  Ok (map (fun row => match row with
                      | 1 :: _ => [0.75%Q; 0.25%Q]
                      | _ => [0.1%Q; 0.9%Q]
                      end) dtm).

Definition toy_argsort (a : list Q) : list nat :=
  map fst (sort_by (fun y x => Qltb (snd y) (snd x)) (imap (fun i v => (i, v)) a)).

(** An [argsort] that answers with an index outside every array. *)
Definition wild_argsort (a : list Q) : list nat := [7%nat].

(** The default topics, as name, strength and member hashtags. *)
Definition default_summary : list (string * Q * list Topic.member) :=
  [ ("Entertainment Content", 0.85%Q, []); ("Lifestyle Content", 0.75%Q, []);
    ("Food Content", 0.7%Q, []) ].

Definition five_tags : list Hashtag :=
  [ raw_hashtag "#cat" 1 "up" 3; raw_hashtag "#dog" 2 "up" 1;
    raw_hashtag "#catdog" 3 "down" 2; raw_hashtag "#fyp" 4 "stable" 0;
    raw_hashtag "#viral" 5 "up" 9 ].

Definition digit_chars : list ascii :=
  ["0"; "1"; "2"; "3"; "4"; "5"; "6"; "7"; "8"; "9"]%char.

(** Three hashtags with one category each, and one hashtag that carries
    two categories, as the enrichment tags them. *)
Definition three_singles : list Hashtag :=
  map enrich_hashtag
    [ raw_hashtag "#recipe" 1 "up" 2; raw_hashtag "#gym" 2 "down" 1;
      raw_hashtag "#vacation" 3 "stable" 0 ].

Definition one_double : list Hashtag :=
  map enrich_hashtag [ raw_hashtag "#foodtrip" 1 "up" 4 ].

(** ** Further specification predicates *)

(** No hashtag of the list passes the similarity test with a later one. *)
Definition no_similar_pair (hashtags : list Hashtag) : Prop :=
  ForallOrdPairs (fun a b => are_hashtags_similar a b = false) hashtags.

(** The category names of the keyword table, in table order. *)
Definition category_names : list string :=
  ["entertainment"; "lifestyle"; "food"; "family"; "travel"; "fitness"].

(** The text [categorize_hashtag] searches for keywords. *)
Definition category_text (hashtag_text : string) : string :=
  PyStr.replace_char "-" " "
    (PyStr.replace_char "_" " " (PyStr.remove_char "#" (PyStr.lower hashtag_text))).

(** Some keyword of the table occurs in the text. *)
Definition keyword_occurs (text : string) : Prop :=
  exists category keywords keyword,
    In (category, keywords) category_keywords /\ In keyword keywords
    /\ PyStr.contains keyword text = true.

(** What holds of one entry of the category analysis. *)
Definition category_stat_ok (hashtags : list Hashtag) (st : CategoryStat.t) : Prop :=
  1 <= CategoryStat.count st
  /\ (length (CategoryStat.top_hashtags st) <= 3)%nat
  /\ StronglySorted (fun a b => snd a <= snd b) (CategoryStat.top_hashtags st)
  /\ (forall entry, In entry (CategoryStat.top_hashtags st) ->
        exists h, In h hashtags /\ entry = (hashtag h, rank h)
                  /\ has_category (CategoryStat.name st) h = true).

(** ** Recommendation generator: the content strategies *)

Module Strategy.
Record t : Type := {
  topic : string;
  hashtags : list string;
  approach : string
}.
End Strategy.

(** [AITrendAnalyzer._generate_content_approach] *)
Definition _generate_content_approach (topic_name : string) (keywords : list string) : string :=
  let topic_lower := PyStr.lower topic_name in
  if PyStr.contains "dance" topic_lower || PyStr.contains "choreography" topic_lower then
    "Create short dance videos featuring simple choreography that's easy for viewers to learn and recreate."
  else if PyStr.contains "comedy" topic_lower || PyStr.contains "funny" topic_lower then
    "Develop humorous skits or situational comedy that's relatable to your audience. Focus on unexpected twists and authenticity."
  else if PyStr.contains "food" topic_lower || PyStr.contains "recipe" topic_lower then
    "Share quick recipe tutorials with visually appealing results. Focus on easy-to-make items with common ingredients."
  else if PyStr.contains "fashion" topic_lower || PyStr.contains "outfit" topic_lower then
    "Create outfit inspiration videos with styling tips. Focus on trend combinations and accessible fashion choices."
  else if PyStr.contains "beauty" topic_lower || PyStr.contains "makeup" topic_lower then
    "Film quick beauty tutorials focusing on specific techniques. Before-and-after transformations perform particularly well."
  else if PyStr.contains "lifestyle" topic_lower then
    "Share authentic day-in-the-life content or productivity hacks that resonate with your target audience."
  else if PyStr.contains "fitness" topic_lower || PyStr.contains "workout" topic_lower then
    "Demonstrate effective exercise routines that can be done in small spaces with minimal equipment."
  else
    match keywords with
    | k0 :: k1 :: _ =>
        "Create content focusing on " +:+ k0 +:+ " and " +:+ k1
        +:+ ", with an emphasis on authentic, personal experiences that viewers can relate to."
    | _ =>
        "Focus on creating authentic, personality-driven content that aligns with current trends while staying true to your unique voice."
    end.

Definition strategy_of_topic (topic : Topic.t) : Strategy.t :=
  {| Strategy.topic := Topic.name topic;
     Strategy.hashtags := map Topic.hashtag (take 3 (Topic.hashtags topic));
     Strategy.approach := _generate_content_approach (Topic.name topic) (Topic.keywords topic) |}.

(** The two strategies used when there are no topics. *)
Definition default_strategies (hashtags : list Hashtag) : list Strategy.t :=
  [ {| Strategy.topic := "Entertainment Content";
       Strategy.hashtags := match hashtags with
                            | [] => []
                            | _ => map hashtag (take 3 hashtags)
                            end;
       Strategy.approach :=
         "Create short, engaging videos featuring trending sounds with a comedic twist." |};
    {| Strategy.topic := "Tutorial Content";
       Strategy.hashtags := if (3 <? length hashtags)%nat
                            then map hashtag (take 3 (drop 3 hashtags)) else [];
       Strategy.approach :=
         "Share quick, helpful tutorials that solve common problems or teach useful skills." |} ].

(** The [content_strategies] entry of [generate_content_recommendations];
    an absent [topics] argument ([None]) is the empty list. *)
Definition content_strategies (hashtags : list Hashtag) (topics : list Topic.t)
  : list Strategy.t :=
  match topics with
  | [] => default_strategies hashtags
  | _ => map strategy_of_topic (take (Nat.min 3 (length topics)) topics)
  end.

(** What holds of every topic the modeler returns for the input list. *)
Definition topic_ok (hashtags : list Hashtag) (t : Topic.t) : Prop :=
  (length (Topic.keywords t) <= 5)%nat
  /\ (length (Topic.hashtags t) <= 5)%nat
  /\ Forall (fun m => Qltb 0.2 (Topic.score m) = true
                      /\ exists h, In h hashtags /\ Topic.hashtag m = hashtag h
                                   /\ Topic.rank m = rank h)
            (Topic.hashtags t).

(** ** Change detection ([TrendAnalyzer.have_trends_changed]) *)

(** The part of a data snapshot the change detection reads; a missing
    list is the empty list, as with [data.get(key, [])]. *)
Module Snapshot.
Record t : Type := {
  hashtags_7d : list Hashtag;
  trending_songs : list Song.t
}.
End Snapshot.

(** The file [last_run_data.json]: absent, present but not loadable (the
    [try] block raises before anything is written), or holding the
    snapshot of an earlier run. *)
Inductive LastRun : Type :=
| Absent
| Unreadable
| Stored (last_data : Snapshot.t).

(** [set(h["hashtag"] for h in data.get("hashtags_7d", [])[:5])] *)
Definition top5_hashtags (data : Snapshot.t) : gset string :=
  list_to_set (map hashtag (take 5 (Snapshot.hashtags_7d data))).

(** [set(s["song_name"] for s in data.get("trending_songs", [])[:3])] *)
Definition top3_songs (data : Snapshot.t) : gset string :=
  list_to_set (map Song.song_name (take 3 (Snapshot.trending_songs data))).

Definition hashtags_changed (last_data current_data : Snapshot.t) : bool :=
  (2 <=? size (top5_hashtags last_data ∖ top5_hashtags current_data))%nat.

Definition songs_changed (last_data current_data : Snapshot.t) : bool :=
  (1 <=? size (top3_songs last_data ∖ top3_songs current_data))%nat.

(** [have_trends_changed]: the answer and the file after the call.  The
    file is written in one place only, after the old content was loaded. *)
Definition have_trends_changed (file : LastRun) (current_data : Snapshot.t)
  : bool * LastRun :=
  match file with
  | Absent => (true, Absent)
  | Unreadable => (true, Unreadable)
  | Stored last_data =>
      (hashtags_changed last_data current_data || songs_changed last_data current_data,
       Stored current_data)
  end.

(** A series of runs, each on a new snapshot: the answers in order and
    the file at the end. *)
Fixpoint change_checks (file : LastRun) (snapshots : list Snapshot.t) : list bool * LastRun :=
  match snapshots with
  | [] => ([], file)
  | current_data :: later =>
      let '(answer, file') := have_trends_changed file current_data in
      let '(answers, final) := change_checks file' later in
      (answer :: answers, final)
  end.

(** ** Scraper metrics ([TikTokTrendScraper.calculate_hashtag_metrics]) *)

(** [d[key]]: a missing key raises [KeyError]. *)
Definition require {A : Type} (field : option A) : result A :=
  match field with
  | Some v => Ok v
  | None => Raise "KeyError"
  end.

(** [round(x, 2)] *)
Definition round2 (x : Q) : Q := inject_Z (round_half_even (x * 100)) / 100.

(** A 7-day record after the first loop: the record with its numeric
    post count and period momentum set, and the keys the loop adds. *)
Module Metrics.
Record t : Type := {
  base : Hashtag;
  growth_rate : Z;
  trend_status : string;
  period_growth_pct : option Q
}.
End Metrics.

Definition set_metrics (h : Hashtag) (numeric : PyNum) (momentum : option string) : Hashtag :=
  {| hashtag := hashtag h; rank := rank h; post_count := post_count h;
     numeric_post_count := Some numeric;
     ranking_direction := ranking_direction h; ranking_change := ranking_change h;
     categories := categories h; lifecycle_stage := lifecycle_stage h;
     period_momentum := momentum |}.

(** The trend status the 7-day loop leaves in the record; it starts from
    the default [stable]. *)
Definition trend_status_7d (h : Hashtag) : result string :=
  dir ← require (ranking_direction h);
  if String.eqb dir "up" then
    change_value ← require (ranking_change h);
    Ok (if 10 <? change_value then "rising"
        else if 5 <? change_value then "trending" else "stable")
  else if String.eqb dir "down" then
    change_value ← require (ranking_change h);
    Ok (if 10 <? change_value then "falling" else "stable")
  else Ok "stable".

(** The growth against the 30-day record, when the loop computes it. *)
Definition period_growth (numeric : PyNum) (h30 : Hashtag) : option Q :=
  if num_gtb numeric (NInt 0) then
    match numeric_post_count h30 with
    | Some numeric30 =>
        if num_gtb numeric30 (NInt 0)
        then Some (round2 ((num_val numeric - num_val numeric30) / num_val numeric30 * 100))
        else None
    | None => None
    end
  else None.

(** One iteration of the loop over [hashtags_7d]. *)
Definition metrics_7d (hashtags_30d_map : gmap string Hashtag) (h : Hashtag)
  : result Metrics.t :=
  count ← require (post_count h);
  let numeric := parse_count count in
  status ← trend_status_7d h;
  match hashtags_30d_map !! hashtag h with
  | Some h30 =>
      let momentum := if rank h <? rank h30 then "accelerating"
                      else if rank h30 <? rank h then "decelerating" else "steady" in
      Ok {| Metrics.base := set_metrics h numeric (Some momentum);
            Metrics.growth_rate := 0;
            Metrics.trend_status := status;
            Metrics.period_growth_pct := period_growth numeric h30 |}
  | None =>
      Ok {| Metrics.base := set_metrics h numeric (Some "new");
            Metrics.growth_rate := 0;
            Metrics.trend_status := status;
            Metrics.period_growth_pct := None |}
  end.

(** The trend status the 30-day loop writes, [None] when it writes none;
    this loop has no default. *)
Definition trend_status_30d (h : Hashtag) : result (option string) :=
  dir ← require (ranking_direction h);
  if String.eqb dir "up" then
    change_value ← require (ranking_change h);
    Ok (if 10 <? change_value then Some "rising"
        else if 5 <? change_value then Some "trending" else None)
  else if String.eqb dir "down" then
    change_value ← require (ranking_change h);
    Ok (if 10 <? change_value then Some "falling" else Some "stable")
  else Ok (Some "stable").

(** One iteration of the loop over [hashtags_30d]. *)
Definition metrics_30d (h : Hashtag) : result (Hashtag * option string) :=
  count ← require (post_count h);
  status ← trend_status_30d h;
  Ok (set_metrics h (parse_count count) (period_momentum h), status).

(** [calculate_hashtag_metrics]: the lookup table is built from the
    30-day records as they come in, the 7-day loop runs first. *)
Definition calculate_hashtag_metrics (hashtags_7d hashtags_30d : list Hashtag)
  : result (list Metrics.t * list (Hashtag * option string)) :=
  let hashtags_30d_map := hashtags_map hashtags_30d in
  out7 ← mapM (metrics_7d hashtags_30d_map) hashtags_7d;
  out30 ← mapM metrics_30d hashtags_30d;
  Ok (out7, out30).

(** A record as [extract_hashtags] builds it: every key is present, the
    post count may be [None]. *)
Definition scraped_hashtag (text : string) (r : Z) (count : PyVal) (dir : string) (chg : Z)
  : Hashtag :=
  {| hashtag := text; rank := r; post_count := Some count;
     numeric_post_count := None;
     ranking_direction := Some dir; ranking_change := Some chg;
     categories := None; lifecycle_stage := None; period_momentum := None |}.

(** The record has the shape [extract_hashtags] gives it. *)
Definition freshly_scraped (h : Hashtag) : Prop :=
  exists count dir chg, h = scraped_hashtag (hashtag h) (rank h) count dir chg.

(** The names under which the scraper and the analyzer file the same
    stage. *)
Definition stage_of_status (status : string) : string :=
  if String.eqb status "rising" then "rising"
  else if String.eqb status "trending" then "growing"
  else if String.eqb status "falling" then "declining"
  else "stable".

(** ** Demo metrics ([tiktok_trend_scraper.py], [calculate_trend_metrics]) *)

Module Trend.
Record t : Type := {
  name : option string;
  rank : Z;
  type : option string;
  post_count : option PyVal
}.
End Trend.

Module TrendMetrics.
Record t : Type := {
  numeric_count : PyNum;
  growth : Z;
  status : string
}.
End TrendMetrics.

(** One iteration of [calculate_trend_metrics].  [hash] is Python's
    built-in [hash] on strings, which differs from process to process. *)
Definition calculate_trend_metric (hash : string -> Z) (is_song : bool) (trend : Trend.t)
  : TrendMetrics.t :=
  let post_count := parse_count (get_or (Trend.post_count trend) (VStr "0")) in
  let growth :=
    if is_song && PyStr.contains "breakout" (get_or (Trend.type trend) EmptyString)
    then 200 + Trend.rank trend * -15 + hash (get_or (Trend.name trend) EmptyString) mod 100
    else 100 + Trend.rank trend * -3 + hash (get_or (Trend.name trend) EmptyString) mod 50 in
  let growth := Z.max 5 growth in
  {| TrendMetrics.numeric_count := post_count;
     TrendMetrics.growth := growth;
     TrendMetrics.status := if 200 <? growth then "rising"
                            else if 100 <? growth then "peaked"
                            else if 50 <? growth then "stable"
                            else "falling" |}.

(** ** Further scenario data *)

Definition empty_snapshot : Snapshot.t :=
  {| Snapshot.hashtags_7d := []; Snapshot.trending_songs := [] |}.

Definition pets_snapshot : Snapshot.t :=
  {| Snapshot.hashtags_7d := pets; Snapshot.trending_songs := [some_song] |}.

Definition fyp_snapshot : Snapshot.t :=
  {| Snapshot.hashtags_7d := [raw_hashtag "#cat" 1 "up" 3; raw_hashtag "#fyp" 2 "up" 9;
                              raw_hashtag "#catdog" 3 "down" 2];
     Snapshot.trending_songs := [some_song] |}.

Definition scraped_7d : list Hashtag :=
  [ scraped_hashtag "#cat" 1 (VStr "1.2M") "up" 12; scraped_hashtag "#dog" 2 VNone "down" 3 ].

Definition scraped_30d : list Hashtag :=
  [ scraped_hashtag "#dog" 1 (VStr "9M") "up" 2; scraped_hashtag "#cat" 4 (VStr "800K") "stable" 0 ].

(** * Properties *)

(** ** Sorting *)

Lemma insert_by_perm {A : Type} (before : A -> A -> bool) (x : A) (l : list A) :
  Permutation (insert_by before x l) (x :: l).
Proof.
  induction l as [|y l IH]; simpl; [done|].
  destruct (before y x); [|done].
  rewrite IH. apply perm_swap.
Qed.

Lemma sort_by_perm {A : Type} (before : A -> A -> bool) (l : list A) :
  Permutation (sort_by before l) l.
Proof.
  induction l as [|x l IH]; simpl; [done|].
  rewrite insert_by_perm. by constructor.
Qed.

Lemma insert_desc_sorted {A : Type} (key : A -> Z) (x : A) (l : list A) :
  StronglySorted (fun a b => key b <= key a) l ->
  StronglySorted (fun a b => key b <= key a) (insert_by (fun y x => key x <? key y) x l).
Proof.
  induction 1 as [|y l Hs IH Hy]; simpl.
  - repeat constructor.
  - destruct (Z.ltb_spec (key x) (key y)) as [Hlt|Hge].
    + constructor; [exact IH|].
      rewrite (insert_by_perm _ x l). constructor; [lia|exact Hy].
    + constructor; [by constructor|].
      constructor; [exact Hge|].
      eapply Forall_impl; [exact Hy|]. simpl. intros b Hb. lia.
Qed.

Lemma sort_desc_sorted {A : Type} (key : A -> Z) (l : list A) :
  StronglySorted (fun a b => key b <= key a) (sort_desc key l).
Proof.
  unfold sort_desc, sort_by.
  induction l as [|x l IH]; simpl; [constructor|].
  by apply insert_desc_sorted.
Qed.

Lemma sort_desc_Forall {A : Type} (key : A -> Z) (P : A -> Prop) (l : list A) :
  Forall P l -> Forall P (sort_desc key l).
Proof.
  intros H. unfold sort_desc. by rewrite sort_by_perm.
Qed.

(** ** Trend predictor *)

Lemma cap_score_range (score : Z) : 5 <= cap_score score <= 95.
Proof. unfold cap_score. lia. Qed.

(** The thresholds lie inside the cap, so the chain of comparisons gives
    the same answer before and after capping. *)
Lemma prediction_status_cap (score : Z) :
  prediction_status (cap_score score) = prediction_status score.
Proof.
  unfold prediction_status, cap_score.
  repeat match goal with
         | |- context [?a <=? ?b] => destruct (Z.leb_spec a b)
         end; try reflexivity; lia.
Qed.

Lemma prediction_status_spec (score : Z) : spec_status score (prediction_status score).
Proof.
  unfold prediction_status.
  repeat match goal with
         | |- context [?a <=? ?b] => destruct (Z.leb_spec a b)
         end; constructor; lia.
Qed.

Lemma longevity_table (score : Z) :
  In (prediction_status score, _estimate_trend_longevity (prediction_status score))
     spec_longevity.
Proof.
  unfold prediction_status.
  repeat match goal with
         | |- context [?a <=? ?b] => destruct (Z.leb_spec a b)
         end; cbn; tauto.
Qed.

Lemma predict_one_ok (m : gmap string Hashtag) (h : Hashtag) : prediction_ok (predict_one m h).
Proof.
  unfold prediction_ok, predict_one; simpl.
  split; [apply cap_score_range|].
  split; [by rewrite prediction_status_cap|].
  split; [rewrite <- prediction_status_cap; apply prediction_status_spec|].
  split; [reflexivity|apply longevity_table].
Qed.

(** C5: there is one prediction per hashtag, and every prediction of
    [predict_trend_future] has its score in
    [5,95]; its status is the one the ordered thresholds (>=70, >=60,
    <=30, <=40, else stable) give on that capped score, although the code
    compares the uncapped score; its longevity is the fixed string of
    its status. *)
Theorem prediction_score_status (hashtags_7d hashtags_30d : list Hashtag) :
  Forall prediction_ok (predict_trend_future hashtags_7d hashtags_30d)
  /\ length (predict_trend_future hashtags_7d hashtags_30d) = length hashtags_7d.
Proof.
  unfold predict_trend_future. split.
  - apply sort_desc_Forall, Forall_forall.
    intros p Hp. apply list_elem_of_In, in_map_iff in Hp as (h & <- & _).
    apply predict_one_ok.
  - unfold sort_desc. rewrite (Permutation_length (sort_by_perm _ _)).
    apply length_map.
Qed.

(** ** The dance-challenge scenario *)

Lemma hashtags_map_absent (hashtags_30d : list Hashtag) (text : string) :
  (forall h, In h hashtags_30d -> hashtag h <> text) ->
  hashtags_map hashtags_30d !! text = None.
Proof.
  unfold hashtags_map.
  assert (Hgen : forall l (m : gmap string Hashtag),
             m !! text = None -> (forall h, In h l -> hashtag h <> text) ->
             foldl (fun m h => <[hashtag h := h]> m) m l !! text = None).
  { induction l as [|h l IH]; intros m Hm Hl; simpl; [exact Hm|].
    apply IH.
    - rewrite lookup_insert_ne; [exact Hm|]. apply Hl. by left.
    - intros h' Hh'. apply Hl. by right. }
  intros H. apply Hgen; [apply lookup_empty|exact H].
Qed.

(** C7: the hashtag [#dancechallenge] with rank 1, direction up and change
    12, absent from the 30-day data, is enriched to lifecycle stage
    [rising]; its score is 50 + 20 (the capped momentum) + 15 (rising) + 5
    (novelty) = 90, its status [strongly_rising] and its longevity
    [2-3 weeks]. *)
Theorem dancechallenge_scenario (hashtags_7d hashtags_30d : list Hashtag) :
  In dancechallenge hashtags_7d ->
  (forall h, In h hashtags_30d -> hashtag h <> "#dancechallenge") ->
  let h := enrich_hashtag dancechallenge in
  let m := hashtags_map hashtags_30d in
  lifecycle_stage h = Some "rising"
  /\ direction_factor h = 20
  /\ stage_factor h = 15
  /\ momentum_factor h m = 5
  /\ volume_factor h = 0
  /\ raw_score h m = 50 + 20 + 15 + 5
  /\ predict_one m h = dancechallenge_prediction
  /\ In dancechallenge_prediction
        (predict_trend_future (map enrich_hashtag hashtags_7d) hashtags_30d).
Proof.
  intros Hin Habs h m.
  assert (Hm : momentum_factor h m = 5).
  { unfold momentum_factor, m. change (hashtag h) with "#dancechallenge".
    by rewrite hashtags_map_absent. }
  assert (Hraw : raw_score h m = 90).
  { unfold raw_score. rewrite Hm. reflexivity. }
  assert (Hone : predict_one m h = dancechallenge_prediction).
  { unfold predict_one. rewrite Hraw. reflexivity. }
  repeat split; try reflexivity; try assumption.
  unfold predict_trend_future.
  apply (Permutation_in _ (Permutation_sym (sort_by_perm _ _))).
  rewrite <- Hone. apply in_map. by apply in_map.
Qed.

Lemma dancechallenge_scenario_witness :
  In dancechallenge_prediction
     (predict_trend_future
        (map enrich_hashtag [raw_hashtag "#catlovers" 2 "down" 3; dancechallenge])
        [enrich_hashtag (raw_hashtag "#catlovers" 1 "stable" 0)]).
Proof.
  apply (dancechallenge_scenario
           [raw_hashtag "#catlovers" 2 "down" 3; dancechallenge]
           [enrich_hashtag (raw_hashtag "#catlovers" 1 "stable" 0)]).
  - simpl. right. left. reflexivity.
  - intros h [<-|[]]. simpl. discriminate.
Defined.

(** ** Emerging-trend detector *)




(** ** Recommendation generator: the fit score *)

Lemma combination_score_heuristic (h : Hashtag) (song : Song.t) (noise : Z) :
  _calculate_combination_score h song noise
  = Z.min (Z.max (heuristic_score h song + noise) 60) 95.
Proof.
  unfold _calculate_combination_score, heuristic_score.
  destruct (_ && _), (_ && _); f_equal; lia.
Qed.

Lemma heuristic_score_values (h : Hashtag) (song : Song.t) :
  heuristic_score h song = 70 \/ heuristic_score h song = 80
  \/ heuristic_score h song = 85 \/ heuristic_score h song = 95.
Proof.
  unfold heuristic_score. destruct (_ && _), (_ && _); simpl; tauto.
Qed.

(** C10: for every draw in [-5,5] the fit score lies in [65,95]; the
    lower cap at 60 never binds, the score before capping being at least
    70 - 5 = 65. *)
Theorem fit_score_range (h : Hashtag) (song : Song.t) (noise : Z) :
  randint_range noise ->
  65 <= _calculate_combination_score h song noise <= 95
  /\ 65 <= heuristic_score h song + noise
  /\ Z.max (heuristic_score h song + noise) 60 = heuristic_score h song + noise
  /\ _calculate_combination_score h song noise = Z.min (heuristic_score h song + noise) 95.
Proof.
  unfold randint_range. intros Hn.
  rewrite combination_score_heuristic.
  pose proof (heuristic_score_values h song). lia.
Qed.

Lemma fit_score_range_witness :
  65 <= _calculate_combination_score dancechallenge some_song (-5) <= 95.
Proof.
  apply (fit_score_range dancechallenge some_song (-5)).
  unfold randint_range. lia.
Defined.




(** ** Similarity clusterer *)

Lemma cluster_step_sized (hashtag1 : Hashtag) (rest : list Hashtag)
    (clusters : list Cluster.t) (processed : gset string) :
  Forall cluster_sized clusters ->
  Forall cluster_sized (fst (cluster_step hashtag1 rest (clusters, processed))).
Proof.
  intros Hc. unfold cluster_step.
  destruct (bool_decide _); [exact Hc|].
  destruct (Nat.leb_spec 2 (length (hashtag1 :: filter
              (fun hashtag2 => are_hashtags_similar hashtag1 hashtag2 = true) rest)))
    as [Hge|Hlt]; [|exact Hc].
  simpl fst. apply Forall_app. split; [exact Hc|].
  constructor; [|constructor].
  split; simpl; [exact Hge|]. by rewrite length_map.
Qed.

Lemma cluster_loop_sized (hashtags : list Hashtag) (st : list Cluster.t * gset string) :
  Forall cluster_sized (fst st) -> Forall cluster_sized (fst (cluster_loop hashtags st)).
Proof.
  revert st. induction hashtags as [|h rest IH]; intros [clusters processed] Hc; simpl.
  - exact Hc.
  - apply IH. by apply cluster_step_sized.
Qed.

(** Every cluster has at least two members, on every input. *)
Lemma cluster_sizes (hashtags : list Hashtag) :
  Forall cluster_sized (cluster_hashtags hashtags).
Proof. apply cluster_loop_sized. constructor. Qed.

Lemma ForallOrdPairs_snoc {A : Type} (R : A -> A -> Prop) (l : list A) (x : A) :
  ForallOrdPairs R l -> Forall (fun y => R y x) l -> ForallOrdPairs R (l ++ [x])%list.
Proof.
  induction 1 as [|a l Ha _ IH]; intros Hx; simpl.
  - repeat constructor.
  - inversion Hx as [|? ? Hax Hlx]; subst. constructor.
    + apply Forall_app. split; [exact Ha|]. by constructor.
    + by apply IH.
Qed.

Lemma processed_after (similar : list Hashtag) (processed : gset string) (text : string) :
  text ∈ foldl (fun p hashtag2 => {[hashtag hashtag2]} ∪ p) processed similar
  <-> text ∈ processed \/ In text (map hashtag similar).
Proof.
  revert processed. induction similar as [|h l IH]; intros processed; simpl.
  - tauto.
  - rewrite IH, elem_of_union, elem_of_singleton. intuition congruence.
Qed.

Lemma cluster_step_inv (hashtag1 : Hashtag) (rest : list Hashtag)
    (st : list Cluster.t * gset string) :
  cluster_inv st -> cluster_inv (cluster_step hashtag1 rest st).
Proof.
  destruct st as [clusters processed]. intros [Hfresh Hrec].
  unfold cluster_step.
  destruct (bool_decide (hashtag hashtag1 ∈ processed)) eqn:Hseed; [by split|].
  apply bool_decide_eq_false in Hseed.
  set (similar := filter (fun hashtag2 => are_hashtags_similar hashtag1 hashtag2 = true) rest).
  set (processed' := foldl (fun p hashtag2 => {[hashtag hashtag2]} ∪ p)
                           ({[hashtag hashtag1]} ∪ processed) similar).
  assert (Hmono : forall text, text ∈ processed -> text ∈ processed').
  { intros text Ht. apply processed_after. left. set_solver. }
  assert (Hrec' : Forall (fun c => forall text, member text c -> text ∈ processed') clusters).
  { eapply Forall_impl; [exact Hrec|]. intros c Hc text Hm. by apply Hmono, Hc. }
  destruct (2 <=? length (hashtag1 :: similar))%nat; [|by split].
  split; simpl.
  - apply ForallOrdPairs_snoc; [exact Hfresh|].
    rewrite Forall_forall in Hrec. apply Forall_forall.
    intros c Hc text Hs Hm. injection Hs as <-.
    apply Hseed. by apply (Hrec c).
  - apply Forall_app. split; [exact Hrec'|].
    constructor; [|constructor].
    intros text Hm. unfold member in Hm. simpl in Hm.
    apply processed_after. rewrite map_map in Hm. simpl in Hm.
    destruct Hm as [<-|Hm]; [left; set_solver|by right].
Qed.

Lemma cluster_loop_inv (hashtags : list Hashtag) (st : list Cluster.t * gset string) :
  cluster_inv st -> cluster_inv (cluster_loop hashtags st).
Proof.
  revert st. induction hashtags as [|h rest IH]; intros st Hst; simpl; [exact Hst|].
  by apply IH, cluster_step_inv.
Qed.

(** What the check of [processed] in the outer loop does ensure: the
    hashtag a cluster starts from is no member of an earlier cluster. *)
Lemma cluster_seeds_fresh (hashtags : list Hashtag) :
  ForallOrdPairs seed_fresh (cluster_hashtags hashtags).
Proof.
  apply (cluster_loop_inv hashtags ([], ∅)). split; constructor.
Qed.

(** C1, the code on [#cat], [#dog], [#catdog]: both clusters have two
    members, and [#catdog], already assigned to the cluster of [#cat], is
    added to the later cluster of [#dog] as well: the inner scan does not
    skip the hashtags in [processed]. *)
Theorem catdog_in_two_clusters :
  map Cluster.items (cluster_hashtags pets)
  = [ [("#cat", 1); ("#catdog", 3)]; [("#dog", 2); ("#catdog", 3)] ]
  /\ Forall (fun c => (2 <= Cluster.size c)%nat) (cluster_hashtags pets)
  /\ ~ clusters_disjoint (cluster_hashtags pets).
Proof.
  split; [vm_compute; reflexivity|].
  split.
  { eapply Forall_impl; [apply cluster_sizes|]. by intros c [H _]. }
  intros Hdis.
  destruct (cluster_hashtags pets) as [|c1 [|c2 rest]] eqn:E;
    [vm_compute in E; discriminate .. |].
  assert (H1 : member "#catdog" c1).
  { vm_compute in E. injection E as <- _. unfold member. simpl. tauto. }
  assert (H2 : member "#catdog" c2).
  { vm_compute in E. injection E as _ <- _. unfold member. simpl. tauto. }
  specialize (Hdis 0%nat 1%nat c1 c2 "#catdog" eq_refl eq_refl H1 H2). discriminate.
Qed.

(** ** Topic modeler *)

(** C2, counterexample: on the empty hashtag list the topic modeler
    returns the empty list, not the three default topics. *)
Lemma topics_of_empty_list :
  failing_topics [] = Ok [] /\ failing_topics [] <> Ok _generate_default_topics.
Proof. split; [reflexivity|discriminate]. Qed.

Section TopicModelerFacts.

Variable english_stopwords : list string.
Variable fit_transform :
  list string -> Z -> Q -> list string -> result (list (list Z) * list string).
Variable lda_fit : nat -> Z -> list (list Z) -> result (list (list Q)).
Variable lda_transform : list (list Q) -> list (list Z) -> result (list (list Q)).
Variable argsort : list Q -> list nat.

Local Abbreviation topics_of :=
  (identify_hashtag_topics english_stopwords fit_transform lda_fit lda_transform argsort).
Local Abbreviation body_of :=
  (model_topics english_stopwords fit_transform lda_fit lda_transform argsort).

(** C2, as amended: on the empty list the topic modeler returns the empty
    list; on a list of one to four hashtags it returns exactly the three
    default topics Entertainment/Lifestyle/Food with strengths 0.85, 0.75
    and 0.70 and no member hashtags, whatever the library does. *)
Theorem topics_of_short_list (hashtags : list Hashtag) (num_topics : nat) :
  (length hashtags < 5)%nat ->
  topics_of hashtags num_topics
  = Ok (match hashtags with [] => [] | _ :: _ => _generate_default_topics end)
  /\ map (fun t => (Topic.name t, Topic.strength t, Topic.hashtags t)) _generate_default_topics
     = default_summary.
Proof.
  intros Hlen. split; [|reflexivity].
  unfold identify_hashtag_topics.
  destruct hashtags as [|h hs]; [reflexivity|].
  rewrite length_map.
  destruct (Nat.ltb_spec (length (h :: hs)) 5) as [_|Hge]; [reflexivity|lia].
Qed.

(** C6: whatever the library does, the stage returns a topic list and
    never raises; when the modeling inside the [try] block raises, the
    exception is caught and the default topic set is returned. *)
Theorem topic_modeler_never_raises (hashtags : list Hashtag) (num_topics : nat) :
  (exists topics, topics_of hashtags num_topics = Ok topics)
  /\ (forall e, (5 <= length hashtags)%nat ->
                body_of hashtags num_topics (map corpus_text hashtags) = Raise e ->
                topics_of hashtags num_topics = Ok _generate_default_topics)
  /\ (forall topics, (5 <= length hashtags)%nat ->
                body_of hashtags num_topics (map corpus_text hashtags) = Ok topics ->
                topics_of hashtags num_topics = Ok topics).
Proof.
  unfold identify_hashtag_topics.
  destruct hashtags as [|h hs].
  { split; [by eexists|]. simpl. split; intros ? He; lia. }
  rewrite length_map.
  destruct (Nat.ltb_spec (length (h :: hs)) 5) as [Hlt|Hge].
  { split; [by eexists|]. split; intros ? He; lia. }
  split; [|split].
  - destruct (model_topics _ _ _ _ _ _ _ _) as [topics|e]; simpl; by eexists.
  - intros e _ ->. reflexivity.
  - intros topics _ ->. reflexivity.
Qed.

End TopicModelerFacts.

Lemma topics_of_short_list_witness :
  failing_topics [raw_hashtag "#cat" 1 "up" 3; raw_hashtag "#dog" 2 "up" 1]
  = Ok _generate_default_topics.
Proof.
  apply (topics_of_short_list [] failing_fit_transform failing_lda_fit
           failing_lda_transform no_argsort
           [raw_hashtag "#cat" 1 "up" 3; raw_hashtag "#dog" 2 "up" 1] 5).
  simpl. lia.
Defined.

Lemma topic_modeler_never_raises_witness :
  failing_topics five_tags = Ok _generate_default_topics.
Proof.
  apply (proj1 (proj2 (topic_modeler_never_raises [] failing_fit_transform failing_lda_fit
                         failing_lda_transform no_argsort five_tags 5))
               "ValueError: empty vocabulary").
  - simpl. lia.
  - reflexivity.
Defined.

(** ** Floating point *)

Lemma round_half_even_close (q : Q) :
  (Qabs (inject_Z (round_half_even q) - q) <= 1 # 2)%Q.
Proof.
  destruct q as [n d]. unfold round_half_even. cbn [Qnum Qden].
  pose proof (Z.div_mod n (Z.pos d) ltac:(lia)) as Hdm.
  pose proof (Z.mod_pos_bound n (Z.pos d) ltac:(lia)) as Hr.
  set (f := n / Z.pos d) in *. set (r := n mod Z.pos d) in *.
  apply Qabs_Qle_condition.
  unfold Qle, Qminus, Qplus, Qopp, inject_Z. cbn [Qnum Qden].
  rewrite ?Pos2Z.inj_mul.
  destruct (Z.ltb_spec (2 * r) (Z.pos d));
    [|destruct (Z.ltb_spec (Z.pos d) (2 * r)); [|destruct (Z.even f)]];
    split; nia.
Qed.

Lemma pow2_pos (e : Z) : (0 < 2 ^ e)%Q.
Proof. by apply Qpower_0_lt. Qed.

Lemma pow2_Z (e : Z) : 0 <= e -> (2 ^ e == inject_Z (2 ^ e))%Q.
Proof. intros He. by rewrite Zpower_Qpower. Qed.

Lemma log2_floor_spec (q : Q) :
  (0 < q)%Q -> (2 ^ log2_floor q <= q)%Q /\ (q < 2 ^ (log2_floor q + 1))%Q.
Proof.
  intros Hq. unfold log2_floor.
  destruct q as [n d]. cbn [Qnum Qden].
  assert (Hn : 0 < n) by (unfold Qlt in Hq; cbn in Hq; lia).
  pose proof (Z.log2_spec n Hn) as [Hn1 Hn2].
  pose proof (Z.log2_spec (Z.pos d) ltac:(lia)) as [Hd1 Hd2].
  pose proof (Z.log2_nonneg n) as Ha. pose proof (Z.log2_nonneg (Z.pos d)) as Hb.
  set (a := Z.log2 n) in *. set (b := Z.log2 (Z.pos d)) in *.
  assert (HA : 0 < 2 ^ a) by (apply Z.pow_pos_nonneg; lia).
  assert (HB : 0 < 2 ^ b) by (apply Z.pow_pos_nonneg; lia).
  rewrite Z.pow_succ_r in Hn2, Hd2 by lia.
  assert (Hlow : (2 ^ (a - b - 1) <= n # d)%Q).
  { replace (a - b - 1) with (a - (b + 1)) by lia.
    rewrite Qpower_minus by discriminate.
    rewrite !pow2_Z by lia. rewrite Z.pow_add_r by lia.
    apply Qle_shift_div_r.
    - change 0%Q with (inject_Z 0). rewrite <- Zlt_Qlt. lia.
    - unfold Qle, Qmult, inject_Z. cbn [Qnum Qden]. nia. }
  assert (Hhigh : (n # d < 2 ^ (a - b + 1))%Q).
  { replace (a - b + 1) with (a + 1 - b) by lia.
    rewrite Qpower_minus by discriminate.
    rewrite !pow2_Z by lia. rewrite Z.pow_add_r by lia.
    apply Qlt_shift_div_l.
    - change 0%Q with (inject_Z 0). rewrite <- Zlt_Qlt. lia.
    - unfold Qlt, Qmult, inject_Z. cbn [Qnum Qden]. nia. }
  destruct (Qle_bool (2 ^ (a - b)) (n # d)) eqn:E.
  - apply Qle_bool_iff in E. split; [exact E|exact Hhigh].
  - split; [exact Hlow|].
    replace (a - b - 1 + 1) with (a - b) by lia.
    apply Qnot_le_lt. intros H. apply Qle_bool_iff in H. congruence.
Qed.

Lemma log2_floor_unique (q : Q) (e : Z) :
  (2 ^ e <= q)%Q -> (q < 2 ^ (e + 1))%Q -> log2_floor q = e.
Proof.
  intros H1 H2.
  assert (Hq : (0 < q)%Q) by (eapply Qlt_le_trans; [apply (pow2_pos e)|exact H1]).
  destruct (log2_floor_spec q Hq) as [H3 H4].
  assert (Ha : log2_floor q < e + 1).
  { apply (Qpower_lt_compat_l_inv 2); [|reflexivity].
    eapply Qle_lt_trans; [exact H3|exact H2]. }
  assert (Hb : e < log2_floor q + 1).
  { apply (Qpower_lt_compat_l_inv 2); [|reflexivity].
    eapply Qle_lt_trans; [exact H1|exact H4]. }
  lia.
Qed.

Lemma round_half_even_comp (q1 q2 : Q) :
  (q1 == q2)%Q -> round_half_even q1 = round_half_even q2.
Proof.
  intros Heq. pose proof (Qfloor_comp _ _ Heq) as Hf.
  destruct q1 as [n1 d1], q2 as [n2 d2]. unfold Qeq in Heq. cbn [Qnum Qden] in Heq.
  unfold Qfloor in Hf. unfold round_half_even. cbn [Qnum Qden].
  rewrite !Z.mod_eq by lia. rewrite <- Hf.
  set (f := n1 / Z.pos d1) in *. clearbody f.
  assert (H1 : (2 * (n1 - Z.pos d1 * f) <? Z.pos d1) = (2 * (n2 - Z.pos d2 * f) <? Z.pos d2)).
  { apply eq_true_iff_eq. rewrite !Z.ltb_lt. split; intros H; nia. }
  assert (H2 : (Z.pos d1 <? 2 * (n1 - Z.pos d1 * f)) = (Z.pos d2 <? 2 * (n2 - Z.pos d2 * f))).
  { apply eq_true_iff_eq. rewrite !Z.ltb_lt. split; intros H; nia. }
  by rewrite H1, H2.
Qed.

Lemma round_half_even_int (q : Q) (z : Z) :
  (q == inject_Z z)%Q -> round_half_even q = z.
Proof.
  intros Heq. rewrite (round_half_even_comp _ _ Heq).
  unfold round_half_even, inject_Z. cbn [Qnum Qden].
  rewrite Z.div_1_r, Z.mod_1_r. reflexivity.
Qed.

Lemma round_half_even_nonneg (q : Q) : (0 <= q)%Q -> 0 <= round_half_even q.
Proof.
  intros Hq. destruct q as [n d]. unfold Qle in Hq. cbn in Hq.
  unfold round_half_even. cbn [Qnum Qden].
  assert (0 <= n / Z.pos d) by (apply Z.div_pos; lia).
  repeat match goal with |- context [if ?b then _ else _] => destruct b end; lia.
Qed.

(** Rounding preserves the order. *)
Lemma round_half_even_le_int (q : Q) (z : Z) :
  (q <= inject_Z z)%Q -> round_half_even q <= z.
Proof.
  intros Hq. destruct q as [n d]. unfold Qle, inject_Z in Hq. cbn [Qnum Qden] in Hq.
  unfold round_half_even. cbn [Qnum Qden].
  pose proof (Z.div_mod n (Z.pos d) ltac:(lia)) as Hdm.
  pose proof (Z.mod_pos_bound n (Z.pos d) ltac:(lia)) as Hr.
  set (f := n / Z.pos d) in *. set (r := n mod Z.pos d) in *.
  destruct (Z.ltb_spec (2 * r) (Z.pos d));
    [|destruct (Z.ltb_spec (Z.pos d) (2 * r)); [|destruct (Z.even f)]]; nia.
Qed.

Lemma round_half_even_ge_int (q : Q) (z : Z) :
  (inject_Z z <= q)%Q -> z <= round_half_even q.
Proof.
  intros Hq. destruct q as [n d]. unfold Qle, inject_Z in Hq. cbn [Qnum Qden] in Hq.
  unfold round_half_even. cbn [Qnum Qden].
  pose proof (Z.div_mod n (Z.pos d) ltac:(lia)) as Hdm.
  pose proof (Z.mod_pos_bound n (Z.pos d) ltac:(lia)) as Hr.
  set (f := n / Z.pos d) in *. set (r := n mod Z.pos d) in *.
  destruct (Z.ltb_spec (2 * r) (Z.pos d));
    [|destruct (Z.ltb_spec (Z.pos d) (2 * r)); [|destruct (Z.even f)]]; nia.
Qed.

Lemma float_exponent_comp (q1 q2 : Q) :
  (q1 == q2)%Q -> ~ (q1 == 0)%Q -> float_exponent q1 = float_exponent q2.
Proof.
  intros Heq Hne. unfold float_exponent. f_equal. f_equal.
  assert (Hpos : (0 < Qabs q1)%Q).
  { destruct (Qlt_le_dec 0 (Qabs q1)) as [H|H]; [exact H|].
    exfalso. apply Hne. apply Qabs_Qle_condition in H. lra. }
  destruct (log2_floor_spec _ Hpos) as [H1 H2].
  symmetry. apply log2_floor_unique; by rewrite <- Heq.
Qed.

Lemma binary64_zero (q : Q) : (q == 0)%Q -> (binary64 q == 0)%Q.
Proof.
  intros H. unfold binary64. set (e := float_exponent q). clearbody e.
  rewrite (round_half_even_int _ 0).
  - ring.
  - rewrite H. unfold Qdiv. ring.
Qed.

Lemma binary64_comp (q1 q2 : Q) : (q1 == q2)%Q -> (binary64 q1 == binary64 q2)%Q.
Proof.
  intros Heq. destruct (Qeq_dec q1 0) as [H0|Hne].
  - rewrite (binary64_zero q1 H0). rewrite Heq in H0. by rewrite (binary64_zero q2 H0).
  - unfold binary64. rewrite <- (float_exponent_comp q1 q2 Heq Hne).
    rewrite (round_half_even_comp (q1 / 2 ^ float_exponent q1) (q2 / 2 ^ float_exponent q1));
      [reflexivity|].
    unfold Qdiv. apply Qmult_comp; [exact Heq|reflexivity].
Qed.

#[global] Instance binary64_proper : Proper (Qeq ==> Qeq) binary64.
Proof. intros q1 q2. apply binary64_comp. Qed.

Lemma binary64_nonneg (q : Q) : (0 <= q)%Q -> (0 <= binary64 q)%Q.
Proof.
  intros Hq. unfold binary64. apply Qmult_le_0_compat.
  - change 0%Q with (inject_Z 0). rewrite <- Zle_Qle. apply round_half_even_nonneg.
    apply Qle_shift_div_l; [apply pow2_pos|]. lra.
  - apply Qlt_le_weak, pow2_pos.
Qed.

(** The rounding error is at most half a unit in the last place. *)
Lemma binary64_half_ulp (q : Q) :
  (Qabs (binary64 q - q) <= (1 # 2) * 2 ^ float_exponent q)%Q.
Proof.
  unfold binary64. set (e := float_exponent q).
  pose proof (pow2_pos e) as Hp.
  pose proof (round_half_even_close (q / 2 ^ e)) as H.
  set (r := inject_Z (round_half_even (q / 2 ^ e))) in *. clearbody r.
  assert (Hq : (q == q / 2 ^ e * 2 ^ e)%Q) by (field; lra).
  set (x := (q / 2 ^ e)%Q) in *. clearbody x.
  set (p := (2 ^ e)%Q) in *. clearbody p.
  rewrite Hq.
  apply Qabs_Qle_condition in H. apply Qabs_Qle_condition.
  split; nra.
Qed.

Lemma Qabs_pos_of_ne (q : Q) : ~ (q == 0)%Q -> (0 < Qabs q)%Q.
Proof.
  intros Hne. destruct (Qlt_le_dec 0 (Qabs q)) as [H|H]; [exact H|].
  exfalso. apply Hne. apply Qabs_Qle_condition in H. lra.
Qed.

(** In the normal range the error is at most [2^-53] of the value. *)
Lemma binary64_relative (q : Q) :
  (2 ^ (-1022) <= Qabs q)%Q -> (Qabs (binary64 q - q) <= Qabs q * 2 ^ (-53))%Q.
Proof.
  intros Hn.
  assert (Hpos : (0 < Qabs q)%Q).
  { eapply Qlt_le_trans; [apply (pow2_pos (-1022))|exact Hn]. }
  destruct (log2_floor_spec _ Hpos) as [H1 H2].
  assert (Hlf : -1022 <= log2_floor (Qabs q)).
  { assert (H : -1022 < log2_floor (Qabs q) + 1); [|lia].
    apply (Qpower_lt_compat_l_inv 2); [|reflexivity].
    eapply Qle_lt_trans; [exact Hn|exact H2]. }
  eapply Qle_trans; [apply binary64_half_ulp|].
  unfold float_exponent. rewrite Z.max_l by lia.
  replace (log2_floor (Qabs q) - 52) with (log2_floor (Qabs q) + -52) by lia.
  rewrite Qpower_plus by discriminate.
  assert (Hu : (2 ^ (-53) == (1 # 2) * 2 ^ (-52))%Q) by reflexivity.
  rewrite Hu.
  pose proof (pow2_pos (-52)) as Hp.
  set (p := (2 ^ (-52))%Q) in *. set (l := (2 ^ log2_floor (Qabs q))%Q) in *.
  set (a := Qabs q) in *. clearbody p l a. nra.
Qed.

(** Everywhere it is at most [2^-53] of the value plus [2^-1075]. *)
Lemma binary64_error (q : Q) :
  (Qabs (binary64 q - q) <= Qabs q * 2 ^ (-53) + 2 ^ (-1075))%Q.
Proof.
  pose proof (pow2_pos (-53)) as Hu. pose proof (pow2_pos (-1075)) as Heta.
  pose proof (Qabs_nonneg q) as Hq.
  destruct (Qeq_dec q 0) as [H0|Hne].
  { assert (Hz : (Qabs (binary64 q - q) == 0)%Q).
    { rewrite (binary64_zero q H0), H0. reflexivity. }
    rewrite Hz.
    set (u := (2 ^ (-53))%Q) in *. set (eta := (2 ^ (-1075))%Q) in *.
    set (a := Qabs q) in *. clearbody u eta a. nra. }
  destruct (Qlt_le_dec (Qabs q) (2 ^ (-1022))) as [Hsmall|Hn].
  - eapply Qle_trans; [apply binary64_half_ulp|].
    assert (He : float_exponent q = -1074).
    { unfold float_exponent. apply Z.max_r.
      pose proof (Qabs_pos_of_ne q Hne) as Hpos.
      destruct (log2_floor_spec _ Hpos) as [H1 H2].
      assert (H : log2_floor (Qabs q) < -1022); [|lia].
      apply (Qpower_lt_compat_l_inv 2); [|reflexivity].
      eapply Qle_lt_trans; [exact H1|exact Hsmall]. }
    rewrite He.
    assert (Hc : ((1 # 2) * 2 ^ (-1074) == 2 ^ (-1075))%Q) by reflexivity.
    rewrite Hc.
    set (u := (2 ^ (-53))%Q) in *. set (eta := (2 ^ (-1075))%Q) in *.
    set (a := Qabs q) in *. clearbody u eta a. nra.
  - pose proof (binary64_relative q Hn) as H.
    set (u := (2 ^ (-53))%Q) in *. set (eta := (2 ^ (-1075))%Q) in *.
    set (a := Qabs q) in *. set (b := Qabs (binary64 q - q)) in *.
    clearbody u eta a b. lra.
Qed.

(** A number [z * 2^k] with [|z| < 2^53] and [k >= -1074] is a double. *)
Lemma binary64_exact (q : Q) (z k : Z) :
  (q == inject_Z z * 2 ^ k)%Q -> - 2 ^ 53 < z < 2 ^ 53 -> -1074 <= k ->
  (binary64 q == q)%Q.
Proof.
  intros Hq Hz Hk.
  destruct (Qeq_dec q 0) as [H0|Hne].
  { rewrite (binary64_zero q H0). by symmetry. }
  pose proof (Qabs_pos_of_ne q Hne) as Hpos.
  destruct (log2_floor_spec _ Hpos) as [H1 _].
  assert (Hlt : (Qabs q < 2 ^ (53 + k))%Q).
  { rewrite Hq. rewrite Qpower_plus by discriminate.
    apply Qabs_Qlt_condition.
    pose proof (pow2_pos k) as Hp.
    assert (Hz1 : (- inject_Z (2 ^ 53) < inject_Z z)%Q).
    { rewrite <- inject_Z_opp, <- Zlt_Qlt. lia. }
    assert (Hz2 : (inject_Z z < inject_Z (2 ^ 53))%Q) by (rewrite <- Zlt_Qlt; lia).
    change (2 ^ 53)%Q with (inject_Z (2 ^ 53)).
    set (p := (2 ^ k)%Q) in *. set (x := inject_Z z) in *.
    set (c := inject_Z (2 ^ 53)) in *. clearbody p x c. split; nra. }
  assert (Hlf : log2_floor (Qabs q) < 53 + k).
  { apply (Qpower_lt_compat_l_inv 2); [|reflexivity].
    eapply Qle_lt_trans; [exact H1|exact Hlt]. }
  unfold binary64.
  assert (He : float_exponent q <= k) by (unfold float_exponent; lia).
  set (e := float_exponent q) in *. clearbody e.
  assert (Hdiv : (q / 2 ^ e == inject_Z (z * 2 ^ (k - e)))%Q).
  { rewrite Hq, inject_Z_mult, <- pow2_Z by lia.
    rewrite Qpower_minus by discriminate.
    pose proof (pow2_pos e). pose proof (pow2_pos k). field. lra. }
  rewrite (round_half_even_int _ _ Hdiv).
  rewrite Hq, inject_Z_mult, <- pow2_Z by lia.
  rewrite Qpower_minus by discriminate.
  pose proof (pow2_pos e). field. lra.
Qed.

Lemma binary64_int (q : Q) (z : Z) :
  (q == inject_Z z)%Q -> - 2 ^ 53 < z < 2 ^ 53 -> (binary64 q == inject_Z z)%Q.
Proof.
  intros Hq Hz. rewrite <- Hq. apply (binary64_exact q z 0); [|exact Hz|lia].
  rewrite Hq. change (2 ^ 0)%Q with 1%Q. ring.
Qed.

(** A double rounds to itself. *)
Lemma binary64_idem (q : Q) : (binary64 (binary64 q) == binary64 q)%Q.
Proof.
  destruct (Qeq_dec q 0) as [H0|Hne].
  { rewrite (binary64_zero q H0). by apply binary64_zero. }
  pose proof (Qabs_pos_of_ne q Hne) as Hpos.
  destruct (log2_floor_spec _ Hpos) as [_ H2].
  assert (He1 : log2_floor (Qabs q) - 52 <= float_exponent q)
    by (unfold float_exponent; lia).
  assert (He2 : -1074 <= float_exponent q) by (unfold float_exponent; lia).
  unfold binary64 at 2 3.
  set (e := float_exponent q) in *. clearbody e.
  pose proof (pow2_pos e) as Hp.
  assert (Hlt : (Qabs q < 2 ^ 53 * 2 ^ e)%Q).
  { eapply Qlt_le_trans; [exact H2|].
    rewrite <- Qpower_plus by discriminate.
    apply Qpower_le_compat_l; [lia|discriminate]. }
  apply Qabs_Qlt_condition in Hlt as [Hl1 Hl2].
  change (2 ^ 53)%Q with (inject_Z (2 ^ 53)) in Hl1, Hl2.
  assert (Hr1 : - 2 ^ 53 <= round_half_even (q / 2 ^ e)).
  { apply round_half_even_ge_int. apply Qle_shift_div_l; [exact Hp|].
    rewrite inject_Z_opp. lra. }
  assert (Hr2 : round_half_even (q / 2 ^ e) <= 2 ^ 53).
  { apply round_half_even_le_int. apply Qle_shift_div_r; [exact Hp|]. lra. }
  set (r := round_half_even (q / 2 ^ e)) in *. clearbody r.
  assert (Hcases : - 2 ^ 53 < r < 2 ^ 53 \/ r = 2 ^ 53 \/ r = - 2 ^ 53) by lia.
  destruct Hcases as [Hr|[->| ->]].
  - apply (binary64_exact _ r e); [reflexivity|exact Hr|exact He2].
  - apply (binary64_exact _ (2 ^ 52) (e + 1)); [|lia|lia].
    rewrite Qpower_plus by discriminate.
    change (2 ^ 1)%Q with 2%Q. change (inject_Z (2 ^ 53)) with (inject_Z (2 ^ 52) * 2)%Q. ring.
  - apply (binary64_exact _ (- 2 ^ 52) (e + 1)); [|lia|lia].
    rewrite Qpower_plus by discriminate.
    change (2 ^ 1)%Q with 2%Q.
    change (inject_Z (- 2 ^ 53)) with (inject_Z (- 2 ^ 52) * 2)%Q. ring.
Qed.

(** The double product of the nearest double with an integer factor is
    within [2^-51] of the exact product, in the normal range. *)
Lemma binary64_product (v : Q) (m : Z) :
  (2 ^ (-1021) <= v)%Q -> 1 <= m ->
  (Qabs (binary64 (binary64 v * inject_Z m) - v * inject_Z m)
   <= v * inject_Z m * 2 ^ (-51))%Q.
Proof.
  intros Hv Hm.
  assert (Hc1 : (2 ^ (-1021) == 2 * 2 ^ (-1022))%Q) by reflexivity.
  assert (Hc2 : (2 ^ (-51) == 4 * 2 ^ (-53))%Q) by reflexivity.
  assert (Hc3 : (2 ^ (-53) <= 1 # 2)%Q) by (vm_compute; discriminate).
  pose proof (pow2_pos (-1022)) as Hn. pose proof (pow2_pos (-53)) as Hu.
  rewrite Hc1 in Hv. rewrite Hc2.
  assert (Hvpos : (0 < v)%Q) by lra.
  assert (Habs : (Qabs v == v)%Q) by (apply Qabs_pos; lra).
  pose proof (binary64_relative v) as H1. rewrite Habs in H1.
  specialize (H1 ltac:(lra)).
  apply Qabs_Qle_condition in H1 as [H1a H1b].
  assert (Hmq : (1 <= inject_Z m)%Q).
  { change 1%Q with (inject_Z 1). by rewrite <- Zle_Qle. }
  set (a := binary64 v) in *.
  set (u := (2 ^ (-53))%Q) in *. set (eta := (2 ^ (-1022))%Q) in *.
  set (M := inject_Z m) in *.
  assert (Hvu : (0 <= v * u)%Q) by (apply Qmult_le_0_compat; lra).
  assert (Hvu2 : (v * u <= v * (1 # 2))%Q) by (apply Qmult_le_l; lra).
  assert (Ha : (v * (1 # 2) <= a)%Q) by lra.
  assert (Hy1 : (v * (1 # 2) <= a * M)%Q).
  { assert (H : (a * 1 <= a * M)%Q) by (apply Qmult_le_l; lra). lra. }
  assert (Hyabs : (Qabs (a * M) == a * M)%Q) by (apply Qabs_pos; lra).
  pose proof (binary64_relative (a * M)) as H2. rewrite Hyabs in H2.
  fold u eta in H2.
  specialize (H2 ltac:(lra)).
  apply Qabs_Qle_condition in H2 as [H2a H2b].
  set (r := binary64 (a * M)) in *.
  (* |a - v| <= v u, |r - a M| <= a M u *)
  assert (HvM : (0 <= v * M)%Q) by (apply Qmult_le_0_compat; lra).
  assert (HaM1 : (a * M <= (v + v * u) * M)%Q) by (apply Qmult_le_compat_r; lra).
  assert (HaM2 : ((v - v * u) * M <= a * M)%Q) by (apply Qmult_le_compat_r; lra).
  assert (HaMu : (a * M * u <= (v + v * u) * M * u)%Q) by (apply Qmult_le_compat_r; lra).
  assert (Huu : (v * M * u * u <= v * M * u * (1 # 2))%Q).
  { apply Qmult_le_l; [|lra].
    assert (H : (0 < v * M)%Q) by (apply Qmult_lt_0_compat; lra).
    apply Qmult_lt_0_compat; lra. }
  assert (Hx : (0 <= v * M * u)%Q).
  { apply Qmult_le_0_compat; [exact HvM|lra]. }
  clearbody a u eta M r.
  apply Qabs_Qle_condition. split.
  - assert (E1 : ((v - v * u) * M == v * M - v * M * u)%Q) by ring.
    assert (E2 : ((v + v * u) * M * u == v * M * u + v * M * u * u)%Q) by ring.
    assert (E3 : (- (v * M * (4 * u)) == - (4) * (v * M * u))%Q) by ring.
    rewrite E3. rewrite E1 in HaM2. rewrite E2 in HaMu.
    set (w := (a * M * u)%Q) in *. set (z := (a * M)%Q) in *.
    set (t := (v * M * u * u)%Q) in *. set (x := (v * M * u)%Q) in *.
    set (y := (v * M)%Q) in *. clearbody x y z w t. lra.
  - assert (E1 : ((v + v * u) * M == v * M + v * M * u)%Q) by ring.
    assert (E2 : ((v + v * u) * M * u == v * M * u + v * M * u * u)%Q) by ring.
    assert (E3 : (v * M * (4 * u) == 4 * (v * M * u))%Q) by ring.
    rewrite E3. rewrite E1 in HaM1. rewrite E2 in HaMu.
    set (w := (a * M * u)%Q) in *. set (z := (a * M)%Q) in *.
    set (t := (v * M * u * u)%Q) in *. set (x := (v * M * u)%Q) in *.
    set (y := (v * M)%Q) in *. clearbody x y z w t. lra.
Qed.

(** ** Post-count parser *)

Lemma digit_cases (c : ascii) : PyStr.is_digit c = true -> In c digit_chars.
Proof.
  destruct c as [[] [] [] [] [] [] [] []]; intros H;
    first [ discriminate H | cbn; repeat first [ left; reflexivity | right ] ].
Qed.

(** A digit is no letter, comma or dot, and [upper] leaves it alone. *)
Lemma digit_plain (c : ascii) :
  PyStr.is_digit c = true ->
  PyStr.upper_char c = c
  /\ Ascii.eqb "," c = false /\ Ascii.eqb "K" c = false
  /\ Ascii.eqb "M" c = false /\ Ascii.eqb "B" c = false /\ Ascii.eqb "." c = false.
Proof.
  intros H. apply digit_cases in H. cbn in H.
  repeat destruct H as [<-|H]; [repeat split .. | destruct H].
Qed.

Lemma upper_keeps_digits (c : ascii) :
  PyStr.is_digit (PyStr.upper_char c) = PyStr.is_digit c.
Proof. destruct c as [[] [] [] [] [] [] [] []]; reflexivity. Qed.

Lemma app_cons (c : ascii) (s t : string) : String c s +:+ t = String c (s +:+ t).
Proof. reflexivity. Qed.

Lemma app_empty (s : string) : s +:+ EmptyString = s.
Proof. induction s as [|c s IH]; [reflexivity|]. by rewrite app_cons, IH. Qed.

Lemma map_chars_app (f : ascii -> ascii) (a b : string) :
  PyStr.map_chars f (a +:+ b) = PyStr.map_chars f a +:+ PyStr.map_chars f b.
Proof.
  induction a as [|c a IH]; [reflexivity|].
  rewrite app_cons. cbn [PyStr.map_chars]. by rewrite IH, app_cons.
Qed.

Lemma remove_char_app (c : ascii) (a b : string) :
  PyStr.remove_char c (a +:+ b) = PyStr.remove_char c a +:+ PyStr.remove_char c b.
Proof.
  induction a as [|d a IH]; [reflexivity|].
  rewrite app_cons. cbn [PyStr.remove_char].
  destruct (Ascii.eqb c d); by rewrite IH, ?app_cons.
Qed.

Lemma has_char_app (c : ascii) (a b : string) :
  PyStr.has_char c (a +:+ b) = PyStr.has_char c a || PyStr.has_char c b.
Proof.
  induction a as [|d a IH]; [reflexivity|].
  rewrite app_cons. cbn [PyStr.has_char]. rewrite IH. by rewrite orb_assoc.
Qed.

Lemma remove_char_absent (c : ascii) (s : string) :
  PyStr.has_char c s = false -> PyStr.remove_char c s = s.
Proof.
  induction s as [|d s IH]; cbn [PyStr.has_char PyStr.remove_char]; [reflexivity|].
  intros H. apply orb_false_iff in H as [Hd Hs]. rewrite Hd. by rewrite IH.
Qed.

(** The digits of a numeral, written out, contain none of the letters. *)
Lemma digits_text_plain (ds : list ascii) :
  all_digits ds ->
  PyStr.upper (string_of_chars ds) = string_of_chars ds
  /\ PyStr.has_char "," (string_of_chars ds) = false
  /\ PyStr.has_char "K" (string_of_chars ds) = false
  /\ PyStr.has_char "M" (string_of_chars ds) = false
  /\ PyStr.has_char "B" (string_of_chars ds) = false.
Proof.
  unfold PyStr.upper.
  induction 1 as [|c ds Hc _ IH];
    cbn [string_of_chars foldr PyStr.map_chars PyStr.has_char]; [repeat split|].
  fold (string_of_chars ds).
  destruct IH as (IH1 & IH2 & IH3 & IH4 & IH5).
  destruct (digit_plain c Hc) as (Hu & H1 & H2 & H3 & H4 & _).
  rewrite Hu, IH1, H1, H2, H3, H4.
  repeat split; assumption.
Qed.

Lemma fraction_text_plain (fs : option (list ascii)) :
  all_digits (fraction_digits fs) ->
  PyStr.upper (fraction_text fs) = fraction_text fs
  /\ PyStr.has_char "," (fraction_text fs) = false
  /\ PyStr.has_char "K" (fraction_text fs) = false
  /\ PyStr.has_char "M" (fraction_text fs) = false
  /\ PyStr.has_char "B" (fraction_text fs) = false.
Proof.
  destruct fs as [fs|]; cbn [fraction_text fraction_digits]; [|repeat split].
  intros H. destruct (digits_text_plain fs H) as (H1 & H2 & H3 & H4 & H5).
  unfold PyStr.upper in *. cbn [PyStr.map_chars PyStr.has_char].
  rewrite H1, H2, H3, H4, H5. repeat split.
Qed.

(** Upper-casing and removing the commas leaves the digits of a grouped
    integer part. *)
Lemma grouped_normal (s : string) (ds : list ascii) :
  grouped ds s ->
  all_digits ds /\ PyStr.remove_char "," (PyStr.upper s) = string_of_chars ds.
Proof.
  unfold PyStr.upper.
  revert ds. induction s as [|c s IH]; intros ds;
    cbn [grouped PyStr.map_chars PyStr.remove_char].
  - intros ->. split; [constructor|reflexivity].
  - intros [[-> H]|(ds' & -> & Hc & H)].
    + apply IH in H as [Hd Hs]. split; [exact Hd|]. exact Hs.
    + apply IH in H as [Hd Hs]. split; [by constructor|].
      destruct (digit_plain c Hc) as (Hu & H1 & _).
      rewrite Hu. cbn [PyStr.remove_char]. rewrite H1.
      cbn [string_of_chars foldr]. fold (string_of_chars ds'). by rewrite Hs.
Qed.

Lemma span_digits_all (ds : list ascii) :
  all_digits ds -> span_digits (string_of_chars ds) = (ds, EmptyString).
Proof.
  induction 1 as [|c ds Hc _ IH]; simpl; [reflexivity|]. by rewrite Hc, IH.
Qed.

Lemma span_digits_dot (ds : list ascii) (rest : string) :
  all_digits ds ->
  span_digits (string_of_chars ds +:+ String "." rest) = (ds, String "." rest).
Proof.
  induction 1 as [|c ds Hc _ IH]; [reflexivity|].
  cbn [string_of_chars foldr]. fold (string_of_chars ds).
  rewrite app_cons. cbn [span_digits]. by rewrite Hc, IH.
Qed.

Lemma search_number_numeral (ds : list ascii) (fs : option (list ascii)) :
  ds <> [] -> all_digits ds -> all_digits (fraction_digits fs) ->
  search_number (string_of_chars ds +:+ fraction_text fs) = Some (ds, fraction_digits fs).
Proof.
  intros Hne Hds Hfs.
  destruct ds as [|d ds']; [done|].
  assert (Hd : PyStr.is_digit d = true) by (by inversion Hds).
  change (string_of_chars (d :: ds') +:+ fraction_text fs)
    with (String d (string_of_chars ds' +:+ fraction_text fs)).
  unfold search_number. rewrite Hd.
  change (String d (string_of_chars ds' +:+ fraction_text fs))
    with (string_of_chars (d :: ds') +:+ fraction_text fs).
  destruct fs as [fs|]; simpl fraction_text; simpl fraction_digits in *.
  - rewrite span_digits_dot by exact Hds.
    by rewrite span_digits_all.
  - rewrite app_empty. by rewrite span_digits_all.
Qed.

Lemma suffix_cases (c : ascii) (m : Z) :
  suffix_multiplier c = Some m ->
  (PyStr.upper_char c = "K"%char /\ m = 1000)
  \/ (PyStr.upper_char c = "M"%char /\ m = 1000000)
  \/ (PyStr.upper_char c = "B"%char /\ m = 1000000000).
Proof.
  unfold suffix_multiplier.
  destruct (Ascii.eqb_spec (PyStr.upper_char c) "K"); [intros [= <-]; tauto|].
  destruct (Ascii.eqb_spec (PyStr.upper_char c) "M"); [intros [= <-]; tauto|].
  destruct (Ascii.eqb_spec (PyStr.upper_char c) "B"); [intros [= <-]; tauto|].
  discriminate.
Qed.

Lemma parse_count_suffix (ds : list ascii) (s : string) (fs : option (list ascii))
    (c : ascii) (m : Z) :
  ds <> [] -> grouped ds s -> all_digits (fraction_digits fs) ->
  suffix_multiplier c = Some m ->
  parse_count (VStr (s +:+ fraction_text fs +:+ String c EmptyString))
  = NFloat (binary64 (float_of_match (ds, fraction_digits fs) * inject_Z m)).
Proof.
  intros Hne Hg Hfs Hc.
  apply grouped_normal in Hg as [Hds Hs].
  destruct (digits_text_plain ds Hds) as (_ & _ & D2 & D3 & D4).
  destruct (fraction_text_plain fs Hfs) as (F0 & F1 & F2 & F3 & F4).
  assert (Hnorm : forall C, Ascii.eqb "," C = false ->
            PyStr.upper_char c = C ->
            PyStr.remove_char "," (PyStr.upper (s +:+ fraction_text fs +:+ String c EmptyString))
            = string_of_chars ds +:+ fraction_text fs +:+ String C EmptyString).
  { intros C HC HcC. unfold PyStr.upper in *.
    rewrite !map_chars_app, !remove_char_app, Hs, F0.
    rewrite (remove_char_absent _ _ F1).
    cbn [PyStr.map_chars PyStr.remove_char]. by rewrite HcC, HC. }
  assert (Hpc : parse_count (VStr (s +:+ fraction_text fs +:+ String c EmptyString))
                = parse_count_str (s +:+ fraction_text fs +:+ String c EmptyString)).
  { destruct s; [destruct fs|]; reflexivity. }
  rewrite Hpc. unfold parse_count_str, strip_multiplier.
  assert (Hsearch := search_number_numeral ds fs Hne Hds Hfs).
  destruct (suffix_cases c m Hc) as [[HC ->]|[[HC ->]|[HC ->]]];
    [ rewrite (Hnorm "K"%char eq_refl HC)
    | rewrite (Hnorm "M"%char eq_refl HC)
    | rewrite (Hnorm "B"%char eq_refl HC) ];
    rewrite !has_char_app, !remove_char_app, ?D2, ?D3, ?D4, ?F2, ?F3, ?F4;
    cbn -[String.append search_number inject_Z binary64 float_of_match];
    rewrite ?(remove_char_absent _ _ D2), ?(remove_char_absent _ _ D3),
            ?(remove_char_absent _ _ D4), ?(remove_char_absent _ _ F2),
            ?(remove_char_absent _ _ F3), ?(remove_char_absent _ _ F4);
    rewrite ?app_empty; by rewrite Hsearch.
Qed.

Lemma any_digit_upper (s : string) :
  PyStr.any_char PyStr.is_digit (PyStr.upper s) = PyStr.any_char PyStr.is_digit s.
Proof.
  unfold PyStr.upper.
  induction s as [|c s IH]; cbn [PyStr.map_chars PyStr.any_char]; [reflexivity|].
  by rewrite upper_keeps_digits, IH.
Qed.

Lemma any_char_remove (p : ascii -> bool) (c : ascii) (s : string) :
  PyStr.any_char p s = false -> PyStr.any_char p (PyStr.remove_char c s) = false.
Proof.
  induction s as [|d s IH]; cbn [PyStr.remove_char PyStr.any_char]; [done|].
  intros H. apply orb_false_iff in H as [Hd Hs].
  destruct (Ascii.eqb c d); cbn [PyStr.any_char]; [by apply IH|].
  rewrite Hd. by apply IH.
Qed.

Lemma search_number_no_digit (s : string) :
  PyStr.any_char PyStr.is_digit s = false -> search_number s = None.
Proof.
  induction s as [|c s IH]; cbn [search_number PyStr.any_char]; [done|].
  intros H. apply orb_false_iff in H as [Hc Hs]. rewrite Hc. by apply IH.
Qed.

Lemma parse_count_str_no_digit (s : string) :
  PyStr.any_char PyStr.is_digit s = false -> parse_count_str s = NInt 0.
Proof.
  intros H. unfold parse_count_str, strip_multiplier.
  assert (H1 : PyStr.any_char PyStr.is_digit (PyStr.remove_char "," (PyStr.upper s)) = false).
  { apply any_char_remove. by rewrite any_digit_upper. }
  repeat match goal with
         | |- context [if PyStr.has_char ?c ?t then _ else _] => destruct (PyStr.has_char c t)
         end;
    rewrite search_number_no_digit;
    first [ reflexivity | exact H1 | by apply any_char_remove ].
Qed.

Lemma parse_count_no_digit (s : string) :
  PyStr.any_char PyStr.is_digit s = false -> parse_count (VStr s) = NInt 0.
Proof.
  intros H. destruct s as [|c s]; [reflexivity|].
  by apply parse_count_str_no_digit.
Qed.

Lemma num_eqb_refl (n : PyNum) : num_eqb n n = true.
Proof. unfold num_eqb. apply Qeq_bool_iff. reflexivity. Qed.

Lemma num_eqb_sym (a b : PyNum) : num_eqb a b = true -> num_eqb b a = true.
Proof. unfold num_eqb. rewrite !Qeq_bool_iff. intros H. by symmetry. Qed.

(** On a number the parser returns the number; a zero comes back as the
    integer [0]. *)
Lemma parse_count_number (n : PyNum) :
  num_eqb (parse_count (VNum n)) n = true
  /\ parse_count (VNum (parse_count (VNum n))) = parse_count (VNum n).
Proof.
  cbn [parse_count].
  destruct (num_eqb n (NInt 0)) eqn:E.
  - split; [by apply num_eqb_sym|reflexivity].
  - split; [apply num_eqb_refl|]. cbn [parse_count]. by rewrite E.
Qed.

Lemma parse_count_twice (x : PyVal) :
  num_eqb (parse_count (VNum (parse_count x))) (parse_count x) = true.
Proof. apply parse_count_number. Qed.

(** The digits the code reads and the number the numeral denotes. *)
Lemma digit_of_val (c : ascii) :
  PyStr.is_digit c = true -> digit_val c = digit_of c /\ 0 <= digit_of c <= 9.
Proof.
  intros H. apply digit_cases in H. cbn in H.
  repeat destruct H as [<-|H]; [split; [reflexivity|cbn; lia] .. | destruct H].
Qed.

Lemma digits_val_from (ds : list ascii) (acc : Z) :
  all_digits ds ->
  foldl (fun acc c => 10 * acc + digit_val c) acc ds
  = acc * 10 ^ Z.of_nat (length ds) + whole_value ds.
Proof.
  revert acc. induction ds as [|c ds IH]; intros acc Hds.
  - cbn [foldl length whole_value]. change (10 ^ Z.of_nat 0) with 1. lia.
  - apply Forall_cons in Hds as [Hc Hds].
    cbn [foldl length whole_value]. rewrite IH by exact Hds.
    destruct (digit_of_val c Hc) as [-> _].
    rewrite Nat2Z.inj_succ, Z.pow_succ_r by lia. ring.
Qed.

Lemma digits_val_whole (ds : list ascii) :
  all_digits ds -> digits_val ds = whole_value ds.
Proof. intros H. unfold digits_val. rewrite digits_val_from by exact H. lia. Qed.

Lemma whole_value_bounds (ds : list ascii) :
  all_digits ds -> 0 <= whole_value ds < 10 ^ Z.of_nat (length ds).
Proof.
  induction 1 as [|c ds Hc _ IH]; cbn [whole_value length].
  - change (10 ^ Z.of_nat 0) with 1. lia.
  - destruct (digit_of_val c Hc) as [_ Hd].
    rewrite Nat2Z.inj_succ, Z.pow_succ_r by lia.
    assert (0 < 10 ^ Z.of_nat (length ds)) by (apply Z.pow_pos_nonneg; lia). nia.
Qed.

Lemma pow10_pos (n : nat) : (0 < inject_Z (10 ^ Z.of_nat n))%Q.
Proof.
  change 0%Q with (inject_Z 0). rewrite <- Zlt_Qlt. apply Z.pow_pos_nonneg; lia.
Qed.

Lemma fraction_value_digits (fs : list ascii) :
  (fraction_value fs == inject_Z (whole_value fs) / inject_Z (10 ^ Z.of_nat (length fs)))%Q.
Proof.
  induction fs as [|c fs IH]; cbn [fraction_value whole_value length].
  - reflexivity.
  - rewrite IH. rewrite Nat2Z.inj_succ, Z.pow_succ_r by lia.
    rewrite inject_Z_plus, !inject_Z_mult.
    pose proof (pow10_pos (length fs)) as Hp.
    change (inject_Z 10) with 10%Q. field. lra.
Qed.

Lemma decimal_of_match_value (ds fs : list ascii) :
  all_digits ds -> all_digits fs ->
  (decimal_of_match (ds, fs) == numeral_value ds fs)%Q.
Proof.
  intros Hds Hfs. unfold decimal_of_match, numeral_value.
  rewrite (digits_val_whole ds Hds), (digits_val_whole fs Hfs).
  by rewrite fraction_value_digits.
Qed.

Lemma float_of_match_value (ds fs : list ascii) :
  all_digits ds -> all_digits fs ->
  (float_of_match (ds, fs) == binary64 (numeral_value ds fs))%Q.
Proof.
  intros Hds Hfs. unfold float_of_match.
  apply binary64_comp. by apply decimal_of_match_value.
Qed.

(** A numeral is zero or at least one unit of its last place. *)
Lemma numeral_value_cases (ds fs : list ascii) :
  all_digits ds -> all_digits fs ->
  (numeral_value ds fs == 0)%Q
  \/ (1 / inject_Z (10 ^ Z.of_nat (length fs)) <= numeral_value ds fs)%Q.
Proof.
  intros Hds Hfs. unfold numeral_value.
  pose proof (whole_value_bounds ds Hds) as [H1 _].
  pose proof (whole_value_bounds fs Hfs) as [H2 _].
  pose proof (pow10_pos (length fs)) as Hp.
  rewrite fraction_value_digits.
  set (P := inject_Z (10 ^ Z.of_nat (length fs))) in *.
  assert (Hcases : (whole_value ds = 0 /\ whole_value fs = 0)
                   \/ 1 <= whole_value ds \/ 1 <= whole_value fs) by lia.
  destruct Hcases as [[-> ->]|[Hw|Hw]].
  - left. unfold Qdiv. change (inject_Z 0) with 0%Q. ring.
  - right. rewrite Zle_Qle in Hw, H2. change (inject_Z 1) with 1%Q in Hw.
    change (inject_Z 0) with 0%Q in H2.
    assert (Hone : (1 / P <= 1)%Q).
    { apply Qle_shift_div_r; [exact Hp|].
      assert (1 <= 10 ^ Z.of_nat (length fs)) by (apply Z.lt_pred_le, Z.pow_pos_nonneg; lia).
      unfold P. change 1%Q with (inject_Z 1) at 1. rewrite Qmult_1_l, <- Zle_Qle. lia. }
    assert (Hfr : (0 <= inject_Z (whole_value fs) / P)%Q).
    { apply Qle_shift_div_l; [exact Hp|]. lra. }
    set (x := inject_Z (whole_value ds)) in *. set (y := (inject_Z (whole_value fs) / P)%Q) in *.
    set (z := (1 / P)%Q) in *. clearbody x y z. lra.
  - right. rewrite Zle_Qle in Hw, H1. change (inject_Z 1) with 1%Q in Hw.
    change (inject_Z 0) with 0%Q in H1.
    assert (Hfr : (1 / P <= inject_Z (whole_value fs) / P)%Q).
    { unfold Qdiv. apply Qmult_le_compat_r; [exact Hw|].
      apply Qinv_le_0_compat. lra. }
    set (x := inject_Z (whole_value ds)) in *. set (y := (inject_Z (whole_value fs) / P)%Q) in *.
    set (z := (1 / P)%Q) in *. clearbody x y z. lra.
Qed.

Lemma numeral_value_nonneg (ds fs : list ascii) :
  all_digits ds -> all_digits fs -> (0 <= numeral_value ds fs)%Q.
Proof.
  intros Hds Hfs.
  destruct (numeral_value_cases ds fs Hds Hfs) as [H|H]; [rewrite H; discriminate|].
  pose proof (pow10_pos (length fs)) as Hp.
  assert (Hz : (0 <= 1 / inject_Z (10 ^ Z.of_nat (length fs)))%Q).
  { apply Qle_shift_div_l; [exact Hp|]. lra. }
  lra.
Qed.

(** With at most 290 digits after the point a numeral that is not zero
    lies in the normal range of the doubles. *)
Lemma numeral_value_normal (ds fs : list ascii) :
  all_digits ds -> all_digits fs -> (length fs <= 290)%nat ->
  (numeral_value ds fs == 0)%Q \/ (2 ^ (-1021) <= numeral_value ds fs)%Q.
Proof.
  intros Hds Hfs Hlen.
  destruct (numeral_value_cases ds fs Hds Hfs) as [H|H]; [by left|right].
  eapply Qle_trans; [|exact H].
  pose proof (pow10_pos (length fs)) as Hp.
  apply Qle_shift_div_l; [exact Hp|].
  assert (Hpow : 10 ^ Z.of_nat (length fs) <= 10 ^ 290).
  { apply Z.pow_le_mono_r; lia. }
  rewrite Zle_Qle in Hpow.
  assert (Hc : (2 ^ (-1021) * inject_Z (10 ^ 290) <= 1)%Q) by (vm_compute; discriminate).
  pose proof (pow2_pos (-1021)) as Hu.
  set (u := (2 ^ (-1021))%Q) in *. set (P := inject_Z (10 ^ Z.of_nat (length fs))) in *.
  set (T := inject_Z (10 ^ 290)) in *. clearbody u P T.
  assert (u * P <= u * T)%Q by (apply Qmult_le_l; lra). lra.
Qed.

(** The digits [pretty] prints for a number denote that number. *)
Lemma pretty_N_char_digit (r : N) :
  (r < 10)%N ->
  PyStr.is_digit (pretty_N_char r) = true /\ digit_of (pretty_N_char r) = Z.of_N r.
Proof.
  intros Hr.
  assert (Hcases : (r = 0 \/ r = 1 \/ r = 2 \/ r = 3 \/ r = 4 \/ r = 5 \/ r = 6 \/ r = 7
                    \/ r = 8 \/ r = 9)%N) by lia.
  repeat destruct Hcases as [->|Hcases]; [split; reflexivity .. |].
  subst r. split; reflexivity.
Qed.

Lemma pretty_N_go_value (x : N) (s : string) :
  all_digits (list_ascii_of_string s) ->
  all_digits (list_ascii_of_string (pretty_N_go x s))
  /\ whole_value (list_ascii_of_string (pretty_N_go x s))
     = Z.of_N x * 10 ^ Z.of_nat (length (list_ascii_of_string s))
       + whole_value (list_ascii_of_string s).
Proof.
  revert s. induction (N.lt_wf_0 x) as [x _ IH]. intros s Hs.
  destruct (N.eq_dec x 0%N) as [->|Hx].
  - rewrite pretty_N_go_0. split; [exact Hs|lia].
  - rewrite pretty_N_go_step by lia.
    destruct (pretty_N_char_digit (x mod 10)%N) as [Hd Hv]; [apply N.mod_lt; lia|].
    destruct (IH (x / 10)%N ltac:(apply N.div_lt; lia)
                 (String (pretty_N_char (x mod 10)%N) s)) as [IH1 IH2].
    { cbn [list_ascii_of_string]. by constructor. }
    split; [exact IH1|]. rewrite IH2.
    cbn [list_ascii_of_string length whole_value]. rewrite Hv.
    rewrite Nat2Z.inj_succ, Z.pow_succ_r by lia.
    pose proof (N.div_mod x 10%N ltac:(lia)) as Hdm.
    assert (Hz : Z.of_N x = 10 * Z.of_N (x / 10)%N + Z.of_N (x mod 10)%N) by lia.
    rewrite Hz. ring.
Qed.

Lemma pretty_N_value (n : N) :
  all_digits (list_ascii_of_string (pretty n))
  /\ whole_value (list_ascii_of_string (pretty n)) = Z.of_N n
  /\ list_ascii_of_string (pretty n) <> [].
Proof.
  unfold pretty, pretty_N. destruct (decide (n = 0%N)) as [->|Hn].
  - split; [repeat constructor|]. split; [reflexivity|discriminate].
  - destruct (pretty_N_go_value n EmptyString) as [H1 H2]; [constructor|].
    split; [exact H1|]. split.
    + rewrite H2. cbn [list_ascii_of_string length whole_value].
      change (10 ^ Z.of_nat 0) with 1. lia.
    + intros Hnil. rewrite Hnil in H2. cbn in H2. lia.
Qed.

(** A count with a suffix letter: the value the parser returns. *)
Lemma parse_count_suffix_value (ds : list ascii) (s : string) (fs : option (list ascii))
    (c : ascii) (m : Z) :
  ds <> [] -> grouped ds s -> all_digits (fraction_digits fs) ->
  suffix_multiplier c = Some m ->
  let value := numeral_value ds (fraction_digits fs) in
  exists q,
    parse_count (VStr (s +:+ fraction_text fs +:+ String c EmptyString)) = NFloat q
    /\ (q == binary64 (binary64 value * inject_Z m))%Q
    /\ ((fraction_value (fraction_digits fs) == 0)%Q -> whole_value ds * m < 2 ^ 53 ->
        (q == inject_Z (whole_value ds * m))%Q)
    /\ ((length (fraction_digits fs) <= 290)%nat ->
        (Qabs (q - value * inject_Z m) <= value * inject_Z m * 2 ^ (-51))%Q).
Proof.
  intros Hne Hg Hfs Hc value.
  pose proof (parse_count_suffix ds s fs c m Hne Hg Hfs Hc) as Hp.
  apply grouped_normal in Hg as [Hds _].
  assert (Hm : 1 <= m) by (destruct (suffix_cases c m Hc) as [[_ ->]|[[_ ->]|[_ ->]]]; lia).
  assert (Hq : (binary64 (float_of_match (ds, fraction_digits fs) * inject_Z m)
                == binary64 (binary64 value * inject_Z m))%Q).
  { apply binary64_comp. apply Qmult_comp; [|reflexivity].
    by apply float_of_match_value. }
  eexists. split; [exact Hp|]. split; [exact Hq|]. rewrite Hq. clear Hp Hq. split.
  - intros Hfrac Hbound.
    pose proof (whole_value_bounds ds Hds) as [Hw _].
    assert (Hv : (value == inject_Z (whole_value ds))%Q).
    { unfold value, numeral_value. rewrite Hfrac. ring. }
    assert (Hw2 : whole_value ds <= whole_value ds * m) by nia.
    assert (Hb : (binary64 value == inject_Z (whole_value ds))%Q).
    { apply binary64_int; [exact Hv|lia]. }
    apply binary64_int; [|nia].
    rewrite Hb, inject_Z_mult. reflexivity.
  - intros Hlen.
    destruct (numeral_value_normal ds (fraction_digits fs) Hds Hfs Hlen) as [H0|Hn];
      fold value in H0 || fold value in Hn.
    + assert (Hz : (binary64 (binary64 value * inject_Z m) == 0)%Q).
      { apply binary64_zero. rewrite (binary64_zero value H0). ring. }
      rewrite Hz, H0.
      assert (E1 : (0 - 0 * inject_Z m == 0)%Q) by ring.
      assert (E2 : (0 * inject_Z m * 2 ^ (-51) == 0)%Q) by ring.
      rewrite E1, E2. discriminate.
    + by apply binary64_product.
Qed.

(** C8, counterexample: the parser reads the first run of digits of the
    text, so a point or a sign in front of the digits is skipped: [".5K"]
    parses to 5000 and not to 0.5 times 1000, and ["-5K"] parses to 5000
    and not to -5 times 1000. *)
Lemma parse_count_skips_point_and_sign :
  (num_val (parse_count (VStr ".5K")) == 5000)%Q
  /\ ~ (num_val (parse_count (VStr ".5K")) == (5 # 10) * 1000)%Q
  /\ (num_val (parse_count (VStr "-5K")) == 5000)%Q
  /\ ~ (num_val (parse_count (VStr "-5K")) == (-5) * 1000)%Q.
Proof.
  split; [vm_compute; reflexivity|].
  split; [intros H; vm_compute in H; discriminate|].
  split; [vm_compute; reflexivity|].
  intros H; vm_compute in H; discriminate.
Qed.

(** C8, as amended: a count written as a numeral that starts with a
    digit (digits, commas allowed between them, an optional fraction) and
    a suffix letter k/m/b in either case parses to a float, the double
    product of the double nearest to the numeral and 1e3/1e6/1e9.  For a
    whole number this is exactly the number times the multiplier, as long
    as the product is below 2^53; otherwise it is the number times the
    multiplier up to a relative error of 2^-51.  In particular the count
    printed in decimal for a number [n] parses to [n] times the
    multiplier.  [None] and a string without a digit parse to 0; on a
    number the parser returns that number, and parsing the result of a
    parse gives the same value again. *)
Theorem parse_count_spec :
  (forall ds s fs c m,
      ds <> [] -> grouped ds s -> all_digits (fraction_digits fs) ->
      suffix_multiplier c = Some m ->
      (length ds <= 290)%nat ->
      let value := numeral_value ds (fraction_digits fs) in
      exists q,
        parse_count (VStr (s +:+ fraction_text fs +:+ String c EmptyString)) = NFloat q
        /\ (q == binary64 (binary64 value * inject_Z m))%Q
        /\ ((fraction_value (fraction_digits fs) == 0)%Q -> whole_value ds * m < 2 ^ 53 ->
            (q == inject_Z (whole_value ds * m))%Q)
        /\ ((length (fraction_digits fs) <= 290)%nat ->
            (Qabs (q - value * inject_Z m) <= value * inject_Z m * 2 ^ (-51))%Q))
  /\ (forall (n : N) s c m,
      grouped (list_ascii_of_string (pretty n)) s -> suffix_multiplier c = Some m ->
      Z.of_N n * m < 2 ^ 53 ->
      exists q,
        parse_count (VStr (s +:+ String c EmptyString)) = NFloat q
        /\ (q == inject_Z (Z.of_N n * m))%Q)
  /\ (forall c, suffix_multiplier c
                = if bool_decide (c = "k" \/ c = "K")%char then Some 1000
                  else if bool_decide (c = "m" \/ c = "M")%char then Some 1000000
                  else if bool_decide (c = "b" \/ c = "B")%char then Some 1000000000
                  else None)
  /\ parse_count VNone = NInt 0
  /\ (forall s, PyStr.any_char PyStr.is_digit s = false -> parse_count (VStr s) = NInt 0)
  /\ (forall n, num_eqb (parse_count (VNum n)) n = true
                /\ parse_count (VNum (parse_count (VNum n))) = parse_count (VNum n))
  /\ (forall x, num_eqb (parse_count (VNum (parse_count x))) (parse_count x) = true).
Proof.
  split.
  { intros ds s fs c m Hne Hg Hfs Hc _. by apply parse_count_suffix_value. }
  split.
  { intros n s c m Hg Hc Hbound.
    destruct (pretty_N_value n) as (_ & Hv & Hne).
    destruct (parse_count_suffix_value _ s None c m Hne Hg ltac:(constructor) Hc)
      as (q & Hp & _ & Hexact & _).
    exists q. split; [exact Hp|].
    rewrite <- Hv. apply Hexact; [reflexivity|]. by rewrite Hv. }
  split.
  { intros c. destruct c as [[] [] [] [] [] [] [] []]; vm_compute; reflexivity. }
  split; [reflexivity|].
  split; [exact parse_count_no_digit|].
  split; [exact parse_count_number|exact parse_count_twice].
Qed.

Lemma parse_count_spec_witness :
  (num_val (parse_count (VStr "1,234.5k")) == 1234500)%Q
  /\ (num_val (parse_count (VStr "4.1M")) == 4100000 - (1 # 2147483648))%Q.
Proof.
  split.
  - destruct (proj1 parse_count_spec ["1"; "2"; "3"; "4"]%char "1,234" (Some ["5"]%char)
                "k"%char 1000) as (q & Hp & Hq & _).
    + discriminate.
    + cbn [grouped].
      repeat first [ reflexivity
                   | left; split; [reflexivity|]
                   | right; eexists; split; [reflexivity|split; [reflexivity|]] ].
    + repeat constructor.
    + reflexivity.
    + cbn [length]. lia.
    + change (parse_count (VStr "1,234.5k") = NFloat q) in Hp.
      rewrite Hp. cbn [num_val]. rewrite Hq. vm_compute. reflexivity.
  - destruct (proj1 parse_count_spec ["4"]%char "4" (Some ["1"]%char)
                "M"%char 1000000) as (q & Hp & Hq & _).
    + discriminate.
    + cbn [grouped]. right. eexists. split; [reflexivity|]. split; reflexivity.
    + repeat constructor.
    + reflexivity.
    + cbn [length]. lia.
    + change (parse_count (VStr "4.1M") = NFloat q) in Hp.
      rewrite Hp. cbn [num_val]. rewrite Hq. vm_compute. reflexivity.
Defined.

Example parse_count_examples :
  num_eqb (parse_count (VStr "1.2M")) (NInt 1200000) = true
  /\ num_eqb (parse_count (VStr "1,234.5k")) (NInt 1234500) = true
  /\ num_eqb (parse_count (VStr "3b")) (NInt 3000000000) = true
  /\ num_eqb (parse_count (VStr "12,345")) (NInt 12345) = true
  /\ num_eqb (parse_count (VStr "4.1M")) (NFloat (8804682956799999 # 2147483648)) = true
  /\ num_eqb (parse_count (VStr "4.1M")) (NInt 4100000) = false
  /\ num_eqb (parse_count (VStr "1.005K")) (NFloat (8840073487319039 # 8796093022208)) = true
  /\ parse_count (VStr "N/A") = NInt 0
  /\ parse_count (VNum (NFloat 0.0)) = NInt 0.
Proof. repeat split; vm_compute; reflexivity. Qed.

(** ** Category analyzer *)

(** Rounding to one decimal moves a value by at most 0.05. *)
Lemma round1_close (x : Q) : (Qabs (round1 x - x) <= 1 # 20)%Q.
Proof.
  pose proof (round_half_even_close (x * 10)) as H.
  apply Qabs_Qle_condition in H. apply Qabs_Qle_condition.
  unfold round1.
  set (t := inject_Z (round_half_even (x * 10))) in *. clearbody t.
  unfold Qdiv. change (/ 10)%Q with (1 # 10)%Q. lra.
Qed.

Lemma qsum_perm (l l' : list Q) : Permutation l l' -> (qsum l == qsum l')%Q.
Proof.
  induction 1 as [|x l l' _ IH|x y l|l l' l'' _ IH1 _ IH2]; cbn [qsum foldr].
  - reflexivity.
  - fold (qsum l) (qsum l'). by rewrite IH.
  - ring.
  - by rewrite IH1.
Qed.

Lemma qsum_shares (T : Q) (cs : list Z) :
  (qsum (map (fun c => inject_Z c / T * 100) cs) == inject_Z (foldr Z.add 0%Z cs) / T * 100)%Q.
Proof.
  induction cs as [|c cs IH]; cbn [map qsum foldr].
  - unfold Qdiv. ring.
  - fold (qsum (map (fun c => (inject_Z c / T * 100)%Q) cs)).
    rewrite IH, inject_Z_plus. unfold Qdiv. ring.
Qed.

Lemma total_of_incr (k : string) (d : list (string * Z)) :
  total_of (incr k d) = total_of d + 1.
Proof.
  unfold total_of.
  induction d as [|[k' n] d IH]; cbn [incr map foldr snd]; [reflexivity|].
  destruct (String.eqb k k'); cbn [map foldr snd]; lia.
Qed.

(** The counts add up to the number of tag assignments. *)
Lemma total_of_count_all (keys : list string) :
  total_of (count_all keys) = Z.of_nat (length keys).
Proof.
  unfold count_all.
  assert (Hgen : forall d, total_of (foldl (fun d k => incr k d) d keys)
                         = total_of d + Z.of_nat (length keys)).
  { induction keys as [|k keys IH]; intros d; cbn [foldl length]; [lia|].
    rewrite IH, total_of_incr. lia. }
  rewrite Hgen. reflexivity.
Qed.

(** Counting keeps one entry per key, each with a positive count. *)
Lemma incr_keys (k : string) (d : list (string * Z)) :
  NoDup (map fst d) -> Forall (fun e => 1 <= snd e) d ->
  NoDup (map fst (incr k d)) /\ Forall (fun e => 1 <= snd e) (incr k d)
  /\ (forall k', In k' (map fst (incr k d)) <-> k' = k \/ In k' (map fst d)).
Proof.
  induction d as [|[k0 n] d IH]; intros Hnd Hpos; cbn [incr].
  - split; [cbn; apply NoDup_singleton|]. split; [repeat constructor; cbn; lia|].
    intros k'. cbn. intuition congruence.
  - cbn [map fst] in Hnd. apply NoDup_cons in Hnd as [Hk0 Hnd].
    apply Forall_cons in Hpos as [Hn Hpos]. cbn [snd] in Hn.
    destruct (String.eqb_spec k k0) as [->|Hne].
    + cbn [map fst]. split; [by apply NoDup_cons|].
      split; [constructor; [cbn; lia|exact Hpos]|].
      intros k'. cbn. intuition congruence.
    + destruct (IH Hnd Hpos) as (IH1 & IH2 & IH3).
      cbn [map fst]. split.
      * apply NoDup_cons. split; [|exact IH1].
        rewrite list_elem_of_In, IH3. intros [Heq|Hin]; [congruence|].
        apply Hk0. by apply list_elem_of_In.
      * split; [constructor; [cbn; lia|exact IH2]|].
        intros k'. cbn. rewrite IH3. intuition congruence.
Qed.

Lemma count_all_keys (keys : list string) :
  NoDup (map fst (count_all keys)) /\ Forall (fun e => 1 <= snd e) (count_all keys).
Proof.
  unfold count_all.
  assert (Hgen : forall d, NoDup (map fst d) -> Forall (fun e => 1 <= snd e) d ->
            NoDup (map fst (foldl (fun d k => incr k d) d keys))
            /\ Forall (fun e => 1 <= snd e) (foldl (fun d k => incr k d) d keys)).
  { induction keys as [|k keys IH]; intros d Hnd Hpos; cbn [foldl]; [by split|].
    destruct (incr_keys k d Hnd Hpos) as (H1 & H2 & _). by apply IH. }
  apply Hgen; constructor.
Qed.

Lemma count_le_total (counts : list (string * Z)) (entry : string * Z) :
  Forall (fun e => 1 <= snd e) counts -> In entry counts -> snd entry <= total_of counts.
Proof.
  unfold total_of.
  induction 1 as [|e counts He Hc IH]; intros Hin; [destruct Hin|].
  assert (Hsum : 0 <= foldr Z.add 0 (map snd counts)).
  { clear -Hc. induction Hc as [|e' l He' _ IH]; cbn [map foldr]; lia. }
  cbn [map foldr]. destruct Hin as [->|Hin]; [lia|]. specialize (IH Hin). lia.
Qed.

(** The double [(count / total) * 100] differs from the exact share by
    less than 1e-12. *)
Lemma float_share_close (count total : Z) :
  0 <= count <= total -> 0 < total ->
  (Qabs (float_share count total - inject_Z count / inject_Z total * 100)
   <= 1 # 1000000000000)%Q.
Proof.
  intros Hc Ht. unfold float_share.
  assert (Ht' : (0 < inject_Z total)%Q).
  { change 0%Q with (inject_Z 0). by rewrite <- Zlt_Qlt. }
  assert (Hs0 : (0 <= inject_Z count / inject_Z total)%Q).
  { apply Qle_shift_div_l; [exact Ht'|]. rewrite Qmult_0_l.
    change 0%Q with (inject_Z 0). rewrite <- Zle_Qle. lia. }
  assert (Hs1 : (inject_Z count / inject_Z total <= 1)%Q).
  { apply Qle_shift_div_r; [exact Ht'|]. rewrite Qmult_1_l, <- Zle_Qle. lia. }
  set (s := (inject_Z count / inject_Z total)%Q) in *. clearbody s.
  pose proof (binary64_error s) as H1. rewrite (Qabs_pos s Hs0) in H1.
  pose proof (binary64_nonneg s Hs0) as Ha.
  set (a := binary64 s) in *. clearbody a.
  assert (Hy : (0 <= a * 100)%Q) by lra.
  pose proof (binary64_error (a * 100)) as H2. rewrite (Qabs_pos _ Hy) in H2.
  set (r := binary64 (a * 100)) in *. clearbody r.
  assert (Hu : (0 < 2 ^ (-53))%Q) by apply pow2_pos.
  assert (He : (0 < 2 ^ (-1075))%Q) by apply pow2_pos.
  assert (Heu : (2 ^ (-1075) <= 2 ^ (-53))%Q) by (apply Qpower_le_compat_l; [lia|discriminate]).
  assert (Hsmall : (302 * 2 ^ (-53) <= 1 # 1000000000000)%Q) by (vm_compute; discriminate).
  assert (Huu : (2 ^ (-53) * 2 ^ (-53) <= 2 ^ (-53) * (1 # 200))%Q).
  { apply Qmult_le_l; [exact Hu|]. vm_compute. discriminate. }
  set (u := (2 ^ (-53))%Q) in *. set (eta := (2 ^ (-1075))%Q) in *. clearbody u eta.
  assert (Hsu : (s * u <= 1 * u)%Q) by (apply Qmult_le_compat_r; lra).
  apply Qabs_Qle_condition in H1 as [H1a H1b].
  assert (Hau : (a * 100 * u <= (100 + 200 * u) * u)%Q).
  { apply Qmult_le_compat_r; lra. }
  assert (E : ((100 + 200 * u) * u == 100 * u + 200 * (u * u))%Q) by ring.
  rewrite E in Hau.
  apply Qabs_Qle_condition in H2 as [H2a H2b].
  set (su := (s * u)%Q) in *. set (yu := (a * 100 * u)%Q) in *. set (uu := (u * u)%Q) in *.
  clearbody su yu uu.
  apply Qabs_Qle_condition. split; lra.
Qed.

Lemma qsum_close {A : Type} (f g : A -> Q) (eps : Q) (l : list A) :
  Forall (fun x => (Qabs (f x - g x) <= eps)%Q) l ->
  (Qabs (qsum (map f l) - qsum (map g l)) <= inject_Z (Z.of_nat (length l)) * eps)%Q.
Proof.
  induction 1 as [|x l Hx _ IH].
  - cbn. discriminate.
  - cbn [map qsum foldr length]. fold (qsum (map f l)) (qsum (map g l)).
    rewrite Nat2Z.inj_succ. unfold Z.succ. rewrite inject_Z_plus.
    apply Qabs_Qle_condition in Hx, IH. apply Qabs_Qle_condition.
    change (inject_Z 1) with 1%Q.
    set (a := f x) in *. set (b := qsum (map f l)) in *.
    set (a' := g x) in *. set (b' := qsum (map g l)) in *.
    set (n := inject_Z (Z.of_nat (length l))) in *.
    clearbody a b a' b' n. lra.
Qed.

Lemma category_stat_share (hashtags : list Hashtag) (total : Z) (entry : string * Z) :
  exact_share total (category_stat hashtags total entry)
  = (inject_Z (snd entry) / inject_Z total * 100)%Q
  /\ CategoryStat.percentage (category_stat hashtags total entry)
     = round1 (float_share (CategoryStat.count (category_stat hashtags total entry)) total)
  /\ CategoryStat.count (category_stat hashtags total entry) = snd entry.
Proof. destruct entry as [category count]. repeat split. Qed.

(** One entry of the statistics: the percentage has one decimal and lies
    within 0.05, and the rounding error of the double share, of the exact
    share. *)
Lemma category_stat_close (hashtags : list Hashtag) (total : Z) (entry : string * Z) :
  0 <= snd entry <= total -> 0 < total ->
  let st := category_stat hashtags total entry in
  CategoryStat.percentage st = round1 (float_share (CategoryStat.count st) total)
  /\ (exists k, CategoryStat.percentage st = (inject_Z k / 10)%Q)
  /\ (Qabs (CategoryStat.percentage st - exact_share total st)
      <= (1 # 20) + (1 # 1000000000000))%Q.
Proof.
  intros Hc Ht st.
  destruct (category_stat_share hashtags total entry) as (Hshare & Hpct & Hcount).
  fold st in Hshare, Hpct, Hcount.
  split; [exact Hpct|]. split; [rewrite Hpct; by eexists|].
  rewrite Hpct, Hshare, Hcount.
  pose proof (float_share_close (snd entry) total Hc Ht) as H1.
  pose proof (round1_close (float_share (snd entry) total)) as H2.
  apply Qabs_Qle_condition in H1, H2. apply Qabs_Qle_condition.
  set (x := float_share (snd entry) total) in *.
  set (y := (inject_Z (snd entry) / inject_Z total * 100)%Q) in *.
  set (z := round1 x) in *. clearbody x y z. lra.
Qed.

(** The exact shares of the statistics before the final sort sum to 100. *)
Lemma unsorted_percentages (hashtags : list Hashtag) (counts : list (string * Z)) :
  0 < total_of counts ->
  let stats := map (category_stat hashtags (total_of counts)) counts in
  (qsum (map (exact_share (total_of counts)) stats) == 100)%Q.
Proof.
  intros Hpos stats.
  unfold stats. rewrite map_map.
  rewrite (map_ext _ (fun entry => (inject_Z (snd entry) / inject_Z (total_of counts) * 100)%Q))
    by (intros entry; apply category_stat_share).
  rewrite <- (map_map snd (fun c => (inject_Z c / inject_Z (total_of counts) * 100)%Q)).
  rewrite qsum_shares. fold (total_of counts).
  field. intros H0.
  unfold Qeq in H0. cbn in H0. lia.
Qed.

(** C3, counterexample: three hashtags of one category each are reported
    as 33.3 three times, which sums to 99.9 and not to 100.0; a hashtag
    with the two categories food and travel is reported as 50.0 twice,
    which sums to 100.0 and does not exceed it. *)
Lemma percentages_sum_counterexample :
  single_category three_singles
  /\ map CategoryStat.percentage (analyze_categories three_singles)
     = [33.3%Q; 33.3%Q; 33.3%Q]
  /\ (sum_percentages (analyze_categories three_singles) == 99.9)%Q
  /\ ~ (sum_percentages (analyze_categories three_singles) == 100)%Q
  /\ ~ single_category one_double
  /\ map CategoryStat.percentage (analyze_categories one_double) = [50.0%Q; 50.0%Q]
  /\ (sum_percentages (analyze_categories one_double) == 100)%Q
  /\ ~ (100 < sum_percentages (analyze_categories one_double))%Q.
Proof.
  split; [repeat constructor|].
  split; [vm_compute; reflexivity|].
  split; [vm_compute; reflexivity|].
  split; [intros H; vm_compute in H; discriminate|].
  split.
  { intros H. apply Forall_inv in H. vm_compute in H. lia. }
  split; [vm_compute; reflexivity|].
  split; [vm_compute; reflexivity|].
  intros H. vm_compute in H. discriminate.
Qed.

(** C3, as amended: whenever some tag is assigned, and whether or not a
    hashtag carries several categories, every percentage is the double
    [(count / total) * 100] over the tag assignments rounded to one
    decimal; it lies within 0.05 of the exact share (up to the rounding
    error of the double, below 1e-12).  The exact shares sum to 100, so
    the percentages sum to 100 up to that distance per category. *)
Theorem category_percentages (hashtags : list Hashtag) :
  0 < total_of (category_counts hashtags) ->
  let total := total_of (category_counts hashtags) in
  let stats := analyze_categories hashtags in
  total = Z.of_nat (length (concat (map (fun h => get_or (categories h) ["other"]) hashtags)))
  /\ Forall (fun st =>
        CategoryStat.percentage st = round1 (float_share (CategoryStat.count st) total)
        /\ (exists k, CategoryStat.percentage st = (inject_Z k / 10)%Q)
        /\ (Qabs (CategoryStat.percentage st - exact_share total st)
            <= (1 # 20) + (1 # 1000000000000))%Q) stats
  /\ (qsum (map (exact_share total) stats) == 100)%Q
  /\ (Qabs (sum_percentages stats - 100)
      <= inject_Z (Z.of_nat (length stats)) * ((1 # 20) + (1 # 1000000000000)))%Q.
Proof.
  intros Hpos total stats.
  split; [apply total_of_count_all|].
  destruct hashtags as [|h hs]; [vm_compute in Hpos; discriminate|].
  set (unsorted := map (category_stat (h :: hs) total) (category_counts (h :: hs))).
  assert (Hperm : Permutation stats unsorted) by apply sort_by_perm.
  pose proof (unsorted_percentages (h :: hs) (category_counts (h :: hs)) Hpos) as Hexact.
  fold total in Hexact. fold unsorted in Hexact.
  destruct (count_all_keys (concat (map (fun h => get_or (categories h) ["other"]) (h :: hs))))
    as [_ Hcounts]. fold (category_counts (h :: hs)) in Hcounts.
  assert (Hall : Forall (fun st =>
            CategoryStat.percentage st = round1 (float_share (CategoryStat.count st) total)
            /\ (exists k, CategoryStat.percentage st = (inject_Z k / 10)%Q)
            /\ (Qabs (CategoryStat.percentage st - exact_share total st)
                <= (1 # 20) + (1 # 1000000000000))%Q) stats).
  { apply sort_desc_Forall, Forall_forall. intros st Hst.
    apply list_elem_of_In, in_map_iff in Hst as (entry & <- & Hin).
    apply category_stat_close; [|exact Hpos].
    pose proof (count_le_total _ _ Hcounts Hin) as Hle.
    rewrite Forall_forall in Hcounts. apply list_elem_of_In in Hin.
    specialize (Hcounts _ Hin). fold total in Hle. cbn beta in Hcounts. lia. }
  split; [exact Hall|].
  assert (Hsum : (qsum (map (exact_share total) stats) == 100)%Q).
  { rewrite (qsum_perm _ _ (Permutation_map (exact_share total) Hperm)). exact Hexact. }
  split; [exact Hsum|].
  unfold sum_percentages. rewrite <- Hsum.
  apply qsum_close. eapply Forall_impl; [exact Hall|].
  intros st (_ & _ & H). exact H.
Qed.

Lemma category_percentages_witness :
  (Qabs (sum_percentages (analyze_categories three_singles) - 100)
   <= inject_Z (Z.of_nat (length (analyze_categories three_singles)))
      * ((1 # 20) + (1 # 1000000000000)))%Q.
Proof.
  apply (category_percentages three_singles).
  vm_compute. reflexivity.
Defined.

(** A share that is a tie in decimal: 23 of 80 tag assignments are 28.75
    percent, the double product is below that, and 28.7 is reported;
    rounding the exact share would give 28.8. *)
Example share_of_23_in_80 :
  (float_share 23 80 == 28.75 - (1 # 281474976710656))%Q
  /\ round1 (float_share 23 80) = 28.7%Q
  /\ CategoryStat.percentage (category_stat [] 80 ("food", 23)) = 28.7%Q
  /\ round1 (inject_Z 23 / inject_Z 80 * 100) = 28.8%Q.
Proof. repeat split; vm_compute; reflexivity. Qed.

(** ** Sample runs *)

Example lower_ex : PyStr.lower "#DanceChallenge" = "#dancechallenge".
Proof. reflexivity. Qed.

Example split_ex : PyStr.split "  cat  lovers club " = ["cat"; "lovers"; "club"].
Proof. reflexivity. Qed.

Example contains_ex :
  PyStr.contains "dog" "catdog" = true /\ PyStr.contains "dog" "cat" = false.
Proof. split; reflexivity. Qed.

Example categorize_ex :
  categorize_hashtag "#Food_Trip" = ["food"; "travel"]
  /\ categorize_hashtag "#fyp" = ["other"].
Proof. split; reflexivity. Qed.

(** The texts [#catlovers] and [#catlover] land in one cluster. *)
Example catlovers_cluster :
  map Cluster.items
      (cluster_hashtags [raw_hashtag "#catlovers" 1 "up" 2; raw_hashtag "#fyp" 2 "up" 1;
                         raw_hashtag "#catlover" 3 "up" 7])
  = [[("#catlovers", 1); ("#catlover", 3)]].
Proof. vm_compute. reflexivity. Qed.

(** With a library that fits, the stage names the topics, attaches the
    member hashtags above the threshold 0.2 and sorts by strength. *)
Example topic_modeler_toy_run :
  (r ← identify_hashtag_topics [] toy_fit_transform toy_lda_fit toy_lda_transform
         toy_argsort five_tags 5;
   Ok (map (fun t => (Topic.id t, Topic.name t, Topic.keywords t,
                      map Topic.hashtag (Topic.hashtags t))) r))
  = Ok [ ("topic_1", "Cat-Based Content", ["cat"; "dog"], ["#catdog"; "#cat"]);
         ("topic_2", "Dog-Based Content", ["dog"; "cat"],
          ["#viral"; "#fyp"; "#dog"; "#catdog"; "#cat"]) ].
Proof. vm_compute. reflexivity. Qed.

(** An [IndexError] in the middle of the [try] block ends in the default
    topics. *)
Example topic_modeler_index_error :
  model_topics [] toy_fit_transform toy_lda_fit toy_lda_transform wild_argsort five_tags 5
    (map corpus_text five_tags) = Raise "IndexError"
  /\ identify_hashtag_topics [] toy_fit_transform toy_lda_fit toy_lda_transform
       wild_argsort five_tags 5 = Ok _generate_default_topics.
Proof. split; vm_compute; reflexivity. Qed.

(** * Further properties of the analysis code *)

(** ** Similarity clusterer: what the loop guarantees *)

Lemma starts_with_refl (s : string) : PyStr.starts_with s s = true.
Proof.
  induction s as [|c s IH]; cbn [PyStr.starts_with]; [reflexivity|].
  by rewrite Ascii.eqb_refl, IH.
Qed.

Lemma contains_refl (s : string) : PyStr.contains s s = true.
Proof. destruct s; cbn [PyStr.contains]; by rewrite starts_with_refl. Qed.

(** X1: Every hashtag is similar to itself, and the test does not depend on
    the order of its two arguments. *)
Theorem similarity_reflexive_symmetric (hashtag1 hashtag2 : Hashtag) :
  are_hashtags_similar hashtag1 hashtag1 = true
  /\ are_hashtags_similar hashtag1 hashtag2 = are_hashtags_similar hashtag2 hashtag1.
Proof.
  unfold are_hashtags_similar. cbv zeta. split.
  - by rewrite contains_refl.
  - set (text1 := PyStr.remove_char "#" (PyStr.lower (hashtag hashtag1))).
    set (text2 := PyStr.remove_char "#" (PyStr.lower (hashtag hashtag2))).
    rewrite (orb_comm (PyStr.contains text1 text2)).
    destruct (_ || _); [reflexivity|].
    rewrite (comm_L (∩) (list_to_set (PyStr.split text1) : gset string)).
    by rewrite Nat.max_comm.
Qed.

(** The loop of [cluster_hashtags] seen from outside: a property of the
    cluster list that survives the appending of a cluster built from a
    seed and the later hashtags similar to it holds of the result. *)
Lemma cluster_loop_invariant (input : list Hashtag) (P : list Cluster.t -> Prop) :
  (forall clusters pre hashtag1 rest,
      input = (pre ++ hashtag1 :: rest)%list -> P clusters ->
      let cluster_items :=
        hashtag1 :: filter (fun hashtag2 => are_hashtags_similar hashtag1 hashtag2 = true) rest in
      (2 <= length cluster_items)%nat ->
      P (clusters ++ [make_cluster (length clusters) cluster_items])%list) ->
  forall hashtags pre st,
    input = (pre ++ hashtags)%list -> P (fst st) -> P (fst (cluster_loop hashtags st)).
Proof.
  intros Hstep. induction hashtags as [|h rest IH]; intros pre [clusters processed] Hin HP.
  - exact HP.
  - cbn [cluster_loop]. apply (IH (pre ++ [h])%list).
    + by rewrite <- app_assoc.
    + unfold cluster_step.
      destruct (bool_decide _); [exact HP|].
      destruct (Nat.leb_spec 2 (length (h :: filter
                  (fun hashtag2 => are_hashtags_similar h hashtag2 = true) rest)))
        as [Hge|Hlt]; [|exact HP].
      cbn [fst]. by apply (Hstep clusters pre h rest).
Qed.

Lemma filter_is_sublist {A : Type} (P : A -> Prop) `{forall x, Decision (P x)} (l : list A) :
  filter P l `sublist_of` l.
Proof.
  induction l as [|x l IH]; [constructor|].
  rewrite filter_cons. destruct (decide (P x)); by constructor.
Qed.

(** X2: The [i]-th cluster is named [cluster_i], has at least two items and
    reports their number as its size. *)
Theorem cluster_ids_and_sizes (hashtags : list Hashtag) (i : nat) (c : Cluster.t) :
  cluster_hashtags hashtags !! i = Some c ->
  Cluster.id c = "cluster_" +:+ pretty i
  /\ (2 <= Cluster.size c)%nat
  /\ Cluster.size c = length (Cluster.items c).
Proof.
  revert i c. unfold cluster_hashtags.
  refine (cluster_loop_invariant hashtags
            (fun clusters => forall i c, clusters !! i = Some c ->
               Cluster.id c = "cluster_" +:+ pretty i
               /\ (2 <= Cluster.size c)%nat
               /\ Cluster.size c = length (Cluster.items c))
            _ hashtags [] ([], ∅) eq_refl _); [|intros i c Hi; cbn in Hi; discriminate].
  intros clusters pre h rest _ IH cluster_items Hlen i c Hi.
  apply lookup_app_Some in Hi as [Hi|[Hge Hi]]; [by apply IH|].
  apply list_lookup_singleton_Some in Hi as [Hi <-].
  replace i with (length clusters) by lia.
  repeat split; [exact Hlen|]. cbn. by rewrite length_map.
Qed.

Lemma cluster_ids_and_sizes_witness :
  Cluster.id (make_cluster 1 [raw_hashtag "#dog" 2 "up" 1; raw_hashtag "#catdog" 3 "down" 2])
  = "cluster_" +:+ pretty 1%nat.
Proof.
  apply (cluster_ids_and_sizes pets 1
           (make_cluster 1 [raw_hashtag "#dog" 2 "up" 1; raw_hashtag "#catdog" 3 "down" 2])).
  vm_compute. reflexivity.
Defined.

(** X3: Every cluster consists of a seed followed by hashtags that pass the
    similarity test against that seed, taken from the input in input
    order; it names at most two categories and its trend strength does not
    exceed its size. *)
Theorem cluster_members_similar_to_seed (hashtags : list Hashtag) (c : Cluster.t) :
  In c (cluster_hashtags hashtags) ->
  exists seed members,
    Cluster.items c = map (fun h => (hashtag h, rank h)) (seed :: members)
    /\ Forall (fun m => are_hashtags_similar seed m = true) members
    /\ (seed :: members) `sublist_of` hashtags
    /\ (length (Cluster.categories c) <= 2)%nat
    /\ (Cluster.trend_strength c <= Cluster.size c)%nat.
Proof.
  revert c. unfold cluster_hashtags.
  refine (cluster_loop_invariant hashtags
            (fun clusters => forall c, In c clusters ->
               exists seed members,
                 Cluster.items c = map (fun h => (hashtag h, rank h)) (seed :: members)
                 /\ Forall (fun m => are_hashtags_similar seed m = true) members
                 /\ (seed :: members) `sublist_of` hashtags
                 /\ (length (Cluster.categories c) <= 2)%nat
                 /\ (Cluster.trend_strength c <= Cluster.size c)%nat)
            _ hashtags [] ([], ∅) eq_refl _); [|intros c []].
  intros clusters pre h rest Hin IH cluster_items Hlen c Hc.
  apply in_app_or in Hc as [Hc|[<-|[]]]; [by apply IH|].
  exists h, (filter (fun hashtag2 => are_hashtags_similar h hashtag2 = true) rest).
  split; [reflexivity|]. split.
  { apply Forall_forall. intros m Hm. by apply list_elem_of_filter in Hm as [Hm _]. }
  split.
  { rewrite Hin. apply sublist_inserts_l. constructor. apply filter_is_sublist. }
  split.
  { cbn [make_cluster Cluster.categories]. rewrite length_take. lia. }
  cbn [make_cluster Cluster.trend_strength Cluster.size]. apply length_filter.
Qed.

Lemma cluster_members_similar_to_seed_witness :
  exists seed members,
    Cluster.items (make_cluster 0 [raw_hashtag "#cat" 1 "up" 3; raw_hashtag "#catdog" 3 "down" 2])
    = map (fun h => (hashtag h, rank h)) (seed :: members)
    /\ Forall (fun m => are_hashtags_similar seed m = true) members
    /\ (seed :: members) `sublist_of` pets
    /\ (length (Cluster.categories
          (make_cluster 0 [raw_hashtag "#cat" 1 "up" 3; raw_hashtag "#catdog" 3 "down" 2])) <= 2)%nat
    /\ (Cluster.trend_strength
          (make_cluster 0 [raw_hashtag "#cat" 1 "up" 3; raw_hashtag "#catdog" 3 "down" 2])
        <= Cluster.size
          (make_cluster 0 [raw_hashtag "#cat" 1 "up" 3; raw_hashtag "#catdog" 3 "down" 2]))%nat.
Proof.
  apply (cluster_members_similar_to_seed pets).
  vm_compute. left. reflexivity.
Defined.

Lemma ForallOrdPairs_lookup {A : Type} (R : A -> A -> Prop) (l : list A) (i j : nat) (a b : A) :
  ForallOrdPairs R l -> (i < j)%nat -> l !! i = Some a -> l !! j = Some b -> R a b.
Proof.
  intros Hl. revert i j. induction Hl as [|x l Hx _ IH]; intros i j Hij Hi Hj.
  - cbn in Hi. discriminate.
  - destruct j as [|j]; [lia|]. destruct i as [|i]; cbn in Hi, Hj.
    + injection Hi as <-. rewrite Forall_forall in Hx. apply Hx.
      by apply list_elem_of_lookup_2 in Hj.
    + apply (IH i j); [lia|done..].
Qed.

(** X4: The hashtag a cluster starts from is no member of an earlier cluster,
    so two clusters never start from the same hashtag text. *)
Theorem cluster_seed_not_in_earlier (hashtags : list Hashtag) (i j : nat)
    (c1 c2 : Cluster.t) (text : string) :
  (i < j)%nat ->
  cluster_hashtags hashtags !! i = Some c1 ->
  cluster_hashtags hashtags !! j = Some c2 ->
  seed_text c2 = Some text ->
  ~ member text c1 /\ seed_text c1 <> Some text.
Proof.
  intros Hij Hi Hj Hseed.
  assert (Hfresh : ~ member text c1).
  { by apply (ForallOrdPairs_lookup _ _ i j c1 c2 (cluster_seeds_fresh hashtags) Hij Hi Hj). }
  split; [exact Hfresh|].
  intros Hs. apply Hfresh. unfold member, seed_text in *.
  destruct (map fst (Cluster.items c1)) as [|t l]; [discriminate|].
  injection Hs as ->. by left.
Qed.

Lemma cluster_seed_not_in_earlier_witness :
  ~ member "#dog" (make_cluster 0 [raw_hashtag "#cat" 1 "up" 3; raw_hashtag "#catdog" 3 "down" 2])
  /\ seed_text (make_cluster 0 [raw_hashtag "#cat" 1 "up" 3; raw_hashtag "#catdog" 3 "down" 2])
     <> Some "#dog".
Proof.
  apply (cluster_seed_not_in_earlier pets 0 1
           (make_cluster 0 [raw_hashtag "#cat" 1 "up" 3; raw_hashtag "#catdog" 3 "down" 2])
           (make_cluster 1 [raw_hashtag "#dog" 2 "up" 1; raw_hashtag "#catdog" 3 "down" 2])
           "#dog").
  - lia.
  - vm_compute. reflexivity.
  - vm_compute. reflexivity.
  - reflexivity.
Defined.

(** The loop only appends: the clusters found so far stay in front. *)
Lemma cluster_loop_prefix (hashtags : list Hashtag) (clusters : list Cluster.t)
    (processed : gset string) :
  exists more, fst (cluster_loop hashtags (clusters, processed)) = (clusters ++ more)%list.
Proof.
  revert clusters processed.
  induction hashtags as [|h rest IH]; intros clusters processed; cbn [cluster_loop].
  - exists []. by rewrite app_nil_r.
  - unfold cluster_step. destruct (bool_decide _); [apply IH|].
    destruct (2 <=? _)%nat; [|apply IH].
    destruct (IH (clusters ++ [make_cluster (length clusters)
                (h :: filter (fun hashtag2 => are_hashtags_similar h hashtag2 = true) rest)])%list
                (foldl (fun p hashtag2 => {[hashtag hashtag2]} ∪ p) ({[hashtag h]} ∪ processed)
                   (filter (fun hashtag2 => are_hashtags_similar h hashtag2 = true) rest)))
      as [more Hmore].
    rewrite Hmore, <- app_assoc. by eexists.
Qed.

(** X5: When a later hashtag is similar to the first one, the first cluster is
    [cluster_0], made of the first hashtag followed by all the later ones
    similar to it, in input order. *)
Theorem first_cluster_from_first_hashtag (hashtag1 : Hashtag) (rest : list Hashtag) :
  filter (fun hashtag2 => are_hashtags_similar hashtag1 hashtag2 = true) rest <> [] ->
  head (cluster_hashtags (hashtag1 :: rest))
  = Some (make_cluster 0
            (hashtag1 :: filter (fun hashtag2 => are_hashtags_similar hashtag1 hashtag2 = true)
                           rest)).
Proof.
  intros Hne. unfold cluster_hashtags. cbn [cluster_loop]. unfold cluster_step.
  rewrite bool_decide_eq_false_2 by apply not_elem_of_empty.
  destruct (filter _ rest) as [|h2 similar] eqn:E; [done|].
  cbn [length Nat.leb app].
  destruct (cluster_loop_prefix rest
              [make_cluster 0 (hashtag1 :: h2 :: similar)]
              (foldl (fun p hashtag2 => {[hashtag hashtag2]} ∪ p) ({[hashtag hashtag1]} ∪ ∅)
                 (h2 :: similar))) as [more ->].
  reflexivity.
Qed.

Lemma first_cluster_from_first_hashtag_witness :
  head (cluster_hashtags pets)
  = Some (make_cluster 0
            (raw_hashtag "#cat" 1 "up" 3
             :: filter (fun hashtag2 =>
                          are_hashtags_similar (raw_hashtag "#cat" 1 "up" 3) hashtag2 = true)
                       [raw_hashtag "#dog" 2 "up" 1; raw_hashtag "#catdog" 3 "down" 2])).
Proof.
  apply (first_cluster_from_first_hashtag (raw_hashtag "#cat" 1 "up" 3)
           [raw_hashtag "#dog" 2 "up" 1; raw_hashtag "#catdog" 3 "down" 2]).
  vm_compute. discriminate.
Defined.

Lemma same_text_similar (a b : Hashtag) :
  hashtag a = hashtag b -> are_hashtags_similar a b = true.
Proof.
  intros Heq. unfold are_hashtags_similar. cbv zeta. rewrite Heq.
  by rewrite contains_refl.
Qed.

Lemma no_clusters_loop (hashtags : list Hashtag) (processed : gset string) :
  (forall h, In h hashtags -> hashtag h ∉ processed) ->
  (fst (cluster_loop hashtags ([], processed)) = [] <-> no_similar_pair hashtags).
Proof.
  revert processed. induction hashtags as [|h rest IH]; intros processed Hp.
  - split; [constructor|reflexivity].
  - cbn [cluster_loop]. unfold cluster_step.
    rewrite bool_decide_eq_false_2 by (apply Hp; by left).
    destruct (filter (fun hashtag2 => are_hashtags_similar h hashtag2 = true) rest)
      as [|h2 similar] eqn:E.
    + cbn [length Nat.leb foldl].
      assert (Hrest : Forall (fun b => are_hashtags_similar h b = false) rest).
      { apply Forall_forall. intros b Hb.
        destruct (are_hashtags_similar h b) eqn:Hs; [|reflexivity].
        exfalso. eapply (filter_nil_not_elem_of _ rest b E); eauto. }
      rewrite IH.
      * split; [intros H; by constructor|intros H; by inversion H].
      * intros b Hb. rewrite elem_of_union, elem_of_singleton. intros [Heq|Hin].
        -- rewrite Forall_forall in Hrest.
           apply list_elem_of_In in Hb.
           specialize (Hrest b Hb). by rewrite same_text_similar in Hrest.
        -- revert Hin. apply Hp. by right.
    + cbn [length Nat.leb app].
      destruct (cluster_loop_prefix rest [make_cluster 0 (h :: h2 :: similar)]
                  (foldl (fun p hashtag2 => {[hashtag hashtag2]} ∪ p) ({[hashtag h]} ∪ processed)
                     (h2 :: similar))) as [more ->].
      split; [discriminate|].
      intros H. inversion H as [|? ? Hh _]; subst. exfalso.
      assert (Hin : h2 ∈ filter (fun hashtag2 => are_hashtags_similar h hashtag2 = true) rest)
        by (rewrite E; by left).
      apply list_elem_of_filter in Hin as [Hs Hin].
      rewrite Forall_forall in Hh. by rewrite (Hh h2 Hin) in Hs.
Qed.

(** X6: The clusterer returns no cluster exactly when no hashtag of the input
    passes the similarity test with a later one (in particular on the
    empty list and on a single hashtag). *)
Theorem no_clusters_iff_no_similar_pair (hashtags : list Hashtag) :
  cluster_hashtags hashtags = [] <-> no_similar_pair hashtags.
Proof.
  apply no_clusters_loop. intros h _. apply not_elem_of_empty.
Qed.

(** ** Enrichment: the category tags *)

Lemma sublist_map {A B : Type} (f : A -> B) (l1 l2 : list A) :
  l1 `sublist_of` l2 -> map f l1 `sublist_of` map f l2.
Proof. induction 1; cbn [map]; by constructor. Qed.

Lemma category_keywords_functional (category : string) (keywords1 keywords2 : list string) :
  In (category, keywords1) category_keywords -> In (category, keywords2) category_keywords ->
  keywords1 = keywords2.
Proof.
  unfold category_keywords. cbn [In]. intros H1 H2.
  repeat match goal with
         | H : _ \/ _ |- _ => destruct H
         | H : False |- _ => destruct H
         end; congruence.
Qed.

(** X7: [categorize_hashtag] never returns an empty list: it returns
    [["other"]] exactly when no keyword of the table occurs in the cleaned
    text, and otherwise the matching category names, each once, in table
    order; a category of the table is among the tags exactly when one of
    its own keywords occurs in the cleaned text. *)
Theorem categorize_hashtag_tags (hashtag_text : string) :
  let tags := categorize_hashtag hashtag_text in
  tags <> []
  /\ NoDup tags
  /\ (tags = ["other"] \/ tags `sublist_of` category_names)
  /\ (tags = ["other"] <-> ~ keyword_occurs (category_text hashtag_text))
  /\ (forall category keywords, In (category, keywords) category_keywords ->
        (In category tags <->
         exists keyword, In keyword keywords
                         /\ PyStr.contains keyword (category_text hashtag_text) = true)).
Proof.
  intros tags. unfold tags, categorize_hashtag. fold (category_text hashtag_text).
  set (text := category_text hashtag_text).
  set (found := filter (fun ck => existsb (fun keyword => PyStr.contains keyword text) (snd ck) = true)
                       category_keywords).
  assert (Hsub : map fst found `sublist_of` category_names).
  { change category_names with (map fst category_keywords).
    apply sublist_map, filter_is_sublist. }
  assert (Hnd : NoDup category_names).
  { apply NoDup_ListNoDup. repeat constructor; cbn; intuition discriminate. }
  assert (Hocc : found = [] <-> ~ keyword_occurs text).
  { split.
    - intros Hnil (category & keywords & keyword & Hin & Hk & Hc).
      apply (filter_nil_not_elem_of _ _ (category, keywords) Hnil).
      + cbn [snd]. apply existsb_exists. eauto.
      + by apply list_elem_of_In.
    - intros Hno. destruct found as [|[category keywords] rest] eqn:E; [reflexivity|].
      exfalso. apply Hno.
      assert (Hin : (category, keywords) ∈ found) by (rewrite E; by left).
      apply list_elem_of_filter in Hin as [Hex Hin]. cbn [snd] in Hex.
      apply existsb_exists in Hex as (keyword & Hk & Hc).
      exists category, keywords, keyword. by rewrite <- list_elem_of_In. }
  assert (Hother : ~ In "other" category_names) by (cbn; intuition discriminate).
  assert (Hmem : forall category keywords, In (category, keywords) category_keywords ->
            (In category (map fst found) <->
             exists keyword, In keyword keywords /\ PyStr.contains keyword text = true)).
  { intros category keywords Hin. rewrite in_map_iff. split.
    - intros ([category' keywords'] & Hfst & Hf). cbn [fst] in Hfst. subst category'.
      apply list_elem_of_In, list_elem_of_filter in Hf as [Hex Hin'].
      apply list_elem_of_In in Hin'.
      rewrite (category_keywords_functional _ _ _ Hin Hin').
      cbn [snd] in Hex. by apply existsb_exists in Hex.
    - intros Hex. exists (category, keywords). split; [reflexivity|].
      apply list_elem_of_In, list_elem_of_filter. split.
      + cbn [snd]. by apply existsb_exists.
      + by apply list_elem_of_In. }
  destruct found as [|ck rest] eqn:E; cbn [map].
  - split; [discriminate|]. split; [apply NoDup_singleton|]. split; [by left|].
    split; [split; [intros _; by apply Hocc|reflexivity]|].
    intros category keywords Hin. rewrite <- (Hmem category keywords Hin).
    cbn [map In]. split; [|tauto]. intros [<-|[]]. exfalso. apply Hother.
    change category_names with (map fst category_keywords).
    apply in_map_iff. by exists ("other", keywords).
  - cbn [map] in Hsub, Hmem.
    split; [discriminate|]. split; [by eapply sublist_NoDup|]. split; [by right|].
    split; [|exact Hmem].
    split.
    + intros Heq. exfalso. apply Hother. apply list_elem_of_In.
      eapply sublist_subseteq; [exact Hsub|]. rewrite Heq. by left.
    + intros Hno. apply Hocc in Hno. discriminate.
Qed.


(** ** Trend predictor: enrichment and prediction together *)

Lemma momentum_factor_range (h : Hashtag) (m : gmap string Hashtag) :
  -15 <= momentum_factor h m <= 25.
Proof.
  unfold momentum_factor. destruct (m !! hashtag h) as [h30|]; [|lia].
  destruct (rank h <? rank h30), (rank h30 <? rank h),
    (get_is (period_momentum h) "accelerating"),
    (get_is (period_momentum h) "decelerating"); lia.
Qed.

Lemma volume_factor_range (h : Hashtag) : 0 <= volume_factor h <= 5.
Proof.
  unfold volume_factor. cbv zeta.
  repeat match goal with
         | |- context [if ?b then _ else _] => destruct b
         end; lia.
Qed.

Lemma stage_factor_range (h : Hashtag) : -15 <= stage_factor h <= 15.
Proof.
  unfold stage_factor.
  repeat match goal with
         | |- context [if ?b then _ else _] => destruct b
         end; lia.
Qed.

Lemma direction_factor_range (h : Hashtag) :
  0 <= get_or (ranking_change h) 0 -> -20 <= direction_factor h <= 20.
Proof.
  unfold direction_factor. intros Hc.
  repeat match goal with
         | |- context [if ?b then _ else _] => destruct b
         end; lia.
Qed.

(** What the lifecycle label of an enriched hashtag tells about its
    ranking fields. *)
Lemma lifecycle_stage_cases (h : Hashtag) :
  (hashtag_lifecycle_stage h = "rising"
   /\ get_is (ranking_direction h) "up" = true /\ 10 < get_or (ranking_change h) 0)
  \/ (hashtag_lifecycle_stage h = "growing"
      /\ get_is (ranking_direction h) "up" = true /\ 5 < get_or (ranking_change h) 0 <= 10)
  \/ (hashtag_lifecycle_stage h = "declining"
      /\ get_is (ranking_direction h) "down" = true /\ 10 < get_or (ranking_change h) 0)
  \/ hashtag_lifecycle_stage h = "stable".
Proof.
  unfold hashtag_lifecycle_stage.
  destruct (get_is (ranking_direction h) "up") eqn:Hup; cbn [andb].
  - destruct (Z.ltb_spec 10 (get_or (ranking_change h) 0)); [tauto|].
    destruct (Z.ltb_spec 5 (get_or (ranking_change h) 0)); [right; left; repeat split; lia|].
    rewrite andb_false_r. tauto.
  - destruct (get_is (ranking_direction h) "down") eqn:Hdown; cbn [andb]; [|tauto].
    destruct (Z.ltb_spec 10 (get_or (ranking_change h) 0)); tauto.
Qed.

(** X8: A hashtag that the enrichment labels [rising] is always predicted
    [strongly_rising] with a score of at least 70, whatever the 30-day
    data and its post count; one labelled [declining] never scores above
    45 and is never predicted to rise. *)
Theorem enriched_stage_bounds_prediction (hashtags hashtags_30d : list Hashtag)
    (p : Prediction.t) :
  In p (predict_trend_future (map enrich_hashtag hashtags) hashtags_30d) ->
  (Prediction.current_stage p = "rising" ->
   70 <= Prediction.score p /\ Prediction.status p = "strongly_rising"
   /\ Prediction.longevity p = "2-3 weeks")
  /\ (Prediction.current_stage p = "declining" ->
      Prediction.score p <= 45
      /\ Prediction.status p <> "strongly_rising" /\ Prediction.status p <> "rising").
Proof.
  unfold predict_trend_future. intros Hp.
  apply (Permutation_in _ (sort_by_perm _ _)) in Hp.
  apply in_map_iff in Hp as (eh & <- & Heh).
  apply in_map_iff in Heh as (h & <- & _).
  set (m := hashtags_map hashtags_30d).
  pose proof (momentum_factor_range (enrich_hashtag h) m) as Hm.
  pose proof (volume_factor_range (enrich_hashtag h)) as Hv.
  unfold predict_one.
  cbn [Prediction.current_stage Prediction.score Prediction.status Prediction.longevity
       enrich_hashtag lifecycle_stage get_or].
  assert (Hraw : raw_score (enrich_hashtag h) m
                 = 50 + direction_factor h + stage_factor (enrich_hashtag h)
                   + momentum_factor (enrich_hashtag h) m + volume_factor (enrich_hashtag h))
    by reflexivity.
  unfold stage_factor in Hraw. cbn [enrich_hashtag lifecycle_stage get_is] in Hraw.
  unfold direction_factor in Hraw.
  destruct (lifecycle_stage_cases h) as [(Hs & Hd & Hc)|[(Hs & Hd & Hc)|[(Hs & Hd & Hc)|Hs]]];
    rewrite Hs in *; cbn [String.eqb Ascii.eqb Bool.eqb] in Hraw;
    split; intros Hstage; try discriminate Hstage.
  - rewrite Hd in Hraw.
    assert (Hge : 70 <= raw_score (enrich_hashtag h) m) by lia.
    unfold prediction_status, cap_score.
    destruct (Z.leb_spec 70 (raw_score (enrich_hashtag h) m)); [|lia].
    split; [lia|]. split; reflexivity.
  - destruct (get_is (ranking_direction h) "up") eqn:Hup.
    { exfalso. destruct (ranking_direction h) as [d|]; [|discriminate].
      cbn in Hup, Hd. apply String.eqb_eq in Hup, Hd. congruence. }
    rewrite Hd in Hraw.
    assert (Hle : raw_score (enrich_hashtag h) m <= 45) by lia.
    unfold prediction_status, cap_score.
    destruct (Z.leb_spec 70 (raw_score (enrich_hashtag h) m)); [lia|].
    destruct (Z.leb_spec 60 (raw_score (enrich_hashtag h) m)); [lia|].
    split; [lia|].
    repeat match goal with
           | |- context [if ?b then _ else _] => destruct b
           end; split; discriminate.
Qed.

Lemma enriched_stage_bounds_prediction_witness :
  (Prediction.current_stage dancechallenge_prediction = "rising" ->
   70 <= Prediction.score dancechallenge_prediction
   /\ Prediction.status dancechallenge_prediction = "strongly_rising"
   /\ Prediction.longevity dancechallenge_prediction = "2-3 weeks")
  /\ (Prediction.current_stage dancechallenge_prediction = "declining" ->
      Prediction.score dancechallenge_prediction <= 45
      /\ Prediction.status dancechallenge_prediction <> "strongly_rising"
      /\ Prediction.status dancechallenge_prediction <> "rising").
Proof.
  apply (enriched_stage_bounds_prediction [dancechallenge] [] dancechallenge_prediction).
  vm_compute. left. reflexivity.
Defined.

(** X9: With a non-negative ranking change the score before capping lies
    between 0 and 115 (the example [raw_score_extremes] reaches both
    ends), so the cap to [5,95] can bind in both directions. *)
Theorem raw_score_range (h : Hashtag) (hashtags_30d : list Hashtag) :
  0 <= get_or (ranking_change h) 0 ->
  0 <= raw_score h (hashtags_map hashtags_30d) <= 115.
Proof.
  intros Hc. unfold raw_score.
  pose proof (direction_factor_range h Hc).
  pose proof (stage_factor_range h).
  pose proof (momentum_factor_range h (hashtags_map hashtags_30d)).
  pose proof (volume_factor_range h). lia.
Qed.

Lemma raw_score_range_witness :
  0 <= raw_score
         {| hashtag := "#fyp"; rank := 1; post_count := Some (VStr "2.5M");
            numeric_post_count := Some (NFloat 2500000);
            ranking_direction := Some "up"; ranking_change := Some 12;
            categories := Some ["other"]; lifecycle_stage := Some "rising";
            period_momentum := Some "accelerating" |}
         (hashtags_map [raw_hashtag "#fyp" 9 "down" 1]) <= 115.
Proof.
  apply (raw_score_range _ [raw_hashtag "#fyp" 9 "down" 1]).
  cbn. lia.
Defined.

Example raw_score_extremes :
  raw_score
    {| hashtag := "#fyp"; rank := 1; post_count := Some (VStr "2.5M");
       numeric_post_count := Some (NFloat 2500000);
       ranking_direction := Some "up"; ranking_change := Some 12;
       categories := Some ["other"]; lifecycle_stage := Some "rising";
       period_momentum := Some "accelerating" |}
    (hashtags_map [raw_hashtag "#fyp" 9 "down" 1]) = 115
  /\ raw_score
       {| hashtag := "#fyp"; rank := 9; post_count := None;
          numeric_post_count := None;
          ranking_direction := Some "down"; ranking_change := Some 12;
          categories := Some ["other"]; lifecycle_stage := Some "declining";
          period_momentum := Some "decelerating" |}
       (hashtags_map [raw_hashtag "#fyp" 1 "up" 1]) = 0.
Proof. split; vm_compute; reflexivity. Qed.

Lemma insert_desc_stable {A : Type} (key : A -> Z) (v : Z) (x : A) (l : list A) :
  filter (fun a => key a = v) (insert_by (fun y x => key x <? key y) x l)
  = filter (fun a => key a = v) (x :: l).
Proof.
  induction l as [|y l IH]; [reflexivity|]. cbn [insert_by].
  destruct (Z.ltb_spec (key x) (key y)) as [Hlt|Hge]; [|reflexivity].
  rewrite (filter_cons _ y), IH, !(filter_cons _ x), (filter_cons _ y).
  destruct (decide (key x = v)), (decide (key y = v)); try reflexivity. lia.
Qed.

(** The sort is stable: among the elements with one and the same key the
    input order is kept. *)
Lemma sort_desc_stable {A : Type} (key : A -> Z) (v : Z) (l : list A) :
  filter (fun a => key a = v) (sort_desc key l) = filter (fun a => key a = v) l.
Proof.
  unfold sort_desc, sort_by. induction l as [|x l IH]; [reflexivity|].
  cbn [foldr]. rewrite insert_desc_stable, !(filter_cons _ x), IH. reflexivity.
Qed.

(** X10: The predictions are the per-hashtag predictions, reordered by
    score, highest first; predictions with the same score keep the order
    of their hashtags in the input. *)
Theorem predictions_sorted_by_score (hashtags_7d hashtags_30d : list Hashtag) :
  Permutation (predict_trend_future hashtags_7d hashtags_30d)
              (map (predict_one (hashtags_map hashtags_30d)) hashtags_7d)
  /\ StronglySorted (fun a b => Prediction.score b <= Prediction.score a)
       (predict_trend_future hashtags_7d hashtags_30d)
  /\ (forall score,
        filter (fun p => Prediction.score p = score)
               (predict_trend_future hashtags_7d hashtags_30d)
        = filter (fun p => Prediction.score p = score)
                 (map (predict_one (hashtags_map hashtags_30d)) hashtags_7d)).
Proof.
  split; [apply sort_by_perm|]. split; [apply sort_desc_sorted|].
  intros score. apply sort_desc_stable.
Qed.

(** X11: When the 30-day list holds several records with the same text, the
    lookup table keeps the last of them, and the predictor compares the
    ranks against that one. *)
Theorem hashtags_map_keeps_last (hashtags_30d : list Hashtag) (text : string) :
  hashtags_map hashtags_30d !! text
  = last (filter (fun h => hashtag h = text) hashtags_30d).
Proof.
  unfold hashtags_map.
  induction hashtags_30d as [|h l IH] using rev_ind; [reflexivity|].
  rewrite foldl_snoc, filter_app.
  destruct (decide (hashtag h = text)) as [Heq|Hne].
  - rewrite Heq, lookup_insert_eq.
    rewrite filter_cons_True, filter_nil by exact Heq. by rewrite last_snoc.
  - rewrite lookup_insert_ne by exact Hne.
    rewrite filter_cons_False, filter_nil by exact Hne. by rewrite app_nil_r.
Qed.

(** ** Emerging-trend detector: confidence and enrichment *)

(** X12: With non-negative ranking changes every confidence lies in [50,95]
    (songs at 90), and the list holds one entry per qualifying hashtag and
    per breakout song. *)
Theorem emerging_confidence_range (hashtags_7d : list Hashtag) (breakout_songs : list Song.t) :
  Forall (fun h => 0 <= get_or (ranking_change h) 0) hashtags_7d ->
  Forall (fun e => 50 <= Emerging.confidence e <= 95
                   /\ (Emerging.type e = "song" -> Emerging.confidence e = 90))
         (identify_emerging_trends hashtags_7d breakout_songs)
  /\ length (identify_emerging_trends hashtags_7d breakout_songs)
     = (length (filter (fun h => is_emerging h = true) hashtags_7d)
        + length breakout_songs)%nat.
Proof.
  intros Hc. unfold identify_emerging_trends. split.
  - apply sort_desc_Forall. unfold emerging_unsorted. apply Forall_app. split.
    + apply Forall_forall. intros e He.
      apply list_elem_of_In, in_map_iff in He as (h & <- & Hh).
      apply list_elem_of_In, list_elem_of_filter in Hh as [_ Hh].
      rewrite Forall_forall in Hc. specialize (Hc h Hh).
      cbn. split; [lia|discriminate].
    + apply Forall_forall. intros e He.
      apply list_elem_of_In, in_map_iff in He as (song & <- & _).
      cbn. split; [lia|reflexivity].
  - unfold sort_desc. rewrite (Permutation_length (sort_by_perm _ _)).
    unfold emerging_unsorted. by rewrite length_app, !length_map.
Qed.

Lemma emerging_confidence_range_witness :
  length (identify_emerging_trends (map enrich_hashtag five_tags) [some_song])
  = (length (filter (fun h => is_emerging h = true) (map enrich_hashtag five_tags))
     + length [some_song])%nat.
Proof.
  apply (emerging_confidence_range (map enrich_hashtag five_tags) [some_song]).
  repeat constructor; cbn; lia.
Defined.



(** ** Category analyzer: the shape of the statistics *)

Lemma insert_asc_sorted {A : Type} (key : A -> Z) (x : A) (l : list A) :
  StronglySorted (fun a b => key a <= key b) l ->
  StronglySorted (fun a b => key a <= key b) (insert_by (fun y x => key y <? key x) x l).
Proof.
  induction 1 as [|y l Hs IH Hy]; simpl.
  - repeat constructor.
  - destruct (Z.ltb_spec (key y) (key x)) as [Hlt|Hge].
    + constructor; [exact IH|].
      rewrite (insert_by_perm _ x l). constructor; [lia|exact Hy].
    + constructor; [by constructor|].
      constructor; [exact Hge|].
      eapply Forall_impl; [exact Hy|]. simpl. intros b Hb. lia.
Qed.

Lemma sort_asc_sorted {A : Type} (key : A -> Z) (l : list A) :
  StronglySorted (fun a b => key a <= key b) (sort_asc key l).
Proof.
  unfold sort_asc, sort_by.
  induction l as [|x l IH]; simpl; [constructor|].
  by apply insert_asc_sorted.
Qed.

Lemma StronglySorted_of_sublist {A : Type} (R : A -> A -> Prop) (l1 l2 : list A) :
  l1 `sublist_of` l2 -> StronglySorted R l2 -> StronglySorted R l1.
Proof.
  induction 1 as [|x l1 l2 Hsub IH|x l1 l2 Hsub IH]; intros Hs.
  - constructor.
  - inversion Hs as [|? ? Hl Hx]; subst. constructor; [by apply IH|].
    rewrite Forall_forall in Hx. apply Forall_forall. intros y Hy.
    apply Hx. by eapply sublist_subseteq.
  - inversion Hs; subst. by apply IH.
Qed.

Lemma StronglySorted_by_map {A B : Type} (f : A -> B) (R : B -> B -> Prop) (l : list A) :
  StronglySorted (fun a b => R (f a) (f b)) l -> StronglySorted R (map f l).
Proof.
  induction 1 as [|x l _ IH Hx]; cbn [map]; constructor; [exact IH|].
  apply Forall_forall. intros y Hy.
  apply list_elem_of_In, in_map_iff in Hy as (a & <- & Ha).
  rewrite Forall_forall in Hx. apply Hx. by apply list_elem_of_In.
Qed.

(** X14: The statistics are sorted by count, highest first; every category
    appears once, with a count of at least 1; the counts add up to the
    number of tag assignments; each entry lists at most three hashtags of
    its category, by ascending rank. *)
Theorem category_stats_shape (hashtags : list Hashtag) :
  let stats := analyze_categories hashtags in
  StronglySorted (fun a b => CategoryStat.count b <= CategoryStat.count a) stats
  /\ NoDup (map CategoryStat.name stats)
  /\ Forall (category_stat_ok hashtags) stats
  /\ foldr Z.add 0 (map CategoryStat.count stats)
     = Z.of_nat (length (concat (map (fun h => get_or (categories h) ["other"]) hashtags))).
Proof.
  intros stats. unfold stats, analyze_categories.
  destruct hashtags as [|h0 hs]; [repeat split; constructor|].
  set (hashtags := h0 :: hs).
  set (counts := category_counts hashtags).
  set (unsorted := map (category_stat hashtags (total_of counts)) counts).
  assert (Hperm : Permutation (sort_desc CategoryStat.count unsorted) unsorted)
    by apply sort_by_perm.
  assert (Hname : map CategoryStat.name unsorted = map fst counts).
  { unfold unsorted. rewrite map_map. apply map_ext. by intros [category count]. }
  assert (Hcount : map CategoryStat.count unsorted = map snd counts).
  { unfold unsorted. rewrite map_map. apply map_ext. by intros [category count]. }
  destruct (count_all_keys (concat (map (fun h => get_or (categories h) ["other"]) hashtags)))
    as [Hnd Hpos]. fold (category_counts hashtags) in Hnd, Hpos. fold counts in Hnd, Hpos.
  split; [apply sort_desc_sorted|]. split.
  { rewrite (Permutation_map CategoryStat.name Hperm), Hname. exact Hnd. }
  split.
  { apply sort_desc_Forall, Forall_forall. intros st Hst.
    apply list_elem_of_In, in_map_iff in Hst as ([category count] & <- & Hin).
    rewrite Forall_forall in Hpos. apply list_elem_of_In in Hin.
    specialize (Hpos _ Hin). cbn [snd] in Hpos.
    unfold category_stat_ok. cbn [category_stat CategoryStat.count CategoryStat.top_hashtags
                                  CategoryStat.name].
    split; [exact Hpos|]. split; [rewrite length_map, length_take; lia|]. split.
    - apply StronglySorted_by_map. cbn [snd].
      eapply StronglySorted_of_sublist; [apply sublist_take|]. apply sort_asc_sorted.
    - intros entry He. apply in_map_iff in He as (h & <- & Hh).
      exists h. split; [|split; [reflexivity|]].
      + apply list_elem_of_In in Hh. apply list_elem_of_In.
        apply (sublist_subseteq _ _ (sublist_take _ 3)) in Hh.
        unfold sort_asc in Hh. rewrite sort_by_perm in Hh.
        by apply list_elem_of_filter in Hh as [_ Hh].
      + apply list_elem_of_In in Hh.
        apply (sublist_subseteq _ _ (sublist_take _ 3)) in Hh.
        unfold sort_asc in Hh. rewrite sort_by_perm in Hh.
        by apply list_elem_of_filter in Hh as [Hc _]. }
  transitivity (foldr Z.add 0 (map CategoryStat.count unsorted)).
  { clear -Hperm. induction Hperm; cbn [map foldr]; lia. }
  rewrite Hcount. apply total_of_count_all.
Qed.

Lemma count_all_same (k : string) (n : nat) :
  count_all (repeat k (S n)) = [(k, Z.of_nat (S n))].
Proof.
  unfold count_all. cbn [repeat foldl incr].
  assert (Hgen : forall m c, foldl (fun d k => incr k d) [(k, c)] (repeat k m)
                             = [(k, c + Z.of_nat m)]).
  { induction m as [|m IH]; intros c; cbn [repeat foldl incr].
    - do 2 f_equal. lia.
    - rewrite String.eqb_refl, IH. do 2 f_equal. lia. }
  rewrite Hgen. do 2 f_equal. lia.
Qed.

Lemma round1_hundred (n : positive) :
  round1 (float_share (Z.pos n) (Z.pos n)) = (1000 # 10)%Q.
Proof.
  assert (H1 : (binary64 (inject_Z (Z.pos n) / inject_Z (Z.pos n)) == inject_Z 1)%Q).
  { apply binary64_int; [|lia].
    change (inject_Z 1) with 1%Q. field. discriminate. }
  assert (H2 : (float_share (Z.pos n) (Z.pos n) == inject_Z 100)%Q).
  { unfold float_share. apply binary64_int; [|lia]. rewrite H1. reflexivity. }
  unfold round1.
  rewrite (round_half_even_int _ 1000); [reflexivity|].
  rewrite H2. reflexivity.
Qed.

(** X15: A hashtag without a [categories] key is counted under [other] but is
    not listed among the top hashtags of [other]: when no hashtag has the
    key, the analysis is the single entry [other] with all hashtags
    counted, 100.0 percent, and an empty list of top hashtags. *)
Theorem uncategorized_hashtags_counted_not_listed (hashtags : list Hashtag) :
  hashtags <> [] ->
  Forall (fun h => categories h = None) hashtags ->
  analyze_categories hashtags
  = [ {| CategoryStat.name := "other";
         CategoryStat.count := Z.of_nat (length hashtags);
         CategoryStat.percentage := (1000 # 10)%Q;
         CategoryStat.top_hashtags := [] |} ].
Proof.
  intros Hne Hnone.
  destruct hashtags as [|h0 hs]; [done|]. unfold analyze_categories.
  set (hashtags := h0 :: hs) in *.
  assert (Hkeys : concat (map (fun h => get_or (categories h) ["other"]) hashtags)
                  = repeat "other" (length hashtags)).
  { clear Hne. induction Hnone as [|h l Hh _ IH]; [reflexivity|].
    cbn [map concat length repeat]. by rewrite Hh, IH. }
  assert (Hcounts : category_counts hashtags = [("other", Z.of_nat (length hashtags))]).
  { unfold category_counts. rewrite Hkeys. apply count_all_same. }
  rewrite Hcounts. cbn [map total_of foldr snd sort_desc sort_by insert_by category_stat].
  assert (Hfilter : filter (fun h => has_category "other" h = true) hashtags = []).
  { clear -Hnone. induction Hnone as [|h l Hh _ IH]; [reflexivity|].
    rewrite filter_cons_False; [exact IH|].
    unfold has_category. rewrite Hh. cbn. discriminate. }
  rewrite Hfilter. cbn [sort_asc sort_by foldr take map].
  replace (Z.of_nat (length hashtags) + 0) with (Z.of_nat (length hashtags)) by lia.
  assert (Hpos : 0 < Z.of_nat (length hashtags)) by (unfold hashtags; cbn [length]; lia).
  destruct (Z.of_nat (length hashtags)) as [|n|n]; [lia| |lia].
  by rewrite round1_hundred.
Qed.

Lemma uncategorized_hashtags_counted_not_listed_witness :
  analyze_categories pets
  = [ {| CategoryStat.name := "other";
         CategoryStat.count := Z.of_nat (length pets);
         CategoryStat.percentage := (1000 # 10)%Q;
         CategoryStat.top_hashtags := [] |} ].
Proof.
  apply (uncategorized_hashtags_counted_not_listed pets).
  - discriminate.
  - repeat constructor.
Defined.

(** ** Recommendation generator: combinations and strategies *)

Lemma take_min_length {A : Type} (n : nat) (l : list A) :
  take (Nat.min n (length l)) l = take n l.
Proof.
  destruct (Nat.le_ge_cases n (length l)) as [Hle|Hge].
  - by rewrite Nat.min_l.
  - rewrite Nat.min_r by exact Hge. by rewrite !take_ge.
Qed.

Lemma fit_score_bounds (h : Hashtag) (song : Song.t) (noise : Z) :
  randint_range noise -> 65 <= _calculate_combination_score h song noise <= 95.
Proof.
  unfold randint_range. intros Hn. rewrite combination_score_heuristic.
  pose proof (heuristic_score_values h song). lia.
Qed.

Lemma combinations_from_shape (top_hashtags : list Hashtag) (top_songs : list Song.t)
    (draw : nat -> Z) (i : nat) :
  top_songs <> [] -> (forall j, randint_range (draw j)) ->
  length (combinations_from i top_hashtags top_songs draw) = length top_hashtags
  /\ Forall (fun c => 65 <= Combo.fit_score c <= 95
                      /\ In (Combo.hashtag c) (map hashtag top_hashtags)
                      /\ In (Combo.song c) (map song_label top_songs))
            (combinations_from i top_hashtags top_songs draw).
Proof.
  intros Hne Hdraw. revert i.
  induction top_hashtags as [|h rest IH]; intros i; cbn [combinations_from].
  - split; [reflexivity|constructor].
  - assert (Hlt : (i mod length top_songs < length top_songs)%nat).
    { apply Nat.mod_upper_bound. destruct top_songs; [done|cbn; lia]. }
    destruct (lookup_lt_is_Some_2 top_songs _ Hlt) as [song Hsong].
    rewrite Hsong. destruct (IH (S i)) as [IHlen IHall].
    split; [cbn [length]; by rewrite IHlen|].
    constructor.
    + cbn [Combo.fit_score Combo.hashtag Combo.song].
      split; [apply fit_score_bounds; apply Hdraw|].
      split; [by left|].
      apply in_map, list_elem_of_In. by eapply list_elem_of_lookup_2.
    + eapply Forall_impl; [exact IHall|].
      intros c (H1 & H2 & H3). split; [exact H1|]. split; [by right|exact H3].
Qed.

(** X16: With draws in [-5,5], [top_combinations] holds min(3, number of
    hashtags) pairings when there is a song and none otherwise; the
    pairings are sorted by fit score, highest first, every score lies in
    [65,95], every hashtag is one of the first five and every song one of
    the first three. *)
Theorem top_combinations_shape (hashtags : list Hashtag) (songs : list Song.t)
    (draw : nat -> Z) :
  (forall i, randint_range (draw i)) ->
  let combos := top_combinations hashtags songs draw in
  length combos = match songs with
                  | [] => 0%nat
                  | _ => Nat.min 3 (length hashtags)
                  end
  /\ Forall (fun c => 65 <= Combo.fit_score c <= 95
                      /\ In (Combo.hashtag c) (map hashtag (take 5 hashtags))
                      /\ In (Combo.song c) (map song_label (take 3 songs))) combos
  /\ StronglySorted (fun a b => Combo.fit_score b <= Combo.fit_score a) combos.
Proof.
  intros Hdraw combos. unfold combos, top_combinations.
  destruct hashtags as [|h0 hs]; [destruct songs; repeat split; constructor|].
  destruct songs as [|s0 ss]; [repeat split; constructor|].
  rewrite !take_min_length.
  set (hashtags := h0 :: hs). set (songs := s0 :: ss).
  destruct (combinations_from_shape (take 5 hashtags) (take 3 songs) draw 0
              ltac:(discriminate) Hdraw) as [Hlen Hall].
  split.
  { rewrite length_take. unfold sort_desc.
    rewrite (Permutation_length (sort_by_perm _ _)), Hlen, length_take. lia. }
  split.
  { apply Forall_forall. intros c Hc.
    apply (sublist_subseteq _ _ (sublist_take _ 3)) in Hc.
    revert c Hc. apply Forall_forall. by apply sort_desc_Forall. }
  eapply StronglySorted_of_sublist; [apply sublist_take|apply sort_desc_sorted].
Qed.

Lemma top_combinations_shape_witness :
  length (top_combinations five_tags [some_song] (fun i => if Nat.even i then 4 else -3))
  = Nat.min 3 (length five_tags).
Proof.
  apply (top_combinations_shape five_tags [some_song] (fun i => if Nat.even i then 4 else -3)).
  intros i. unfold randint_range. destruct (Nat.even i); lia.
Defined.

(** X17: Without topics the two fallback strategies list the first six
    hashtags between them, in order and without overlap; with topics there
    is one strategy per topic for the first three topics, named after the
    topic.  No strategy lists more than three hashtags. *)
Theorem content_strategies_shape (hashtags : list Hashtag) (topics : list Topic.t) :
  let strategies := content_strategies hashtags topics in
  length strategies = match topics with
                      | [] => 2%nat
                      | _ => Nat.min 3 (length topics)
                      end
  /\ Forall (fun st => (length (Strategy.hashtags st) <= 3)%nat) strategies
  /\ match topics with
     | [] => concat (map Strategy.hashtags strategies) = map hashtag (take 6 hashtags)
     | _ => map Strategy.topic strategies = map Topic.name (take 3 topics)
     end.
Proof.
  intros strategies. unfold strategies, content_strategies.
  destruct topics as [|t0 ts].
  - split; [reflexivity|]. split.
    + unfold default_strategies.
      constructor; [|constructor; [|constructor]]; cbn [Strategy.hashtags].
      * destruct hashtags; [cbn; lia|]. rewrite length_map, length_take. lia.
      * destruct (3 <? length hashtags)%nat; [|cbn; lia].
        rewrite length_map, length_take. lia.
    + unfold default_strategies. cbn [map concat Strategy.hashtags]. rewrite app_nil_r.
      destruct (Nat.ltb_spec 3 (length hashtags)) as [Hlt|Hge].
      * destruct hashtags as [|h hs]; [cbn in Hlt; lia|].
        rewrite <- map_app. f_equal. apply (take_take_drop (h :: hs) 3 3).
      * rewrite app_nil_r. rewrite (take_ge hashtags 6) by lia.
        destruct hashtags as [|h hs]; [reflexivity|].
        by rewrite take_ge by lia.
  - rewrite take_min_length. set (topics := t0 :: ts).
    split; [rewrite length_map, length_take; lia|]. split.
    + apply Forall_forall. intros st Hst.
      apply list_elem_of_In, in_map_iff in Hst as (t & <- & _).
      cbn [strategy_of_topic Strategy.hashtags]. rewrite length_map, length_take. lia.
    + rewrite map_map. reflexivity.
Qed.

(** ** Topic modeler: the topics that can come back *)

Lemma mapM_Ok {A B : Type} (f : A -> result B) (l : list A) (r : list B) :
  mapM f l = Ok r -> Forall2 (fun a b => f a = Ok b) l r.
Proof.
  revert r. induction l as [|a l IH]; intros r; cbn [mapM].
  - intros [= <-]. constructor.
  - unfold mbind, result_bind, mret, result_ret.
    destruct (f a) as [b|e] eqn:Hb; [|discriminate].
    destruct (mapM f l) as [bs|e] eqn:Hbs; [|discriminate].
    intros [= <-]. constructor; [exact Hb|by apply IH].
Qed.

Lemma topic_members_ok (hashtags : list Hashtag) (topic_scores : list (list Q))
    (topic_idx : nat) (top_doc_indices : list nat) (members : list Topic.member) :
  topic_members hashtags topic_scores topic_idx top_doc_indices = Ok members ->
  (length members <= length top_doc_indices)%nat
  /\ Forall (fun m => Qltb 0.2 (Topic.score m) = true
                      /\ exists h, In h hashtags /\ Topic.hashtag m = hashtag h
                                   /\ Topic.rank m = rank h) members.
Proof.
  unfold topic_members. unfold mbind at 1, result_bind at 1.
  destruct (mapM _ top_doc_indices) as [found|e] eqn:Hfound; [|discriminate].
  intros [= <-]. apply mapM_Ok in Hfound.
  induction Hfound as [|doc_idx ms idxs found Hone _ IH]; cbn [concat length].
  - split; [lia|constructor].
  - destruct IH as [IHlen IHall].
    unfold mbind, result_bind, index in Hone.
    destruct (topic_scores !! doc_idx) as [row|]; [|discriminate].
    destruct (row !! topic_idx) as [w|]; [|discriminate].
    destruct (Qltb 0.2 w) eqn:Hw.
    + destruct (hashtags !! doc_idx) as [h|] eqn:Hh; [|discriminate].
      injection Hone as <-. cbn [app length]. split; [lia|].
      constructor; [|exact IHall]. cbn [Topic.score Topic.hashtag Topic.rank].
      split; [exact Hw|]. exists h. split; [|by split].
      apply list_elem_of_In. by eapply list_elem_of_lookup_2.
    + injection Hone as <-. cbn [app]. split; [lia|exact IHall].
Qed.

Section TopicShape.

Variable english_stopwords : list string.
Variable fit_transform :
  list string -> Z -> Q -> list string -> result (list (list Z) * list string).
Variable lda_fit : nat -> Z -> list (list Z) -> result (list (list Q)).
Variable lda_transform : list (list Q) -> list (list Z) -> result (list (list Q)).
Variable argsort : list Q -> list nat.

Lemma default_topics_ok (hashtags : list Hashtag) :
  Forall (topic_ok hashtags) _generate_default_topics.
Proof. repeat constructor; cbn; lia. Qed.

Lemma extract_topic_ok (hashtags : list Hashtag) (dtm : list (list Z))
    (feature_names : list string) (components : list (list Q))
    (topic_idx : nat) (topic : list Q) (found : list Topic.t) :
  extract_topic lda_transform argsort hashtags dtm feature_names components topic_idx topic
  = Ok found ->
  Forall (topic_ok hashtags) found.
Proof.
  unfold extract_topic. unfold mbind, result_bind.
  destruct (mapM (index feature_names) _) as [top_words|]; [|discriminate].
  destruct (lda_transform components dtm) as [topic_scores|]; [|discriminate].
  destruct (mapM _ topic_scores) as [column|]; [|discriminate].
  destruct (topic_members _ _ _ _) as [members|] eqn:Hm; [|discriminate].
  apply topic_members_ok in Hm as [Hlen Hall].
  rewrite length_take in Hlen.
  destruct members as [|m ms]; intros [= <-]; constructor; [|constructor].
  unfold topic_ok. cbn [Topic.keywords Topic.hashtags].
  split; [rewrite length_take; lia|]. split; [lia|exact Hall].
Qed.

Lemma model_topics_ok (hashtags : list Hashtag) (num_topics : nat) (corpus : list string)
    (topics : list Topic.t) :
  model_topics english_stopwords fit_transform lda_fit lda_transform argsort
    hashtags num_topics corpus = Ok topics ->
  topics <> [] /\ Forall (topic_ok hashtags) topics.
Proof.
  unfold model_topics.
  destruct (if (length corpus <? 10)%nat then _ else _) as [min_df max_df].
  unfold mbind, result_bind.
  destruct (fit_transform _ _ _ _) as [[dtm feature_names]|]; [|discriminate].
  destruct (dtm_sum dtm =? 0).
  { intros [= <-]. split; [discriminate|apply default_topics_ok]. }
  destruct (lda_fit _ _ _) as [components|]; [|discriminate].
  destruct (mapM _ _) as [found|] eqn:Hfound; [|discriminate].
  apply mapM_Ok in Hfound.
  assert (Hall : Forall (topic_ok hashtags) (concat found)).
  { clear -Hfound. induction Hfound as [|it ts its found Hone _ IH]; [constructor|].
    cbn [concat]. apply Forall_app. split; [|exact IH].
    by eapply extract_topic_ok. }
  set (sorted := sort_by _ (concat found)).
  assert (Hsorted : Forall (topic_ok hashtags) sorted).
  { unfold sorted. by rewrite sort_by_perm. }
  destruct sorted as [|t ts]; intros [= <-].
  - split; [discriminate|apply default_topics_ok].
  - split; [discriminate|exact Hsorted].
Qed.

(** X18: Whatever the library returns, the topic list is empty only for the
    empty input; every topic has at most five keywords and at most five
    member hashtags, and every member is a hashtag of the input with a
    membership weight above 0.2. *)
Theorem topic_list_shape (hashtags : list Hashtag) (num_topics : nat) (topics : list Topic.t) :
  identify_hashtag_topics english_stopwords fit_transform lda_fit lda_transform argsort
    hashtags num_topics = Ok topics ->
  (topics = [] <-> hashtags = []) /\ Forall (topic_ok hashtags) topics.
Proof.
  unfold identify_hashtag_topics.
  destruct hashtags as [|h hs].
  { intros [= <-]. split; [tauto|constructor]. }
  destruct (length (map corpus_text (h :: hs)) <? 5)%nat.
  { intros [= <-]. split; [split; discriminate|apply default_topics_ok]. }
  unfold try_except.
  destruct (model_topics _ _ _ _ _ _ _ _) as [found|e] eqn:Hm.
  - intros [= <-]. apply model_topics_ok in Hm as [Hne Hall].
    split; [split; [done|discriminate]|exact Hall].
  - intros [= <-]. split; [split; discriminate|apply default_topics_ok].
Qed.

(** X19: For fewer than five hashtags the content strategies, built from the
    topics the modeler returns, never list a hashtag: the empty input gets
    the two fallback strategies, one to four hashtags get the strategies
    of the three default topics. *)
Theorem short_list_strategies (hashtags : list Hashtag) (num_topics : nat) :
  (length hashtags < 5)%nat ->
  exists topics,
    identify_hashtag_topics english_stopwords fit_transform lda_fit lda_transform argsort
      hashtags num_topics = Ok topics
    /\ Forall (fun st => Strategy.hashtags st = []) (content_strategies hashtags topics)
    /\ map Strategy.topic (content_strategies hashtags topics)
       = match hashtags with
         | [] => ["Entertainment Content"; "Tutorial Content"]
         | _ => ["Entertainment Content"; "Lifestyle Content"; "Food Content"]
         end.
Proof.
  intros Hlen. unfold identify_hashtag_topics.
  destruct hashtags as [|h hs].
  - exists []. split; [reflexivity|]. split; [repeat constructor|reflexivity].
  - rewrite length_map.
    destruct (Nat.ltb_spec (length (h :: hs)) 5) as [_|Hge]; [|lia].
    exists _generate_default_topics. split; [reflexivity|].
    split; [repeat constructor|reflexivity].
Qed.

End TopicShape.

Lemma topic_list_shape_witness :
  (_generate_default_topics = [] <-> pets = [])
  /\ Forall (topic_ok pets) _generate_default_topics.
Proof.
  refine (topic_list_shape [] failing_fit_transform failing_lda_fit failing_lda_transform
            no_argsort pets 5 _generate_default_topics _).
  reflexivity.
Defined.

Lemma short_list_strategies_witness :
  exists topics,
    failing_topics pets = Ok topics
    /\ Forall (fun st => Strategy.hashtags st = []) (content_strategies pets topics)
    /\ map Strategy.topic (content_strategies pets topics)
       = ["Entertainment Content"; "Lifestyle Content"; "Food Content"].
Proof.
  apply (short_list_strategies [] failing_fit_transform failing_lda_fit failing_lda_transform
           no_argsort pets 5).
  cbn. lia.
Defined.

(** ** Change detection *)

(** X20: Without a readable file of the last run the detection answers "changed"
    at every run and never creates or repairs the file, so it stays in
    that state for any series of runs. *)
Theorem change_detection_needs_a_file (file : LastRun) (snapshots : list Snapshot.t) :
  file = Absent \/ file = Unreadable ->
  change_checks file snapshots = (repeat true (length snapshots), file).
Proof.
  intros Hfile. induction snapshots as [|current_data later IH]; [reflexivity|].
  cbn [change_checks length repeat].
  destruct Hfile as [-> | ->]; cbn [have_trends_changed];
    rewrite IH by tauto; reflexivity.
Qed.

Lemma change_detection_needs_a_file_witness :
  change_checks Absent [pets_snapshot; pets_snapshot; empty_snapshot]
  = (repeat true 3, Absent).
Proof.
  apply (change_detection_needs_a_file Absent [pets_snapshot; pets_snapshot; empty_snapshot]).
  left. reflexivity.
Defined.

(** X21: Only what left the top lists counts, and one hashtag leaving the top
    five is not enough: as long as at most one of the last top five is
    missing from the current top five and no song left the top three, the
    answer is "unchanged", however the lists were reordered or extended;
    the current snapshot replaces the stored one. *)
Theorem one_replaced_hashtag_is_unchanged (last_data current_data : Snapshot.t) (gone : string) :
  (forall text, In text (map hashtag (take 5 (Snapshot.hashtags_7d last_data))) ->
                text = gone
                \/ In text (map hashtag (take 5 (Snapshot.hashtags_7d current_data)))) ->
  (forall name, In name (map Song.song_name (take 3 (Snapshot.trending_songs last_data))) ->
                In name (map Song.song_name (take 3 (Snapshot.trending_songs current_data)))) ->
  have_trends_changed (Stored last_data) current_data = (false, Stored current_data).
Proof.
  intros Hh Hs. cbn [have_trends_changed]. f_equal.
  assert (H5 : top5_hashtags last_data ∖ top5_hashtags current_data ⊆ {[gone]}).
  { intros text. unfold top5_hashtags.
    rewrite elem_of_difference, !elem_of_list_to_set, !list_elem_of_In, elem_of_singleton.
    intros [H1 H2]. destruct (Hh text H1) as [->|Hin]; [reflexivity|done]. }
  assert (H3 : top3_songs last_data ∖ top3_songs current_data = ∅).
  { apply set_eq. intros name. unfold top3_songs.
    rewrite elem_of_difference, !elem_of_list_to_set, !list_elem_of_In.
    split; [intros [H1 H2]; exfalso; by apply H2, Hs|intros H; by apply not_elem_of_empty in H]. }
  unfold hashtags_changed, songs_changed. rewrite H3.
  apply subseteq_size in H5. rewrite size_singleton in H5.
  rewrite size_empty.
  destruct (Nat.leb_spec 2 (size (top5_hashtags last_data ∖ top5_hashtags current_data)));
    [lia|reflexivity].
Qed.

Lemma one_replaced_hashtag_is_unchanged_witness :
  have_trends_changed (Stored pets_snapshot) fyp_snapshot = (false, Stored fyp_snapshot).
Proof.
  apply (one_replaced_hashtag_is_unchanged pets_snapshot fyp_snapshot "#dog").
  - cbn. intuition.
  - cbn. intuition.
Defined.

(** ** Scraper metrics *)

Lemma mapM_total {A B : Type} (f : A -> result B) (l : list A) :
  Forall (fun a => exists b, f a = Ok b) l -> exists r, mapM f l = Ok r.
Proof.
  induction 1 as [|a l [b Hb] _ [r Hr]]; cbn [mapM].
  - by eexists.
  - unfold mbind, result_bind, mret, result_ret.
    destruct (f a) as [b'|e] eqn:E1; [|congruence].
    destruct (mapM f l) as [r'|e] eqn:E2; [by eexists|congruence].
Qed.

Lemma hashtags_map_lookup_In (hashtags_30d : list Hashtag) (text : string) (h30 : Hashtag) :
  hashtags_map hashtags_30d !! text = Some h30 -> In h30 hashtags_30d /\ hashtag h30 = text.
Proof.
  unfold hashtags_map.
  induction hashtags_30d as [|h l IH] using rev_ind;
    [cbn [foldl]; by rewrite lookup_empty|].
  rewrite foldl_snoc. destruct (decide (hashtag h = text)) as [Heq|Hne].
  - rewrite Heq, lookup_insert_eq. intros [= <-].
    split; [apply in_or_app; right; by left|exact Heq].
  - rewrite lookup_insert_ne by exact Hne. intros Hl.
    destruct (IH Hl) as [Hin Ht]. split; [apply in_or_app; by left|exact Ht].
Qed.

Lemma metrics_7d_scraped (m : gmap string Hashtag) (h : Hashtag) :
  freshly_scraped h -> exists r, metrics_7d m h = Ok r.
Proof.
  intros (count & dir & chg & ->). unfold metrics_7d, trend_status_7d.
  cbn [scraped_hashtag post_count ranking_direction ranking_change require hashtag].
  unfold mbind, result_bind.
  destruct (String.eqb dir "up"); [|destruct (String.eqb dir "down")];
    destruct (m !! _) as [h30|]; by eexists.
Qed.

Lemma metrics_30d_scraped (h : Hashtag) :
  freshly_scraped h ->
  exists r, metrics_30d h = Ok r /\ numeric_post_count (fst r) <> None.
Proof.
  intros (count & dir & chg & ->). unfold metrics_30d, trend_status_30d.
  cbn [scraped_hashtag post_count ranking_direction ranking_change require].
  unfold mbind, result_bind.
  destruct (String.eqb dir "up"); [|destruct (String.eqb dir "down")];
    eexists; split; try reflexivity; discriminate.
Qed.

Lemma metrics_7d_no_growth (hashtags_30d : list Hashtag) (h : Hashtag) (r : Metrics.t) :
  Forall (fun h30 => numeric_post_count h30 = None) hashtags_30d ->
  metrics_7d (hashtags_map hashtags_30d) h = Ok r ->
  Metrics.period_growth_pct r = None.
Proof.
  intros Hnone. unfold metrics_7d. unfold mbind, result_bind.
  destruct (require (post_count h)) as [count|]; [|discriminate].
  destruct (trend_status_7d h) as [status|]; [|discriminate].
  destruct (hashtags_map hashtags_30d !! hashtag h) as [h30|] eqn:Hl.
  - intros [= <-]. cbn [Metrics.period_growth_pct]. unfold period_growth.
    apply hashtags_map_lookup_In in Hl as [Hin _].
    rewrite Forall_forall in Hnone. rewrite (Hnone h30) by (by apply list_elem_of_In).
    by destruct (num_gtb _ _).
  - by intros [= <-].
Qed.

(** X22: On the records [extract_hashtags] builds, the metrics never raise,
    and the growth against the 30-day period is never computed for any
    hashtag: the 30-day post counts are parsed only in the second loop,
    after the 7-day loop has looked for them. *)
Theorem period_growth_never_computed (hashtags_7d hashtags_30d : list Hashtag) :
  Forall freshly_scraped hashtags_7d ->
  Forall freshly_scraped hashtags_30d ->
  exists out7 out30,
    calculate_hashtag_metrics hashtags_7d hashtags_30d = Ok (out7, out30)
    /\ length out7 = length hashtags_7d
    /\ Forall (fun r => Metrics.period_growth_pct r = None) out7
    /\ Forall (fun r => numeric_post_count (fst r) <> None) out30.
Proof.
  intros H7 H30. unfold calculate_hashtag_metrics. cbv zeta.
  assert (Hnone : Forall (fun h30 => numeric_post_count h30 = None) hashtags_30d).
  { eapply Forall_impl; [exact H30|]. by intros h (count & dir & chg & ->). }
  destruct (mapM_total (metrics_7d (hashtags_map hashtags_30d)) hashtags_7d) as [out7 Hout7].
  { eapply Forall_impl; [exact H7|]. intros h Hh. by apply metrics_7d_scraped. }
  destruct (mapM_total metrics_30d hashtags_30d) as [out30 Hout30].
  { eapply Forall_impl; [exact H30|]. intros h Hh.
    destruct (metrics_30d_scraped h Hh) as (r & Hr & _). by eexists. }
  exists out7, out30. rewrite Hout7, Hout30.
  split; [reflexivity|].
  apply mapM_Ok in Hout7, Hout30.
  split; [symmetry; by eapply Forall2_length|]. split.
  - clear -Hout7 Hnone. induction Hout7 as [|h r hs rs Hone _ IH]; constructor; [|exact IH].
    by eapply metrics_7d_no_growth.
  - clear -Hout30 H30. revert H30.
    induction Hout30 as [|h r hs rs Hone _ IH]; intros H30; constructor.
    + apply Forall_cons in H30 as [Hh _].
      destruct (metrics_30d_scraped h Hh) as (r' & Hr' & Hn). congruence.
    + apply IH. by apply Forall_cons in H30 as [_ H30].
Qed.

Lemma period_growth_never_computed_witness :
  exists out7 out30,
    calculate_hashtag_metrics scraped_7d scraped_30d = Ok (out7, out30)
    /\ length out7 = length scraped_7d
    /\ Forall (fun r => Metrics.period_growth_pct r = None) out7
    /\ Forall (fun r => numeric_post_count (fst r) <> None) out30.
Proof.
  apply (period_growth_never_computed scraped_7d scraped_30d).
  - repeat constructor; unfold freshly_scraped; cbn; eauto.
  - repeat constructor; unfold freshly_scraped; cbn; eauto.
Defined.

(** X23: The 30-day loop has no default: it leaves the record without a trend
    status exactly when the direction is up and the change is at most 5,
    where the 7-day loop says [stable]; in every other case the two loops
    write the same status. *)
Theorem thirty_day_status_gap (h : Hashtag) (dir : string) (chg : Z) :
  ranking_direction h = Some dir -> ranking_change h = Some chg ->
  (trend_status_30d h = Ok None <-> dir = "up" /\ chg <= 5)
  /\ (trend_status_30d h = Ok None -> trend_status_7d h = Ok "stable")
  /\ (forall status, trend_status_30d h = Ok (Some status) -> trend_status_7d h = Ok status).
Proof.
  intros Hd Hc. unfold trend_status_30d, trend_status_7d. rewrite Hd, Hc.
  cbn [require]. unfold mbind, result_bind.
  destruct (String.eqb_spec dir "up") as [->|Hup].
  - destruct (Z.ltb_spec 10 chg); [|destruct (Z.ltb_spec 5 chg)].
    + split; [split; [discriminate|lia]|]. split; [discriminate|by intros s [= <-]].
    + split; [split; [discriminate|lia]|]. split; [discriminate|by intros s [= <-]].
    + split; [split; [intros _; split; [reflexivity|lia]|reflexivity]|].
      split; [reflexivity|discriminate].
  - destruct (String.eqb dir "down").
    + destruct (10 <? chg); (split; [split; [discriminate|tauto]|]);
        (split; [discriminate|by intros s [= <-]]).
    + split; [split; [discriminate|tauto]|]. split; [discriminate|by intros s [= <-]].
Qed.

Lemma thirty_day_status_gap_witness :
  trend_status_30d (scraped_hashtag "#dog" 1 (VStr "9M") "up" 2) = Ok None
  <-> "up" = "up" /\ 2 <= 5.
Proof.
  apply (thirty_day_status_gap (scraped_hashtag "#dog" 1 (VStr "9M") "up" 2) "up" 2);
    reflexivity.
Defined.

(** X24: The scraper and the analyzer label the same stages, under different
    names: whenever the 7-day loop succeeds, the lifecycle stage that
    [analyze_trends] assigns is the scraper's trend status with
    [trending] read as [growing] and [falling] as [declining]. *)
Theorem lifecycle_matches_trend_status (h : Hashtag) (status : string) :
  trend_status_7d h = Ok status ->
  hashtag_lifecycle_stage h = stage_of_status status
  /\ In status ["rising"; "trending"; "falling"; "stable"].
Proof.
  unfold trend_status_7d, hashtag_lifecycle_stage. unfold mbind, result_bind.
  destruct (ranking_direction h) as [dir|]; [|discriminate]. cbn [require get_is].
  destruct (String.eqb_spec dir "up") as [->|Hup].
  - destruct (ranking_change h) as [chg|]; [|discriminate]. cbn [require get_or].
    cbn [andb]. intros [= <-].
    destruct (10 <? chg); [split; [reflexivity|cbn; tauto]|].
    destruct (5 <? chg); split; try reflexivity; cbn; tauto.
  - cbn [andb]. destruct (String.eqb dir "down").
    + destruct (ranking_change h) as [chg|]; [|discriminate]. cbn [require get_or andb].
      intros [= <-]. destruct (10 <? chg); split; try reflexivity; cbn; tauto.
    + cbn [andb]. intros [= <-]. split; [reflexivity|cbn; tauto].
Qed.

Lemma lifecycle_matches_trend_status_witness :
  hashtag_lifecycle_stage (scraped_hashtag "#cat" 1 (VStr "1.2M") "up" 7)
  = stage_of_status "trending".
Proof.
  apply (lifecycle_matches_trend_status (scraped_hashtag "#cat" 1 (VStr "1.2M") "up" 7)).
  reflexivity.
Defined.

Lemma hashtags_map_ranks (l l' : list Hashtag) (text : string) :
  map (fun h => (hashtag h, rank h)) l = map (fun h => (hashtag h, rank h)) l' ->
  rank <$> (hashtags_map l !! text) = rank <$> (hashtags_map l' !! text).
Proof.
  unfold hashtags_map.
  assert (Hgen : forall (m m' : gmap string Hashtag),
             rank <$> (m !! text) = rank <$> (m' !! text) ->
             map (fun h => (hashtag h, rank h)) l = map (fun h => (hashtag h, rank h)) l' ->
             rank <$> (foldl (fun m h => <[hashtag h := h]> m) m l !! text)
             = rank <$> (foldl (fun m h => <[hashtag h := h]> m) m' l' !! text)).
  { revert l'. induction l as [|h l IH]; intros [|h' l'] m m' Hm Hl;
      try discriminate Hl; [exact Hm|].
    cbn [map] in Hl. injection Hl as Ht Hr Hl. cbn [foldl].
    apply IH; [|exact Hl]. rewrite Ht.
    destruct (decide (hashtag h' = text)) as [<-|Hne].
    - rewrite !lookup_insert_eq. cbn. by rewrite Hr.
    - by rewrite !lookup_insert_ne. }
  intros Hl. by apply Hgen.
Qed.

(** X25: On a record prepared by the scraper the predictor's comparison with
    the 30-day data takes only the values +25, -15, 0 and +5: the rank
    comparison (+10 or -5) and the momentum label (+15 or -10) come from
    the same two ranks and always agree; +5 is for a hashtag absent from
    the 30-day list. *)
Theorem scraper_momentum_feeds_predictor (h : Hashtag) (hashtags_30d analysed_30d : list Hashtag)
    (r : Metrics.t) :
  metrics_7d (hashtags_map hashtags_30d) h = Ok r ->
  map (fun h => (hashtag h, rank h)) analysed_30d
  = map (fun h => (hashtag h, rank h)) hashtags_30d ->
  momentum_factor (enrich_hashtag (Metrics.base r)) (hashtags_map analysed_30d)
  = match hashtags_map hashtags_30d !! hashtag h with
    | None => 5
    | Some h30 => if rank h <? rank h30 then 25 else if rank h30 <? rank h then -15 else 0
    end
  /\ In (momentum_factor (enrich_hashtag (Metrics.base r)) (hashtags_map analysed_30d))
        [25; -15; 0; 5].
Proof.
  intros Hr Hsame.
  pose proof (hashtags_map_ranks analysed_30d hashtags_30d (hashtag h) Hsame) as Hrank.
  unfold metrics_7d in Hr. unfold mbind, result_bind in Hr.
  destruct (require (post_count h)) as [count|]; [|discriminate].
  destruct (trend_status_7d h) as [status|]; [|discriminate].
  unfold momentum_factor.
  destruct (hashtags_map hashtags_30d !! hashtag h) as [h30|] eqn:Hl;
    injection Hr as <-;
    cbn [Metrics.base enrich_hashtag set_metrics hashtag rank period_momentum];
    destruct (hashtags_map analysed_30d !! hashtag h) as [h30'|]; try discriminate Hrank.
  - cbn in Hrank. injection Hrank as ->.
    destruct (Z.ltb_spec (rank h) (rank h30)) as [Hlt|Hge].
    + split; [reflexivity|cbn; tauto].
    + destruct (Z.ltb_spec (rank h30) (rank h)); split; try reflexivity; cbn; tauto.
  - split; [reflexivity|cbn; tauto].
Qed.

Lemma scraper_momentum_feeds_predictor_witness :
  In (momentum_factor
        (enrich_hashtag
           (set_metrics (scraped_hashtag "#cat" 1 (VStr "1.2M") "up" 12)
              (parse_count (VStr "1.2M")) (Some "accelerating")))
        (hashtags_map (map enrich_hashtag scraped_30d)))
     [25; -15; 0; 5].
Proof.
  apply (scraper_momentum_feeds_predictor (scraped_hashtag "#cat" 1 (VStr "1.2M") "up" 12)
           scraped_30d (map enrich_hashtag scraped_30d)
           {| Metrics.base := set_metrics (scraped_hashtag "#cat" 1 (VStr "1.2M") "up" 12)
                                (parse_count (VStr "1.2M")) (Some "accelerating");
              Metrics.growth_rate := 0; Metrics.trend_status := "rising";
              Metrics.period_growth_pct := None |}).
  - vm_compute. reflexivity.
  - reflexivity.
Defined.

(** ** Demo metrics of the older scraper *)

(** X26: The growth is at least 5.  With ranks counted from 1, only a breakout
    song of rank 6 or better can be [rising]; every other trend is at most
    [peaked], and from rank 33 on always [falling]. *)
Theorem demo_status_by_rank (hash : string -> Z) (is_song : bool) (trend : Trend.t) :
  1 <= Trend.rank trend ->
  let m := calculate_trend_metric hash is_song trend in
  let breakout :=
    is_song && PyStr.contains "breakout" (get_or (Trend.type trend) EmptyString) in
  5 <= TrendMetrics.growth m
  /\ (TrendMetrics.status m = "rising" -> breakout = true /\ Trend.rank trend <= 6)
  /\ (breakout = false -> 33 <= Trend.rank trend -> TrendMetrics.status m = "falling").
Proof.
  intros Hrank m breakout. unfold m, calculate_trend_metric. cbv zeta. fold breakout.
  cbn [TrendMetrics.growth TrendMetrics.status].
  pose proof (Z.mod_pos_bound (hash (get_or (Trend.name trend) EmptyString)) 100 ltac:(lia)).
  pose proof (Z.mod_pos_bound (hash (get_or (Trend.name trend) EmptyString)) 50 ltac:(lia)).
  split; [lia|].
  destruct breakout.
  - split; [|discriminate].
    destruct (Z.ltb_spec 200 (Z.max 5 (200 + Trend.rank trend * -15
                 + hash (get_or (Trend.name trend) EmptyString) mod 100))); [intros _; split; [reflexivity|lia]|].
    repeat match goal with
           | |- context [if ?b then _ else _] => destruct b
           end; discriminate.
  - set (g := Z.max 5 (100 + Trend.rank trend * -3
                       + hash (get_or (Trend.name trend) EmptyString) mod 50)).
    assert (Hg : g <= 146) by (unfold g; lia).
    destruct (Z.ltb_spec 200 g); [lia|]. split.
    + repeat match goal with
             | |- context [if ?b then _ else _] => destruct b
             end; discriminate.
    + intros _ H33. assert (Hg' : g <= 50) by (unfold g; lia).
      destruct (Z.ltb_spec 100 g); [lia|]. destruct (Z.ltb_spec 50 g); [lia|reflexivity].
Qed.

Lemma demo_status_by_rank_witness :
  5 <= TrendMetrics.growth
         (calculate_trend_metric (fun _ => 12345) false
            {| Trend.name := Some "#cat"; Trend.rank := 40; Trend.type := None;
               Trend.post_count := Some (VStr "1.2M") |}).
Proof.
  apply (demo_status_by_rank (fun _ => 12345) false
           {| Trend.name := Some "#cat"; Trend.rank := 40; Trend.type := None;
              Trend.post_count := Some (VStr "1.2M") |}).
  cbn. lia.
Defined.

(** ** Post-count parser: sign and plain numbers *)

Lemma span_digits_digits (s : string) : all_digits (fst (span_digits s)).
Proof.
  induction s as [|c s IH]; cbn [span_digits]; [constructor|].
  destruct (PyStr.is_digit c) eqn:Hc; [|constructor].
  destruct (span_digits s) as [ds rest]. cbn [fst] in *. by constructor.
Qed.

Lemma search_number_digits (s : string) (ds fs : list ascii) :
  search_number s = Some (ds, fs) -> all_digits ds /\ all_digits fs.
Proof.
  induction s as [|c s IH]; cbn [search_number]; [discriminate|].
  destruct (PyStr.is_digit c) eqn:Hc; [|exact IH].
  pose proof (span_digits_digits (String c s)) as Hds.
  destruct (span_digits (String c s)) as [ds' rest]. cbn [fst] in Hds.
  destruct rest as [|d rest'].
  - intros [= <- <-]. split; [exact Hds|constructor].
  - destruct (Ascii.eqb_spec d ".") as [->|Hne].
    + intros [= <- <-]. split; [exact Hds|apply span_digits_digits].
    + assert (Hcase : match String d rest' with
                      | String "." rest'0 => Some (ds', (span_digits rest'0).1)
                      | _ => Some (ds', [])
                      end = Some (ds', [])).
      { destruct d as [[] [] [] [] [] [] [] []]; try reflexivity. by destruct Hne. }
      rewrite Hcase. intros [= <- <-]. split; [exact Hds|constructor].
Qed.

Lemma float_of_match_nonneg (ds fs : list ascii) :
  all_digits ds -> all_digits fs -> (0 <= float_of_match (ds, fs))%Q.
Proof.
  intros Hds Hfs. unfold float_of_match. apply binary64_nonneg.
  rewrite (decimal_of_match_value ds fs Hds Hfs). by apply numeral_value_nonneg.
Qed.

Lemma parse_count_str_nonneg (s : string) : (0 <= num_val (parse_count_str s))%Q.
Proof.
  unfold parse_count_str.
  destruct (strip_multiplier _) as [multiplier count_str] eqn:Hstrip.
  assert (Hm : 0 <= multiplier).
  { unfold strip_multiplier in Hstrip.
    repeat match type of Hstrip with
           | context [if ?b then _ else _] => destruct b
           end; injection Hstrip as <- _; lia. }
  destruct (search_number count_str) as [[ds fs]|] eqn:Hsearch; [|cbn; discriminate].
  apply search_number_digits in Hsearch as [Hds Hfs].
  cbn [num_val]. apply binary64_nonneg.
  apply Qmult_le_0_compat; [by apply float_of_match_nonneg|].
  change 0%Q with (inject_Z 0). by rewrite <- Zle_Qle.
Qed.

Lemma parse_count_str_minus (s : string) :
  parse_count_str (String "-" s) = parse_count_str s.
Proof.
  unfold parse_count_str, strip_multiplier.
  change (PyStr.remove_char "," (PyStr.upper (String "-" s)))
    with (String "-" (PyStr.remove_char "," (PyStr.upper s))).
  set (u := PyStr.remove_char "," (PyStr.upper s)).
  change (PyStr.has_char "K" (String "-" u)) with (PyStr.has_char "K" u).
  change (PyStr.has_char "M" (String "-" u)) with (PyStr.has_char "M" u).
  change (PyStr.has_char "B" (String "-" u)) with (PyStr.has_char "B" u).
  change (PyStr.remove_char "K" (String "-" u)) with (String "-" (PyStr.remove_char "K" u)).
  change (PyStr.remove_char "M" (String "-" u)) with (String "-" (PyStr.remove_char "M" u)).
  change (PyStr.remove_char "B" (String "-" u)) with (String "-" (PyStr.remove_char "B" u)).
  destruct (PyStr.has_char "K" u); [reflexivity|].
  destruct (PyStr.has_char "M" u); [reflexivity|].
  destruct (PyStr.has_char "B" u); reflexivity.
Qed.

(** X27: Whatever the string, the parsed count is never negative: the pattern
    takes digits only, so a minus sign in front of the text changes
    nothing. *)
Theorem parse_count_never_negative (s : string) :
  (0 <= num_val (parse_count (VStr s)))%Q
  /\ parse_count (VStr (String "-" s)) = parse_count (VStr s).
Proof.
  split.
  - destruct s as [|c s]; [cbn; discriminate|]. apply parse_count_str_nonneg.
  - destruct s as [|c s]; [vm_compute; reflexivity|].
    apply (parse_count_str_minus (String c s)).
Qed.

Lemma parse_count_plain (ds : list ascii) (s : string) (fs : option (list ascii)) :
  ds <> [] -> grouped ds s -> all_digits (fraction_digits fs) ->
  parse_count (VStr (s +:+ fraction_text fs))
  = NFloat (binary64 (float_of_match (ds, fraction_digits fs) * inject_Z 1)).
Proof.
  intros Hne Hg Hfs.
  assert (Hs0 : s <> EmptyString).
  { intros ->. cbn in Hg. by apply Hne. }
  apply grouped_normal in Hg as [Hds Hs].
  destruct (digits_text_plain ds Hds) as (_ & _ & D2 & D3 & D4).
  destruct (fraction_text_plain fs Hfs) as (F0 & F1 & F2 & F3 & F4).
  assert (Hpc : parse_count (VStr (s +:+ fraction_text fs))
                = parse_count_str (s +:+ fraction_text fs)).
  { destruct s; [done|reflexivity]. }
  rewrite Hpc. unfold parse_count_str, strip_multiplier.
  assert (Hnorm : PyStr.remove_char "," (PyStr.upper (s +:+ fraction_text fs))
                  = string_of_chars ds +:+ fraction_text fs).
  { unfold PyStr.upper in *.
    rewrite map_chars_app, remove_char_app, Hs, F0.
    by rewrite (remove_char_absent _ _ F1). }
  rewrite Hnorm, !has_char_app, D2, D3, D4, F2, F3, F4. cbn [orb].
  by rewrite (search_number_numeral ds fs Hne Hds Hfs).
Qed.

(** X28: A count written without a suffix letter, as a numeral that starts
    with a digit (digits, commas allowed between them, an optional
    fraction), parses to the double nearest to the number the numeral
    denotes.  A whole number below 2^53 parses to exactly that number: the
    decimal digits of [n], with or without commas, parse to the float
    [n]. *)
Theorem parse_count_plain_number (ds : list ascii) (s : string) (fs : option (list ascii)) :
  ds <> [] -> grouped ds s -> all_digits (fraction_digits fs) ->
  (length ds <= 290)%nat ->
  exists q,
    parse_count (VStr (s +:+ fraction_text fs)) = NFloat q
    /\ (q == binary64 (numeral_value ds (fraction_digits fs)))%Q
    /\ ((fraction_value (fraction_digits fs) == 0)%Q -> whole_value ds < 2 ^ 53 ->
        (q == inject_Z (whole_value ds))%Q)
    /\ (forall n : N, ds = list_ascii_of_string (pretty n) -> fs = None ->
        Z.of_N n < 2 ^ 53 -> (q == inject_Z (Z.of_N n))%Q).
Proof.
  intros Hne Hg Hfs _.
  pose proof (parse_count_plain ds s fs Hne Hg Hfs) as Hp.
  apply grouped_normal in Hg as [Hds _].
  set (value := numeral_value ds (fraction_digits fs)).
  assert (Hq : (binary64 (float_of_match (ds, fraction_digits fs) * inject_Z 1)
                == binary64 value)%Q).
  { rewrite <- (binary64_idem value). apply binary64_comp.
    rewrite (float_of_match_value ds _ Hds Hfs). fold value.
    change (inject_Z 1) with 1%Q. ring. }
  assert (Hexact : (fraction_value (fraction_digits fs) == 0)%Q -> whole_value ds < 2 ^ 53 ->
                   (binary64 value == inject_Z (whole_value ds))%Q).
  { intros Hfrac Hbound.
    pose proof (whole_value_bounds ds Hds) as [Hw _].
    apply binary64_int; [|lia].
    unfold value, numeral_value. rewrite Hfrac. ring. }
  eexists. split; [exact Hp|]. split; [exact Hq|]. rewrite Hq. split; [exact Hexact|].
  intros n -> -> Hbound.
  destruct (pretty_N_value n) as (_ & Hv & _).
  rewrite Hq, <- Hv. apply Hexact; [reflexivity|]. by rewrite Hv.
Qed.

Lemma parse_count_plain_number_witness :
  exists q, parse_count (VStr "12,345") = NFloat q /\ (q == 12345)%Q.
Proof.
  destruct (parse_count_plain_number ["1"; "2"; "3"; "4"; "5"]%char "12,345" None)
    as (q & Hp & _ & _ & Hn).
  - discriminate.
  - cbn [grouped].
    repeat first [ reflexivity
                 | left; split; [reflexivity|]
                 | right; eexists; split; [reflexivity|split; [reflexivity|]] ].
  - constructor.
  - cbn [length]. lia.
  - exists q. split; [exact Hp|].
    apply (Hn 12345%N); [reflexivity|reflexivity|reflexivity].
Defined.

(** ** Topic names *)

(** X29: The topic name is decided by the first three words: a word of the
    dance list among them gives [Dance Content] whatever else matches
    (so [routine], also listed under beauty and lifestyle, always names a
    dance topic); without any word the name is [Misc Content]. *)
Theorem topic_name_from_first_three (top_words : list string) :
  _generate_topic_name top_words = _generate_topic_name (take 3 top_words)
  /\ ((exists word, In word (take 3 top_words)
                    /\ In word ["dance"; "dancing"; "choreography"; "moves"; "routine"]) ->
      _generate_topic_name top_words = "Dance Content")
  /\ (top_words = [] -> _generate_topic_name top_words = "Misc Content").
Proof.
  split; [|split].
  - unfold _generate_topic_name. rewrite take_take. cbn [Nat.min].
    destruct top_words as [|w ws]; reflexivity.
  - intros (word & Hw & Hd). unfold _generate_topic_name.
    assert (Hex : existsb (fun word =>
                     existsb (String.eqb word)
                       ["dance"; "dancing"; "choreography"; "moves"; "routine"])
                    (take 3 top_words) = true).
    { apply existsb_exists. exists word. split; [exact Hw|].
      apply existsb_exists. exists word. split; [exact Hd|apply String.eqb_refl]. }
    unfold topic_categories. rewrite filter_cons_True by exact Hex. reflexivity.
  - intros ->. reflexivity.
Qed.
